(** * Analytic Programming orchestrator: scope exclusivity, wire protocol,
      worker supervisor and broadcast hub

    A shallow embedding of the orchestration core of the repository
    ([orchestrator_enhanced.py], [mcp_server_stdio.py],
    [ap_studio_backend.py]) together with the properties that its
    specification states about it.

    Conventions.
    - Python [int] is [Z]; [str] is [string] (the text is taken to be ASCII,
      one character per byte); a [Dict] used as a record with optional keys
      is a record of [option] fields, so that [d.get(k, default)] and [d[k]]
      (which raises [KeyError]) are both expressible.
    - A Python [dict] whose iteration order matters is an association list in
      insertion order; a Python [set] is a [gset].
    - Exceptions are values of [PyError] carried by the [Res] monad; the
      supervisor's methods thread its state through a state-and-exception
      monad.
    - The [json] library and the clock are interfaces ([JsonLib], [Clock]);
      [RefJson] is a reference printer and parser, proved to read back what
      it prints, on which the closed examples run.
    - Waiting on a future is modelled by the lines the worker writes before
      the deadline, which the read loop handles while the caller waits.
    - Fields that only hold clock readings, random identifiers or file-system
      paths ([timestamp], [plan_id], [file_path], [elapsed_time]) are left out
      of the records: no function below branches on them. *)

From Stdlib Require Import Ascii QArith.
From stdpp Require Import base option list gmap strings pretty sorting.

Open Scope Z_scope.
Open Scope string_scope.
Open Scope list_scope.

(** ** Exceptions *)

Inductive PyError : Type :=
| KeyError (key : string)
| ValueError (msg : string)
| TypeError (msg : string)
| AttributeError (msg : string)
| RuntimeError (msg : string)
| TimeoutError (msg : string)
| OSError (msg : string)
| JSONDecodeError.

Inductive Res (A : Type) : Type :=
| Ok (a : A)
| Raise (e : PyError).

Arguments Ok {A} a.
Arguments Raise {A} e.

#[global] Instance Res_ret : MRet Res := fun A a => Ok a.
#[global] Instance Res_bind : MBind Res :=
  fun A B f m => match m with Ok a => f a | Raise e => Raise e end.

Definition is_Ok {A} (r : Res A) : Prop :=
  match r with Ok _ => True | Raise _ => False end.

(** [for x in xs: acc = body(acc, x)] where the body may raise. *)
Fixpoint foldM {A B} (body : B -> A -> Res B) (xs : list A) (acc : B) : Res B :=
  match xs with
  | [] => Ok acc
  | x :: xs' => acc' ← body acc x; foldM body xs' acc'
  end.

(** * Scope Exclusivity Validator and Wave Scheduler
      ([orchestrator_enhanced.py]) *)

Module Scheduler.

(** ** Data model *)

(** [TaskType] of [orchestrator.py]. *)
Inductive TaskType : Type := RESET | FEATURE | BUG | REFACTOR | ENHANCEMENT.

Definition TaskType_value (t : TaskType) : string :=
  match t with
  | RESET => "reset" | FEATURE => "feature" | BUG => "bug"
  | REFACTOR => "refactor" | ENHANCEMENT => "enhancement"
  end.

(** [str.title()] on the five enum values. *)
Definition TaskType_title (t : TaskType) : string :=
  match t with
  | RESET => "Reset" | FEATURE => "Feature" | BUG => "Bug"
  | REFACTOR => "Refactor" | ENHANCEMENT => "Enhancement"
  end.

(** An objective is a Python dict; every key the code reads is optional. *)
Record Objective : Type := mkObjective {
  title : option string;
  worker_type : option string;
  scope_touch : option (list string);
  scope_forbid : option (list string);
  wave : option Z
}.

#[global] Instance Objective_eq_dec : EqDecision Objective.
Proof. solve_decision. Defined.

(** [obj.get('wave', 1)] *)
Definition get_wave (o : Objective) : Z := default 1 (wave o).
(** [obj.get('scope_touch', [])] *)
Definition get_scope_touch (o : Objective) : list string := default [] (scope_touch o).
(** [obj.get('title', 'Unknown')] *)
Definition get_title (o : Objective) : string := default "Unknown" (title o).
(** [obj['title']] *)
Definition item_title (o : Objective) : Res string :=
  match title o with
  | Some t => Ok t
  | None => Raise (KeyError "title")
  end.

(** [set(obj.get('scope_touch', []))] *)
Definition touch_set (o : Objective) : gset string := list_to_set (get_scope_touch o).

(** A recorded conflict.  [list(overlap)] enumerates a Python set, whose
    order is unspecified; the field is kept as the set itself. *)
Record Conflict : Type := mkConflict {
  c_wave : Z;
  objective1 : string;
  objective2 : string;
  overlap : gset string
}.

#[global] Instance Conflict_eq_dec : EqDecision Conflict.
Proof. solve_decision. Defined.

Record Validation : Type := mkValidation {
  valid : bool;
  conflicts : list Conflict;
  waves_checked : nat;
  total_objectives : nat
}.

Record Contract : Type := mkContract {
  c_from : string;
  c_to : string;
  c_description : string
}.

#[global] Instance Contract_eq_dec : EqDecision Contract.
Proof. solve_decision. Defined.

(** The part of [team.json] the planner reads. *)
Record TeamConfig : Type := mkTeamConfig {
  cfg_global_forbid : option (list string)
}.

(** The part of [AnalysisReport] the planner reads. *)
Record AnalysisReport : Type := mkAnalysisReport {
  report_id : string;
  owner_request : string;
  task_type : TaskType
}.

Record CoordinationPlan : Type := mkCoordinationPlan {
  analysis_report_id : string;
  plan_type : TaskType;
  waves : list (list Objective);
  integration_contracts : list Contract;
  scope_validation : Validation;
  global_forbid : list string;
  estimated_duration : string
}.

(** ** Grouping by wave *)

(** [d.setdefault(k, []).append(o)] on an insertion-ordered dict. *)
Fixpoint setdefault_append (k : Z) (o : Objective)
    (d : list (Z * list Objective)) : list (Z * list Objective) :=
  match d with
  | [] => [(k, [o])]
  | (k', os) :: d' =>
      if decide (k' = k) then (k', os ++ [o]) :: d'
      else (k', os) :: setdefault_append k o d'
  end.

(** The loop [for obj in objectives: waves.setdefault(...).append(obj)]. *)
Definition group_by_wave (objectives : list Objective) : list (Z * list Objective) :=
  fold_left (fun d o => setdefault_append (get_wave o) o d) objectives [].

(** [d[k]] on the association list. *)
Fixpoint dict_get (k : Z) (d : list (Z * list Objective)) : option (list Objective) :=
  match d with
  | [] => None
  | (k', os) :: d' => if decide (k' = k) then Some os else dict_get k d'
  end.

(** ** [OrchestratorTools.validate_scope_exclusivity] *)

(** The inner loop [for obj2 in wave_objs[i+1:]] for a fixed [obj1]. *)
Definition conflicts_with (wave_num : Z) (obj1 : Objective)
    (later : list Objective) : list Conflict :=
  let scope1 := touch_set obj1 in
  flat_map (fun obj2 =>
    let ov := scope1 ∩ touch_set obj2 in
    if decide (ov = ∅) then []
    else [mkConflict wave_num (get_title obj1) (get_title obj2) ov]) later.

(** [for i, obj1 in enumerate(wave_objs): for obj2 in wave_objs[i+1:]: ...] *)
Fixpoint wave_conflicts (wave_num : Z) (wave_objs : list Objective) : list Conflict :=
  match wave_objs with
  | [] => []
  | obj1 :: later => conflicts_with wave_num obj1 later ++ wave_conflicts wave_num later
  end.

Definition validate_scope_exclusivity (objectives : list Objective) : Validation :=
  let ws := group_by_wave objectives in
  let cs := flat_map (fun kv => wave_conflicts kv.1 kv.2) ws in
  {| valid := bool_decide (length cs = 0%nat);
     conflicts := cs;
     waves_checked := length ws;
     total_objectives := length objectives |}.

(** ** [EnhancedOrchestrator._assign_to_waves] *)

Definition assign_to_waves (objectives : list Objective) : list (list Objective) :=
  let waves_dict := group_by_wave objectives in
  (fun i => default [] (dict_get i waves_dict)) <$> merge_sort Z.le (waves_dict.*1).

(** ** [EnhancedOrchestrator._resolve_scope_conflicts] *)

(** [obj['wave'] = obj.get('wave', 1) + 1] *)
Definition defer (o : Objective) : Objective :=
  {| title := title o; worker_type := worker_type o;
     scope_touch := scope_touch o; scope_forbid := scope_forbid o;
     wave := Some (get_wave o + 1) |}.

(** The inner loop [for obj in objectives: if obj['title'] == name: ...].
    A missing title raises [KeyError]; the objectives updated before the
    exception are not observed by any caller and are dropped here. *)
Fixpoint defer_named (name : string) (objectives : list Objective) : Res (list Objective) :=
  match objectives with
  | [] => Ok []
  | obj :: rest =>
      t ← item_title obj;
      rest' ← defer_named name rest;
      Ok ((if decide (t = name) then defer obj else obj) :: rest')
  end.

Definition resolve_scope_conflicts (objectives : list Objective)
    (validation : Validation) : Res (list Objective) :=
  foldM (fun objs conflict => defer_named (objective2 conflict) objs)
        (conflicts validation) objectives.

(** ** [EnhancedOrchestrator._define_integration_contracts] *)

(** The inner loop [for obj2 in objectives[i+1:]] for a fixed [obj1]. *)
Fixpoint contracts_from (obj1 : Objective) (later : list Objective) : Res (list Contract) :=
  match later with
  | [] => Ok []
  | obj2 :: rest =>
      here ← (if decide (get_wave obj2 > get_wave obj1) then
                f ← item_title obj1;
                t ← item_title obj2;
                Ok [mkContract f t (t +:+ " uses interfaces from " +:+ f)]
              else Ok []);
      more ← contracts_from obj1 rest;
      Ok (here ++ more)
  end.

Fixpoint define_integration_contracts (objectives : list Objective) : Res (list Contract) :=
  match objectives with
  | [] => Ok []
  | obj1 :: later =>
      cs ← contracts_from obj1 later;
      cs' ← define_integration_contracts later;
      Ok (cs ++ cs')
  end.

(** ** [EnhancedOrchestrator._estimate_duration] *)

(** [max(...)] over a generator; raises [ValueError] on an empty one. *)
Definition py_max (xs : list Z) : Res Z :=
  match xs with
  | [] => Raise (ValueError "max() arg is an empty sequence")
  | x :: xs' => Ok (fold_left Z.max xs' x)
  end.

Definition estimate_duration (objectives : list Objective) : Res string :=
  num_waves ← py_max (get_wave <$> objectives);
  Ok ("~" +:+ pretty (num_waves * 10) +:+ " minutes (" +:+ pretty num_waves +:+ " waves)").

(** ** [EnhancedOrchestrator._decompose_into_objectives] *)

(** [self.team_config.get('global_forbid', [])] *)
Definition get_global_forbid (cfg : TeamConfig) : list string :=
  default [] (cfg_global_forbid cfg).

Definition decompose_into_objectives (cfg : TeamConfig)
    (analysis : AnalysisReport) : list Objective :=
  match task_type analysis with
  | RESET =>
      [ {| title := Some "RESET: Core module refactoring";
           worker_type := Some "claude";
           scope_touch := Some ["src/core/"];
           scope_forbid := Some ["tests/"; "src/ui/"];
           wave := Some 1 |};
        {| title := Some "RESET: Test suite hardening";
           worker_type := Some "codex";
           scope_touch := Some ["tests/"];
           scope_forbid := Some ["src/"];
           wave := Some 1 |} ]
  | t =>
      [ {| title := Some (TaskType_title t +:+ ": "
                          +:+ String.substring 0 50 (owner_request analysis));
           worker_type := Some "auto";
           scope_touch := Some ["src/"];
           scope_forbid := Some (get_global_forbid cfg);
           wave := Some 1 |} ]
  end.

(** ** [EnhancedOrchestrator.run_planning_phase] *)

(** [OrchestratorPhase] of [orchestrator.py], as far as planning uses it. *)
Inductive OrchestratorPhase : Type := IDLE | PLANNING | VALIDATION.

(** [OrchestratorStatus] as set by [_update_status]. *)
Record OrchestratorStatus : Type := mkStatus {
  phase : OrchestratorPhase;
  progress_percent : Z;
  current_activity : string
}.

(** The dicts yielded by the async generator. *)
Inductive ProgressEvent : Type :=
| phase_start (name : string) (status : OrchestratorStatus)
| objectives_created (count : nat) (status : OrchestratorStatus)
| waves_created (wave_count : nat) (status : OrchestratorStatus)
| scope_validated (is_valid : bool) (cs : list Conflict) (status : OrchestratorStatus)
| phase_complete (name : string) (plan : CoordinationPlan) (status : OrchestratorStatus).

(** The body of [run_planning_phase] from Step 2 on, for the objectives the
    decomposition produced.  The result is the sequence of events yielded
    so far together with either the plan or the exception that ended the
    generator. *)
Definition plan_objectives (cfg : TeamConfig) (analysis : AnalysisReport)
    (objectives : list Objective) : list ProgressEvent * Res CoordinationPlan :=
  let ev1 :=
    [ phase_start "planning" (mkStatus PLANNING 5 "Starting coordination planning...");
      objectives_created (length objectives)
        (mkStatus PLANNING 20 "Decomposing into objectives...") ] in
  let waves0 := assign_to_waves objectives in
  let ev2 := ev1 ++ [ waves_created (length waves0)
                        (mkStatus PLANNING 40 "Assigning objectives to waves...") ] in
  let validation0 := validate_scope_exclusivity objectives in
  let ev3 := ev2 ++ [ scope_validated (valid validation0) (conflicts validation0)
                        (mkStatus VALIDATION 60 "Validating scope exclusivity...") ] in
  let resolved : Res (list Objective * list (list Objective) * Validation) :=
    if valid validation0 then Ok (objectives, waves0, validation0)
    else
      objectives' ← resolve_scope_conflicts objectives validation0;
      Ok (objectives', assign_to_waves objectives',
          validate_scope_exclusivity objectives') in
  let result : Res CoordinationPlan :=
    '(objectives', waves', validation') ← resolved;
    contracts ← define_integration_contracts objectives';
    duration ← estimate_duration objectives';
    Ok {| analysis_report_id := report_id analysis;
          plan_type := task_type analysis;
          waves := waves';
          integration_contracts := contracts;
          scope_validation := validation';
          global_forbid := get_global_forbid cfg;
          estimated_duration := duration |} in
  match result with
  | Ok plan =>
      (ev3 ++ [ phase_complete "planning" plan (mkStatus IDLE 100 "Planning complete") ],
       Ok plan)
  | Raise e => (ev3, Raise e)
  end.

Definition run_planning_phase (cfg : TeamConfig) (analysis : AnalysisReport)
    : list ProgressEvent * Res CoordinationPlan :=
  plan_objectives cfg analysis (decompose_into_objectives cfg analysis).

(** The plan a consumer of the stream obtains, as [run_full_cycle] does:
    the payload of the [phase_complete] event. *)
Fixpoint emitted_plan (events : list ProgressEvent) : option CoordinationPlan :=
  match events with
  | [] => None
  | phase_complete _ plan _ :: rest =>
      match emitted_plan rest with Some p => Some p | None => Some plan end
  | _ :: rest => emitted_plan rest
  end.

(** ** Properties of plans *)

(** No two objectives at different positions of the wave share a touch path. *)
Definition wave_exclusive (w : list Objective) : Prop :=
  forall (i j : nat) (o1 o2 : Objective),
    i <> j -> w !! i = Some o1 -> w !! j = Some o2 ->
    touch_set o1 ∩ touch_set o2 = ∅.

Definition waves_exclusive (plan : CoordinationPlan) : Prop :=
  Forall wave_exclusive (waves plan).

(** No objective of the plan touches a globally forbidden path. *)
Definition respects_global_forbid (plan : CoordinationPlan) : Prop :=
  forall (w : list Objective) (o : Objective),
    w ∈ waves plan -> o ∈ w ->
    touch_set o ∩ list_to_set (global_forbid plan) = ∅.

(** ** Vocabulary of the statements *)

(** What the configured forbid list must avoid for the decomposition of a
    given task type. *)
Definition forbid_avoids_touch (cfg : TeamConfig) (t : TaskType) : Prop :=
  match t with
  | RESET => ("src/core/" ∉ get_global_forbid cfg) /\ ("tests/" ∉ get_global_forbid cfg)
  | _ => "src/" ∉ get_global_forbid cfg
  end.

Definition titled (o : Objective) : Prop := is_Some (title o).


Definition contract_of (f t : string) : Contract :=
  mkContract f t (t +:+ " uses interfaces from " +:+ f).

(** The contracts the builder records when no title is missing. *)
Definition pure_contracts_from (obj1 : Objective) (later : list Objective) : list Contract :=
  flat_map (fun obj2 =>
    if decide (get_wave obj2 > get_wave obj1)
    then [contract_of (get_title obj1) (get_title obj2)] else []) later.

Fixpoint pure_contracts (objs : list Objective) : list Contract :=
  match objs with
  | [] => []
  | obj1 :: later => pure_contracts_from obj1 later ++ pure_contracts later
  end.

(** How many recorded contracts lead from the title [f] to the title [t]. *)
Definition contracts_between (f t : string) (cs : list Contract) : nat :=
  length (filter (fun c => c_from c = f /\ c_to c = t) cs).


(** The objectives labelled with wave [k], in list order. *)
Definition in_wave (k : Z) (objs : list Objective) : list Objective :=
  filter (fun o => get_wave o = k) objs.


(** ** [OrchestratorTools.list_workers] *)

(** An entry of the ['workers'] list of [team.json] and its ['mcp_config'];
    every key the code reads is optional. *)
Record McpConfig : Type := mkMcpConfig {
  mc_command : option string;
  mc_args : option (list string);
  mc_env : option (list (string * string))
}.

Record WorkerEntry : Type := mkWorkerEntry {
  w_id : option string;
  w_agent_type : option string;
  w_capabilities : option (list string);
  w_max_concurrent_tasks : option Z;
  w_enabled : option bool;
  w_mcp_config : option McpConfig
}.

(** A row of the listing. *)
Record WorkerRow : Type := mkWorkerRow {
  row_id : string;
  row_type : string;
  row_capabilities : list string;
  row_max_concurrent : Z;
  row_enabled : bool
}.

(** [w[k]] *)
Definition item {A} (k : string) (v : option A) : Res A :=
  match v with
  | Some a => Ok a
  | None => Raise (KeyError k)
  end.

(** [w.get('enabled', False)] *)
Definition is_enabled (w : WorkerEntry) : bool := default false (w_enabled w).

(** The comprehension over [team_config.get('workers', [])]: the filter
    [w.get('enabled', False)] is evaluated first, then the keys of the row in
    the order they are written. *)
Fixpoint list_workers_from (workers : list WorkerEntry) : Res (list WorkerRow) :=
  match workers with
  | [] => Ok []
  | w :: rest =>
      if is_enabled w then
        i ← item "id" (w_id w);
        t ← item "agent_type" (w_agent_type w);
        c ← item "capabilities" (w_capabilities w);
        m ← item "max_concurrent_tasks" (w_max_concurrent_tasks w);
        e ← item "enabled" (w_enabled w);
        rows ← list_workers_from rest;
        Ok (mkWorkerRow i t c m e :: rows)
      else list_workers_from rest
  end.

(** [workers] is the value of the ['workers'] key, when present. *)
Definition list_workers (workers : option (list WorkerEntry)) : Res (list WorkerRow) :=
  list_workers_from (default [] workers).

(** An entry with every key the listing reads. *)
Definition complete_entry (w : WorkerEntry) : Prop :=
  is_Some (w_id w) /\ is_Some (w_agent_type w) /\ is_Some (w_capabilities w) /\
  is_Some (w_max_concurrent_tasks w).

(** No two objectives at different positions with the same wave label
    share a touch path. *)
Definition same_wave_exclusive (objs : list Objective) : Prop :=
  forall (i j : nat) (oi oj : Objective),
    i <> j -> objs !! i = Some oi -> objs !! j = Some oj ->
    get_wave oi = get_wave oj -> touch_set oi ∩ touch_set oj = ∅.

(** ** The helpers of the analytic phase *)

(** [str.lower()] on ASCII text. *)
Definition lower_char (c : ascii) : ascii :=
  let n := N_of_ascii c in
  if ((65 <=? n)%N && (n <=? 90)%N)%bool then ascii_of_N (n + 32) else c.

Fixpoint lower (s : string) : string :=
  match s with
  | EmptyString => EmptyString
  | String c r => String (lower_char c) (lower r)
  end.

(** [needle in haystack] for two strings. *)
Fixpoint contains (needle haystack : string) : bool :=
  String.prefix needle haystack ||
  match haystack with
  | String _ r => contains needle r
  | EmptyString => false
  end.

(** [any(word in text for word in words)] *)
Definition any_in (words : list string) (text : string) : bool :=
  existsb (fun word => contains word text) words.

(** [EnhancedOrchestrator._determine_task_type] *)
Definition determine_task_type (request : string) : TaskType :=
  let request_lower := lower request in
  if any_in ["reset"; "refactor all"; "clean up"; "restructure"] request_lower then RESET
  else if any_in ["bug"; "fix"; "broken"; "error"] request_lower then BUG
  else if any_in ["refactor"; "improve"; "optimize"] request_lower then REFACTOR
  else FEATURE.

(** [EnhancedOrchestrator._identify_coordination_points]; the [codebase]
    argument is never read. *)
Definition identify_coordination_points (request : string) : list string :=
  (if contains "auth" (lower request)
   then ["Auth module must export login/verify functions";
         "UI must call auth functions";
         "Middleware must use auth decorators"]
   else []) ++
  (if contains "test" (lower request)
   then ["Tests must use interfaces from implementation"]
   else []).

(** [EnhancedOrchestrator._develop_scope_strategy]; the [codebase] argument
    is never read. *)
Definition develop_scope_strategy (t : TaskType) (coordination_points : list string)
    : string :=
  match t with
  | RESET => "Parallel RESET: split by module (core, ui, tests) with exclusive scopes"
  | _ =>
      if (2 <? length coordination_points)%nat
      then "Multi-wave: independent modules in Wave 1, integration in Wave 2"
      else "Single-wave: single objective with focused scope"
  end.

(** The strategy [run_analytic_phase] records for a request: Steps 2 to 4. *)
Definition scope_strategy_for (request : string) : string :=
  develop_scope_strategy (determine_task_type request)
    (identify_coordination_points request).

(** ** [AutoDocumentationEngine.generate_commit_message] ([orchestrator.py]) *)

Definition line_feed : ascii := ascii_of_N 10.

(** [s.split('\n')[0]] *)
Fixpoint first_line (s : string) : string :=
  match s with
  | EmptyString => EmptyString
  | String c r => if Ascii.eqb c line_feed then EmptyString else String c (first_line r)
  end.

(** [chr(10).join(f"- {x}" for x in xs)] *)
Fixpoint bullet_lines (xs : list string) : string :=
  match xs with
  | [] => ""
  | [x] => "- " +:+ x
  | x :: rest => "- " +:+ x +:+ String line_feed (bullet_lines rest)
  end.

(** The table [type_prefix]; every task type has an entry, so the default
    ["chore"] of the lookup is never used. *)
Definition type_prefix (t : TaskType) : string :=
  match t with
  | RESET => "refactor"
  | FEATURE => "feat"
  | BUG => "fix"
  | REFACTOR => "refactor"
  | ENHANCEMENT => "feat"
  end.

(** The part of [AccomplishmentReport] the commit message reads;
    [test_status] is [test_results.get('status')]. *)
Record Accomplishment : Type := mkAccomplishment {
  summary : string;
  objectives_completed : list string;
  acc_files_modified : list string;
  test_status : option string
}.

Definition commit_subject (accomplishment : Accomplishment) (t : TaskType) : string :=
  type_prefix t +:+ ": " +:+ String.substring 0 50 (first_line (summary accomplishment)).

Definition generate_commit_message (accomplishment : Accomplishment) (t : TaskType)
    : string :=
  commit_subject accomplishment t +:+
  String line_feed (String line_feed
    (summary accomplishment +:+
     String line_feed (String line_feed
       ("Objectives completed:" +:+
        String line_feed
          (bullet_lines (objectives_completed accomplishment) +:+
           String line_feed (String line_feed
             ("Modified files: "
              +:+ pretty (length (acc_files_modified accomplishment)) +:+
              String line_feed
                ("Tests: " +:+ default "Unknown" (test_status accomplishment) +:+
                 String line_feed (String line_feed
                   ("Co-authored-by: factory-droid[bot] "
                    +:+ "<138933559+factory-droid[bot]@users.noreply.github.com>"
                    +:+ String line_feed "")))))))))).

End Scheduler.

(** * JSON values and the [json] library *)

Module Json.

(** The values [json.loads] can return.  JSON numbers are taken to be
    integers.  A [JDict] lists its items in insertion order. *)
#[local] Unset Elimination Schemes.
Inductive json : Type :=
| JNull
| JBool (b : bool)
| JInt (n : Z)
| JStr (s : string)
| JList (xs : list json)
| JDict (kvs : list (string * json)).
#[local] Set Elimination Schemes.

(** [d.get(k)] on the items of a dict. *)
Fixpoint dict_lookup (k : string) (kvs : list (string * json)) : option json :=
  match kvs with
  | [] => None
  | (k', v) :: rest => if decide (k' = k) then Some v else dict_lookup k rest
  end.

(** [d[k] = v]: an existing key keeps its position. *)
Fixpoint dict_set (k : string) (v : json) (kvs : list (string * json))
    : list (string * json) :=
  match kvs with
  | [] => [(k, v)]
  | (k', v') :: rest =>
      if decide (k' = k) then (k', v) :: rest else (k', v') :: dict_set k v rest
  end.

(** [d.pop(k, None)] *)
Fixpoint dict_remove (k : string) (kvs : list (string * json)) : list (string * json) :=
  match kvs with
  | [] => []
  | (k', v) :: rest =>
      if decide (k' = k) then rest else (k', v) :: dict_remove k rest
  end.

(** Python's [==] on these values: [True == 1], [False == 0], lists are
    compared item by item, dicts item by item whatever their order. *)
Fixpoint py_eq (a b : json) {struct a} : bool :=
  match a, b with
  | JNull, JNull => true
  | JBool x, JBool y => Bool.eqb x y
  | JBool x, JInt n => Z.eqb (Z.b2z x) n
  | JInt n, JBool x => Z.eqb n (Z.b2z x)
  | JInt n, JInt m => Z.eqb n m
  | JStr s, JStr t => bool_decide (s = t)
  | JList xs, JList ys =>
      (fix all2 (xs ys : list json) {struct xs} : bool :=
         match xs, ys with
         | [], [] => true
         | x :: xs', y :: ys' => py_eq x y && all2 xs' ys'
         | _, _ => false
         end) xs ys
  | JDict kvs, JDict kvs' =>
      Nat.eqb (length kvs) (length kvs') &&
      (fix items (kvs : list (string * json)) {struct kvs} : bool :=
         match kvs with
         | [] => true
         | (k, v) :: rest =>
             match dict_lookup k kvs' with
             | Some v' => py_eq v v'
             | None => false
             end && items rest
         end) kvs
  | _, _ => false
  end.

(** [x in xs] for a list [xs]. *)
Definition py_in (x : json) (xs : list json) : bool :=
  existsb (fun y => py_eq y x) xs.

(** Values that can be dict keys or set members ([hash(x)] succeeds). *)
Definition hashable (v : json) : bool :=
  match v with
  | JList _ | JDict _ => false
  | _ => true
  end.

(** [obj[k]] for a string [k]. *)
Definition py_getitem (obj : json) (k : string) : Res json :=
  match obj with
  | JDict kvs =>
      match dict_lookup k kvs with
      | Some v => Ok v
      | None => Raise (KeyError k)
      end
  | JList _ => Raise (TypeError "list indices must be integers or slices, not str")
  | JStr _ => Raise (TypeError "string indices must be integers, not 'str'")
  | _ => Raise (TypeError "object is not subscriptable")
  end.

(** [obj.get(k, default)] *)
Definition py_get (obj : json) (k : string) (default0 : json) : Res json :=
  match obj with
  | JDict kvs => Ok (default default0 (dict_lookup k kvs))
  | _ => Raise (AttributeError "object has no attribute 'get'")
  end.

(** [for x in v]: the items a [for] loop visits. *)
Definition py_iter (v : json) : Res (list json) :=
  match v with
  | JList xs => Ok xs
  | JStr s => Ok ((fun c => JStr (String c "")) <$> String.list_ascii_of_string s)
  | JDict kvs => Ok ((fun kv => JStr kv.1) <$> kvs)
  | _ => Raise (TypeError "object is not iterable")
  end.

(** [len(v)] *)
Definition py_len (v : json) : Res nat :=
  match v with
  | JList xs => Ok (length xs)
  | JStr s => Ok (String.length s)
  | JDict kvs => Ok (length kvs)
  | _ => Raise (TypeError "object has no len()")
  end.

(** The two functions of the [json] library the code calls.  [json_loads]
    answers [None] where [json.loads] raises [JSONDecodeError]. *)
Class JsonLib : Type := {
  json_dumps : json -> string;
  json_loads : string -> option json
}.

End Json.

(** * A reference implementation of the [json] library

    [dumps] prints as [json.dumps] does with its default arguments
    (separators [", "] and [": "], [ensure_ascii]); [loads] accepts the JSON
    grammar as [json.loads] does, for documents whose numbers are integers
    and whose [\u] escapes stay below [0x100].  It instantiates [JsonLib]
    wherever a statement is evaluated on concrete text. *)

Module RefJson.
Import Json.

Definition dquote : ascii := ascii_of_N 34.

Definition is_ws (c : ascii) : bool :=
  let n := N_of_ascii c in
  (n =? 32)%N || (n =? 9)%N || (n =? 10)%N || (n =? 13)%N.

Fixpoint skip_ws (s : string) : string :=
  match s with
  | String c r => if is_ws c then skip_ws r else s
  | EmptyString => s
  end.

Definition hex_digit (n : N) : ascii :=
  if (n <? 10)%N then ascii_of_N (48 + n) else ascii_of_N (87 + n).

Definition hex_value (c : ascii) : option N :=
  let n := N_of_ascii c in
  if (48 <=? n)%N && (n <=? 57)%N then Some (n - 48)%N
  else if (97 <=? n)%N && (n <=? 102)%N then Some (n - 87)%N
  else if (65 <=? n)%N && (n <=? 70)%N then Some (n - 55)%N
  else None.

(** ** Printing *)

Definition escape_char (c : ascii) : string :=
  let n := N_of_ascii c in
  if (n =? 34)%N then String "\" (String dquote "")
  else if (n =? 92)%N then "\\"
  else if (n =? 10)%N then "\n"
  else if (n =? 13)%N then "\r"
  else if (n =? 9)%N then "\t"
  else if (n =? 8)%N then "\b"
  else if (n =? 12)%N then "\f"
  else if (n <? 32)%N || (126 <? n)%N then
    "\u00" +:+ String (hex_digit (n / 16)) (String (hex_digit (n mod 16)) "")
  else String c "".

Fixpoint escape (s : string) : string :=
  match s with
  | EmptyString => ""
  | String c r => escape_char c +:+ escape r
  end.

Definition dump_str (s : string) : string :=
  String dquote (escape s +:+ String dquote "").

Fixpoint dumps (v : json) : string :=
  match v with
  | JNull => "null"
  | JBool true => "true"
  | JBool false => "false"
  | JInt n => pretty n
  | JStr s => dump_str s
  | JList xs =>
      "[" +:+
      (fix items (xs : list json) : string :=
         match xs with
         | [] => ""
         | x :: rest =>
             dumps x +:+ match rest with [] => "" | _ => ", " +:+ items rest end
         end) xs +:+ "]"
  | JDict kvs =>
      "{" +:+
      (fix items (kvs : list (string * json)) : string :=
         match kvs with
         | [] => ""
         | (k, x) :: rest =>
             dump_str k +:+ ": " +:+ dumps x +:+
             match rest with [] => "" | _ => ", " +:+ items rest end
         end) kvs +:+ "}"
  end.

(** The items of a list and of a dict as [dumps] prints them. *)
Fixpoint dump_items (xs : list json) : string :=
  match xs with
  | [] => ""
  | x :: rest =>
      dumps x +:+ match rest with [] => "" | _ => ", " +:+ dump_items rest end
  end.

Fixpoint dump_members (kvs : list (string * json)) : string :=
  match kvs with
  | [] => ""
  | (k, x) :: rest =>
      dump_str k +:+ ": " +:+ dumps x +:+
      match rest with [] => "" | _ => ", " +:+ dump_members rest end
  end.

(** ** Parsing *)

Definition is_digit (c : ascii) : bool :=
  let n := N_of_ascii c in (48 <=? n)%N && (n <=? 57)%N.

Fixpoint parse_digits (s : string) (acc : N) : N * string :=
  match s with
  | String c r =>
      if is_digit c then parse_digits r (10 * acc + (N_of_ascii c - 48))%N
      else (acc, s)
  | EmptyString => (acc, s)
  end.

(** Whether a fraction or an exponent follows: the literal is then a
    float, which is outside the fragment. *)
Definition starts_fraction (rest : string) : bool :=
  match rest with
  | String c _ => Ascii.eqb c "." || Ascii.eqb c "e" || Ascii.eqb c "E"
  | EmptyString => false
  end.

(** An integer literal. *)
Definition parse_number (s : string) : option (json * string) :=
  let '(neg, s1) :=
    match s with
    | String c r => if Ascii.eqb c "-" then (true, r) else (false, s)
    | EmptyString => (false, s)
    end in
  match s1 with
  | String c r =>
      if is_digit c then
        let '(n, rest) := if Ascii.eqb c "0" then (0%N, r) else parse_digits s1 0 in
        if starts_fraction rest then None
        else Some (JInt (if neg then - Z.of_N n else Z.of_N n), rest)
      else None
  | EmptyString => None
  end.

Definition unescape (e : ascii) : option ascii :=
  let n := N_of_ascii e in
  if (n =? 34)%N then Some dquote
  else if (n =? 92)%N then Some "\"%char
  else if (n =? 47)%N then Some "/"%char
  else if (n =? 98)%N then Some (ascii_of_N 8)
  else if (n =? 102)%N then Some (ascii_of_N 12)
  else if (n =? 110)%N then Some (ascii_of_N 10)
  else if (n =? 114)%N then Some (ascii_of_N 13)
  else if (n =? 116)%N then Some (ascii_of_N 9)
  else None.

(** The characters of a string literal after its opening quote. *)
Fixpoint parse_string_body (s : string) : option (string * string) :=
  match s with
  | EmptyString => None
  | String c r =>
      if Ascii.eqb c dquote then Some ("", r)
      else if Ascii.eqb c "\" then
        match r with
        | String "u" (String h1 (String h2 (String h3 (String h4 r')))) =>
            match hex_value h1, hex_value h2, hex_value h3, hex_value h4 with
            | Some 0%N, Some 0%N, Some a, Some b =>
                match parse_string_body r' with
                | Some (t, rest) => Some (String (ascii_of_N (16 * a + b)) t, rest)
                | None => None
                end
            | _, _, _, _ => None
            end
        | String e r' =>
            match unescape e with
            | Some c' =>
                match parse_string_body r' with
                | Some (t, rest) => Some (String c' t, rest)
                | None => None
                end
            | None => None
            end
        | EmptyString => None
        end
      else if (N_of_ascii c <? 32)%N then None
      else
        match parse_string_body r with
        | Some (t, rest) => Some (String c t, rest)
        | None => None
        end
  end.

(** [s] without its prefix [p], when it has that prefix. *)
Fixpoint strip_prefix (p s : string) : option string :=
  match p with
  | EmptyString => Some s
  | String a p' =>
      match s with
      | String b s' => if Ascii.eqb a b then strip_prefix p' s' else None
      | EmptyString => None
      end
  end.

Definition parse_literal (s : string) : option (json * string) :=
  match strip_prefix "null" s, strip_prefix "true" s, strip_prefix "false" s with
  | Some rest, _, _ => Some (JNull, rest)
  | _, Some rest, _ => Some (JBool true, rest)
  | _, _, Some rest => Some (JBool false, rest)
  | _, _, _ => parse_number s
  end.

(** Whether the text, after white space, begins with the character [c]. *)
Definition next_is (c : ascii) (s : string) : option string :=
  match skip_ws s with
  | String c' r => if Ascii.eqb c' c then Some r else None
  | EmptyString => None
  end.

Fixpoint parse_value (fuel : nat) (s : string) : option (json * string) :=
  match fuel with
  | O => None
  | S fuel' =>
      match skip_ws s with
      | EmptyString => None
      | String c r as s' =>
          if Ascii.eqb c "[" then
            match next_is "]" r with
            | Some r' => Some (JList [], r')
            | None =>
                match parse_elements fuel' r with
                | Some (xs, rest) => Some (JList xs, rest)
                | None => None
                end
            end
          else if Ascii.eqb c "{" then
            match next_is "}" r with
            | Some r' => Some (JDict [], r')
            | None =>
                match parse_members fuel' r with
                | Some (kvs, rest) =>
                    Some (JDict (fold_left (fun d kv => dict_set kv.1 kv.2 d) kvs []),
                          rest)
                | None => None
                end
            end
          else if Ascii.eqb c dquote then
            match parse_string_body r with
            | Some (t, rest) => Some (JStr t, rest)
            | None => None
            end
          else parse_literal s'
      end
  end
with parse_elements (fuel : nat) (s : string) : option (list json * string) :=
  match fuel with
  | O => None
  | S fuel' =>
      match parse_value fuel' s with
      | Some (x, rest) =>
          match next_is "]" rest, next_is "," rest with
          | Some r, _ => Some ([x], r)
          | None, Some r =>
              match parse_elements fuel' r with
              | Some (xs, rest') => Some (x :: xs, rest')
              | None => None
              end
          | None, None => None
          end
      | None => None
      end
  end
with parse_members (fuel : nat) (s : string) : option (list (string * json) * string) :=
  match fuel with
  | O => None
  | S fuel' =>
      match next_is dquote s with
      | Some r =>
          match parse_string_body r with
          | Some (k, rest) =>
              match next_is ":" rest with
              | Some r1 =>
                  match parse_value fuel' r1 with
                  | Some (x, rest1) =>
                      match next_is "}" rest1, next_is "," rest1 with
                      | Some r2, _ => Some ([(k, x)], r2)
                      | None, Some r2 =>
                          match parse_members fuel' r2 with
                          | Some (kvs, rest2) => Some ((k, x) :: kvs, rest2)
                          | None => None
                          end
                      | None, None => None
                      end
                  | None => None
                  end
              | None => None
              end
          | None => None
          end
      | None => None
      end
  end.

Definition loads (s : string) : option json :=
  match parse_value (2 * String.length s + 2) s with
  | Some (v, rest) =>
      match skip_ws rest with
      | EmptyString => Some v
      | _ => None
      end
  | None => None
  end.

Definition lib : JsonLib := {| json_dumps := dumps; json_loads := loads |}.

(** ** Vocabulary of the statements *)

(** No dict of the value lists a key twice (as in every Python dict). *)
Fixpoint keys_unique (v : json) : Prop :=
  match v with
  | JList xs =>
      (fix all (xs : list json) : Prop :=
         match xs with
         | [] => True
         | x :: rest => keys_unique x /\ all rest
         end) xs
  | JDict kvs =>
      NoDup kvs.*1 /\
      (fix all (kvs : list (string * json)) : Prop :=
         match kvs with
         | [] => True
         | (_, x) :: rest => keys_unique x /\ all rest
         end) kvs
  | _ => True
  end.

(** Fuel that suffices to read a value back. *)
Fixpoint need (v : json) : nat :=
  match v with
  | JList xs =>
      S ((fix go (xs : list json) : nat :=
            match xs with
            | [] => O
            | x :: rest => S (Nat.max (need x) (go rest))
            end) xs)
  | JDict kvs =>
      S ((fix go (kvs : list (string * json)) : nat :=
            match kvs with
            | [] => O
            | (_, x) :: rest => S (Nat.max (need x) (go rest))
            end) kvs)
  | _ => 1%nat
  end.

Fixpoint need_elements (xs : list json) : nat :=
  match xs with
  | [] => O
  | x :: rest => S (Nat.max (need x) (need_elements rest))
  end.

Fixpoint need_members (kvs : list (string * json)) : nat :=
  match kvs with
  | [] => O
  | (_, x) :: rest => S (Nat.max (need x) (need_members rest))
  end.

(** The characters a printed value can begin with. *)
Definition value_start (c : ascii) : bool :=
  is_digit c || Ascii.eqb c "-" || Ascii.eqb c "n" || Ascii.eqb c "t" ||
  Ascii.eqb c "f" || Ascii.eqb c dquote || Ascii.eqb c "[" || Ascii.eqb c "{".

(** The characters an integer literal can begin with. *)
Definition number_start (c : ascii) : bool := is_digit c || Ascii.eqb c "-".

(** What may follow an integer literal without changing how it reads. *)
Definition ends_number (rest : string) : Prop :=
  starts_fraction rest = false /\
  match rest with
  | String c _ => is_digit c = false
  | EmptyString => True
  end.

(** The parser reads the printed form of [v] back, whatever follows it. *)
Definition reads_back (v : json) : Prop :=
  keys_unique v -> forall (fuel : nat) (s rest : string),
    (need v <= fuel)%nat -> skip_ws s = dumps v +:+ rest -> ends_number rest ->
    parse_value fuel s = Some (v, rest).

End RefJson.

(** * Wire protocol codec and worker process supervisor
      ([mcp_server_stdio.py]) *)

Module Supervisor.
Import Json.

(** The wall clock: [isoformat_now n] is what the [n]-th call of
    [datetime.now().isoformat()] returns. *)
Class Clock : Type := { isoformat_now : nat -> string }.

Section Protocol.
Context {lib : JsonLib} {clock : Clock}.

(** ** Messages *)

Inductive MCPMessageType : Type :=
| INITIALIZE | EXECUTE_TASK | CANCEL_TASK | SHUTDOWN | LIST_TOOLS
| INITIALIZED | TASK_STARTED | TOOL_USE | PROGRESS | TASK_COMPLETE
| TASK_ERROR | LOG | TOOLS_RESPONSE.

Definition MCPMessageType_value (t : MCPMessageType) : string :=
  match t with
  | INITIALIZE => "initialize" | EXECUTE_TASK => "execute_task"
  | CANCEL_TASK => "cancel_task" | SHUTDOWN => "shutdown"
  | LIST_TOOLS => "list_tools" | INITIALIZED => "initialized"
  | TASK_STARTED => "task_started" | TOOL_USE => "tool_use"
  | PROGRESS => "progress" | TASK_COMPLETE => "task_complete"
  | TASK_ERROR => "task_error" | LOG => "log"
  | TOOLS_RESPONSE => "tools_response"
  end.

(** The dataclass declares [type], [id], [timestamp] as [str] and [payload]
    as a dict, but [from_json] stores whatever the line contains, so every
    field is a JSON value. *)
Record MCPMessage : Type := mkMessage {
  msg_type : json;
  msg_id : json;
  msg_timestamp : json;
  msg_payload : json
}.

(** The dict handed to [json.dumps]. *)
Definition message_dict (m : MCPMessage) : json :=
  JDict [("type", msg_type m); ("id", msg_id m);
         ("timestamp", msg_timestamp m); ("payload", msg_payload m)].

Definition to_json (m : MCPMessage) : string := json_dumps (message_dict m).

Definition from_json (data : string) : Res MCPMessage :=
  match json_loads data with
  | None => Raise JSONDecodeError
  | Some obj =>
      t ← py_getitem obj "type";
      i ← py_getitem obj "id";
      ts ← py_getitem obj "timestamp";
      p ← py_getitem obj "payload";
      Ok (mkMessage t i ts p)
  end.

(** [msg_type == MCPMessageType.X.value] *)
Definition has_type (m : MCPMessage) (t : MCPMessageType) : bool :=
  match msg_type m with
  | JStr s => bool_decide (s = MCPMessageType_value t)
  | _ => false
  end.

(** ** [str.strip()] *)

Definition is_py_space (c : ascii) : bool :=
  let n := N_of_ascii c in
  ((9 <=? n)%N && (n <=? 13)%N) || ((28 <=? n)%N && (n <=? 32)%N).

Fixpoint lstrip (s : string) : string :=
  match s with
  | String c r => if is_py_space c then lstrip r else s
  | EmptyString => s
  end.

Fixpoint rstrip (s : string) : string :=
  match s with
  | EmptyString => ""
  | String c r =>
      match rstrip r with
      | EmptyString => if is_py_space c then "" else String c ""
      | r' => String c r'
      end
  end.

Definition strip (s : string) : string := rstrip (lstrip s).

(** ** Worker data *)

(** Optional fields hold [JNull] for [None]. *)
Record WorkerActivity : Type := mkActivity {
  act_worker_id : string;
  act_timestamp : json;
  activity_type : string;
  tool_name : json;
  description : json;
  file_path : json;
  progress : json
}.

(** [avg_task_duration] and [uptime_seconds] are floats derived from the
    clock and are left out. *)
Record WorkerMetrics : Type := mkMetrics {
  tasks_completed : Z;
  tasks_failed : Z;
  tools_used : list (json * Z);
  files_modified : list json
}.

Record MCPTool : Type := mkTool {
  tool_id : json;
  tool_description : json;
  tool_parameters : json;
  tool_returns : json;
  tool_examples : json
}.

(** ** [WebSocketBroadcaster] *)

(** The text of a [worker_error] broadcast, kept as its parts. *)
Inductive WorkerError : Type :=
| start_failed
| task_failed (task_id error : json)
| stderr_line (line : string).

Inductive Broadcast : Type :=
| worker_activity (a : WorkerActivity)
| worker_metrics (worker_id : string) (m : WorkerMetrics)
| worker_error (worker_id : string) (e : WorkerError) (timestamp : string).

(** [sent] lists what was handed to [websockets.broadcast], oldest first. *)
Record WebSocketBroadcaster : Type := mkBroadcaster {
  clients : list nat;
  sent : list Broadcast
}.

Definition bc_send (b : WebSocketBroadcaster) (x : Broadcast) : WebSocketBroadcaster :=
  {| clients := clients b; sent := sent b ++ [x] |}.

Definition broadcast_activity (b : WebSocketBroadcaster) (a : WorkerActivity)
    : WebSocketBroadcaster :=
  match clients b with
  | [] => b
  | _ => bc_send b (worker_activity a)
  end.

Definition broadcast_metrics (b : WebSocketBroadcaster) (wid : string)
    (m : WorkerMetrics) : WebSocketBroadcaster :=
  match clients b with
  | [] => b
  | _ => bc_send b (worker_metrics wid m)
  end.

Definition broadcast_error (b : WebSocketBroadcaster) (wid : string)
    (e : WorkerError) (now : string) : WebSocketBroadcaster :=
  bc_send b (worker_error wid e now).

(** ** [MCPServerStdio] *)

Inductive Future : Type :=
| Pending
| Resolved (result : json).

Inductive MCPWorkerType : Type := CODEX | CURSOR | CLAUDE | GPT4 | DROID.

Definition MCPWorkerType_value (t : MCPWorkerType) : string :=
  match t with
  | CODEX => "codex" | CURSOR => "cursor" | CLAUDE => "claude"
  | GPT4 => "gpt4" | DROID => "droid"
  end.

(** The supervisor's attributes.
    - [process] is [None] before [start]; afterwards it holds the lines
      written to the worker's standard input, oldest first.
    - [pending_requests] is [None] until [list_tools] creates the attribute.
    - [reader_alive] tells whether the [_read_stdout] task is still in its
      loop.
    - [clock_reads] counts the clock readings taken so far.
    - [surfaced] is a ghost log of every activity passed to
      [_on_activity]. *)
Record MCPServerStdio : Type := mkServer {
  worker_id : string;
  worker_kind : MCPWorkerType;
  max_concurrent_tasks : Z;
  process : option (list string);
  metrics : WorkerMetrics;
  running : bool;
  message_id_counter : Z;
  pending_requests : option (gmap string Future);
  broadcaster : WebSocketBroadcaster;
  reader_alive : bool;
  clock_reads : nat;
  surfaced : list WorkerActivity
}.

Definition new_server (wid : string) (kind : MCPWorkerType) (maxc : Z)
    (b : WebSocketBroadcaster) : MCPServerStdio :=
  {| worker_id := wid; worker_kind := kind; max_concurrent_tasks := maxc;
     process := None; metrics := mkMetrics 0 0 [] [];
     running := false; message_id_counter := 0; pending_requests := None;
     broadcaster := b; reader_alive := false; clock_reads := 0%nat;
     surfaced := [] |}.

Definition set_process (v : option (list string)) (s : MCPServerStdio) :=
  mkServer (worker_id s) (worker_kind s) (max_concurrent_tasks s) v (metrics s)
    (running s) (message_id_counter s) (pending_requests s) (broadcaster s)
    (reader_alive s) (clock_reads s) (surfaced s).
Definition set_metrics (v : WorkerMetrics) (s : MCPServerStdio) :=
  mkServer (worker_id s) (worker_kind s) (max_concurrent_tasks s) (process s) v
    (running s) (message_id_counter s) (pending_requests s) (broadcaster s)
    (reader_alive s) (clock_reads s) (surfaced s).
Definition set_running (v : bool) (s : MCPServerStdio) :=
  mkServer (worker_id s) (worker_kind s) (max_concurrent_tasks s) (process s)
    (metrics s) v (message_id_counter s) (pending_requests s) (broadcaster s)
    (reader_alive s) (clock_reads s) (surfaced s).
Definition set_counter (v : Z) (s : MCPServerStdio) :=
  mkServer (worker_id s) (worker_kind s) (max_concurrent_tasks s) (process s)
    (metrics s) (running s) v (pending_requests s) (broadcaster s)
    (reader_alive s) (clock_reads s) (surfaced s).
Definition set_pending (v : option (gmap string Future)) (s : MCPServerStdio) :=
  mkServer (worker_id s) (worker_kind s) (max_concurrent_tasks s) (process s)
    (metrics s) (running s) (message_id_counter s) v (broadcaster s)
    (reader_alive s) (clock_reads s) (surfaced s).
Definition set_broadcaster (v : WebSocketBroadcaster) (s : MCPServerStdio) :=
  mkServer (worker_id s) (worker_kind s) (max_concurrent_tasks s) (process s)
    (metrics s) (running s) (message_id_counter s) (pending_requests s) v
    (reader_alive s) (clock_reads s) (surfaced s).
Definition set_reader_alive (v : bool) (s : MCPServerStdio) :=
  mkServer (worker_id s) (worker_kind s) (max_concurrent_tasks s) (process s)
    (metrics s) (running s) (message_id_counter s) (pending_requests s)
    (broadcaster s) v (clock_reads s) (surfaced s).
Definition set_clock_reads (v : nat) (s : MCPServerStdio) :=
  mkServer (worker_id s) (worker_kind s) (max_concurrent_tasks s) (process s)
    (metrics s) (running s) (message_id_counter s) (pending_requests s)
    (broadcaster s) (reader_alive s) v (surfaced s).
Definition set_surfaced (v : list WorkerActivity) (s : MCPServerStdio) :=
  mkServer (worker_id s) (worker_kind s) (max_concurrent_tasks s) (process s)
    (metrics s) (running s) (message_id_counter s) (pending_requests s)
    (broadcaster s) (reader_alive s) (clock_reads s) v.

(** ** The monad of supervisor methods: state that survives an exception *)

Definition M (A : Type) : Type := MCPServerStdio -> MCPServerStdio * Res A.

Definition ret {A} (a : A) : M A := fun s => (s, Ok a).
Definition raise {A} (e : PyError) : M A := fun s => (s, Raise e).
Definition bind {A B} (m : M A) (k : A -> M B) : M B :=
  fun s => match m s with
           | (s', Ok a) => k a s'
           | (s', Raise e) => (s', Raise e)
           end.
Definition lift {A} (r : Res A) : M A := fun s => (s, r).
Definition modify (f : MCPServerStdio -> MCPServerStdio) : M unit :=
  fun s => (f s, Ok tt).
Definition get : M MCPServerStdio := fun s => (s, Ok s).

#[local] Instance M_ret : MRet M := @ret.
#[local] Instance M_bind : MBind M := fun A B k m => bind m k.

Definition newline : string := String (ascii_of_N 10) "".

(** A reading of the clock. *)
Definition now : M string :=
  fun s => (set_clock_reads (S (clock_reads s)) s, Ok (isoformat_now (clock_reads s))).

(** ** [_send_message] *)

Definition send_message (t : MCPMessageType) (payload : json) : M unit :=
  s ← get;
  match process s with
  | None => raise (RuntimeError "Worker process not started")
  | Some written =>
      let counter := message_id_counter s + 1 in
      modify (set_counter counter);;
      ts ← now;
      let message :=
        {| msg_type := JStr (MCPMessageType_value t);
           msg_id := JStr (worker_id s +:+ "_" +:+ pretty counter);
           msg_timestamp := JStr ts;
           msg_payload := payload |} in
      modify (set_process (Some (written ++ [to_json message +:+ newline])))
  end.

(** ** [_on_activity] *)

Definition on_activity (a : WorkerActivity) : M unit :=
  modify (fun s => set_surfaced (surfaced s ++ [a]) s);;
  modify (fun s => set_broadcaster (broadcast_activity (broadcaster s) a) s);;
  s ← get;
  let n := length (tools_used (metrics s)) in
  if (Nat.eqb (n mod 10) 0 && Nat.ltb 0 n)%nat
  then modify (set_broadcaster
                 (broadcast_metrics (broadcaster s) (worker_id s) (metrics s)))
  else ret tt.

(** ** [_handle_message] *)

(** [d.get(k, 0)] and [d[k] = v] on the [tools_used] dict, whose keys are
    compared with [==]. *)
Fixpoint count_lookup (k : json) (d : list (json * Z)) : Z :=
  match d with
  | [] => 0
  | (k', n) :: rest => if py_eq k' k then n else count_lookup k rest
  end.

Fixpoint count_set (k : json) (n : Z) (d : list (json * Z)) : list (json * Z) :=
  match d with
  | [] => [(k, n)]
  | (k', n') :: rest =>
      if py_eq k' k then (k', n) :: rest else (k', n') :: count_set k n rest
  end.

(** The loop [for file in files: if file not in modified: modified.append(file)]. *)
Definition add_files (files : list json) (modified : list json) : list json :=
  fold_left (fun acc file => if py_in file acc then acc else acc ++ [file])
            files modified.

Definition set_files_modified (fs : list json) (m : WorkerMetrics) : WorkerMetrics :=
  mkMetrics (tasks_completed m) (tasks_failed m) (tools_used m) fs.

(** The table of the [LOG] branch; an unhashable level raises. *)
Definition log_activity_type (level : json) : Res string :=
  match level with
  | JStr "warning" => Ok "warning"
  | JStr "error" => Ok "error"
  | JList _ | JDict _ => Raise (TypeError "unhashable type")
  | _ => Ok "log"
  end.

(** [request_id in self._pending_requests]; the keys are strings. *)
Definition pending_key (request_id : json) : Res (option string) :=
  match request_id with
  | JStr k => Ok (Some k)
  | JList _ | JDict _ => Raise (TypeError "unhashable type")
  | _ => Ok None
  end.

Definition handle_message (message : MCPMessage) : M unit :=
  let payload := msg_payload message in
  if has_type message INITIALIZED then ret tt
  else if has_type message TASK_STARTED then
    _ ← lift (py_get payload "task_id" JNull); ret tt
  else if has_type message TOOL_USE then
    tool ← lift (py_get payload "tool" JNull);
    (if hashable tool then ret tt else raise (TypeError "unhashable type"));;
    modify (fun s =>
      let m := metrics s in
      set_metrics (mkMetrics (tasks_completed m) (tasks_failed m)
                     (count_set tool (count_lookup tool (tools_used m) + 1)
                        (tools_used m))
                     (files_modified m)) s);;
    s ← get;
    d ← lift (py_get payload "description" (JStr ""));
    f ← lift (py_get payload "file" JNull);
    on_activity (mkActivity (worker_id s) (msg_timestamp message) "tool_use"
                   tool d f JNull)
  else if has_type message PROGRESS then
    p ← lift (py_get payload "progress" (JInt 0));
    s ← get;
    d ← lift (py_get payload "message" (JStr ""));
    on_activity (mkActivity (worker_id s) (msg_timestamp message) "progress"
                   JNull d JNull p)
  else if has_type message TASK_COMPLETE then
    _ ← lift (py_get payload "task_id" JNull);
    modify (fun s =>
      let m := metrics s in
      set_metrics (mkMetrics (tasks_completed m + 1) (tasks_failed m)
                     (tools_used m) (files_modified m)) s);;
    files ← lift (py_get payload "files_modified" (JList []));
    items ← lift (py_iter files);
    modify (fun s =>
      set_metrics (set_files_modified
                     (add_files items (files_modified (metrics s))) (metrics s)) s)
  else if has_type message TASK_ERROR then
    task_id ← lift (py_get payload "task_id" JNull);
    error ← lift (py_get payload "error" (JStr "Unknown error"));
    modify (fun s =>
      let m := metrics s in
      set_metrics (mkMetrics (tasks_completed m) (tasks_failed m + 1)
                     (tools_used m) (files_modified m)) s);;
    ts ← now;
    modify (fun s =>
      set_broadcaster (broadcast_error (broadcaster s) (worker_id s)
                         (task_failed task_id error) ts) s)
  else if has_type message LOG then
    level ← lift (py_get payload "level" (JStr "info"));
    text ← lift (py_get payload "message" (JStr ""));
    kind ← lift (log_activity_type level);
    s ← get;
    on_activity (mkActivity (worker_id s) (msg_timestamp message) kind
                   JNull text JNull JNull)
  else if has_type message TOOLS_RESPONSE then
    request_id ← lift (py_get payload "request_id" JNull);
    tools_data ← lift (py_get payload "tools" (JList []));
    s ← get;
    match pending_requests s with
    | None => ret tt
    | Some pending =>
        key ← lift (pending_key request_id);
        match key with
        | None => ret tt
        | Some k =>
            match pending !! k with
            | Some Pending =>
                modify (set_pending (Some (<[k := Resolved tools_data]> pending)));;
                _ ← lift (py_len tools_data); ret tt
            | _ => ret tt
            end
        end
    end
  else ret tt.

(** ** [_read_stdout] *)

(** One turn of the loop on the line [readline()] returned; [""] is the end
    of the stream.  The method itself never raises. *)
Definition read_stdout_line (line : string) : M unit :=
  fun s =>
    if negb (reader_alive s) then (s, Ok tt)
    else if negb (running s) then (set_reader_alive false s, Ok tt)
    else if bool_decide (line = "") then (set_reader_alive false s, Ok tt)
    else
      match (message ← lift (from_json (strip line)); handle_message message) s with
      | (s', Ok _) => (s', Ok tt)
      | (s', Raise JSONDecodeError) =>
          (ts ← now;
           on_activity (mkActivity (worker_id s') (JStr ts) "log" JNull
                          (JStr (strip line)) JNull JNull)) s'
      | (s', Raise _) => (set_reader_alive false s', Ok tt)
      end.

Fixpoint read_stdout (lines : list string) : M unit :=
  match lines with
  | [] => ret tt
  | line :: rest => read_stdout_line line;; read_stdout rest
  end.

(** ** Suspension points *)

(** [self._pending_requests.get(k)] when the attribute exists. *)
Definition future_of (k : string) (s : MCPServerStdio) : option Future :=
  pending ← pending_requests s; pending !! k.

(** While a caller is suspended until [deadline], the reader task handles
    the lines that arrive, each stamped with its arrival time measured from
    the moment of suspension; [stop] tells whether the caller's wait is
    already over. *)
Fixpoint run_reader_until (stop : MCPServerStdio -> bool) (deadline : Q)
    (arrivals : list (Q * string)) : M unit :=
  match arrivals with
  | [] => ret tt
  | (t, line) :: rest =>
      fun s =>
        if stop s then (s, Ok tt)
        else if Qlt_le_dec t deadline then
          (read_stdout_line line;; run_reader_until stop deadline rest) s
        else (s, Ok tt)
  end.

(** [try: body finally: cleanup] *)
Definition try_finally {A} (body : M A) (cleanup : M unit) : M A :=
  fun s =>
    match body s with
    | (s', r) =>
        match cleanup s' with
        | (s'', Ok _) => (s'', r)
        | (s'', Raise e) => (s'', Raise e)
        end
    end.

(** ** [list_tools] *)

Definition parse_tool (tool_data : json) : Res MCPTool :=
  n ← py_get tool_data "name" (JStr "unknown");
  d ← py_get tool_data "description" (JStr "");
  p ← py_get tool_data "parameters" (JDict []);
  r ← py_get tool_data "returns" JNull;
  e ← py_get tool_data "examples" (JList []);
  Ok (mkTool n d p r e).

Fixpoint parse_tools (items : list json) : Res (list MCPTool) :=
  match items with
  | [] => Ok []
  | x :: rest => t ← parse_tool x; ts ← parse_tools rest; Ok (t :: ts)
  end.

Definition is_resolved (k : string) (s : MCPServerStdio) : bool :=
  match future_of k s with
  | Some (Resolved _) => true
  | _ => false
  end.

Definition list_tools (timeout : Q) (arrivals : list (Q * string)) : M (list MCPTool) :=
  s0 ← get;
  let request_id := "list_tools_" +:+ pretty (message_id_counter s0) in
  modify (fun s => set_pending
            (Some (<[request_id := Pending]> (default ∅ (pending_requests s)))) s);;
  send_message LIST_TOOLS (JDict [("request_id", JStr request_id)]);;
  try_finally
    (run_reader_until (is_resolved request_id) timeout arrivals;;
     s ← get;
     match future_of request_id s with
     | Some (Resolved tools_data) =>
         items ← lift (py_iter tools_data);
         lift (parse_tools items)
     | _ =>
         raise (TimeoutError ("Worker " +:+ worker_id s
                              +:+ " didn't respond to LIST_TOOLS within the timeout"))
     end)
    (modify (fun s => set_pending (delete request_id <$> pending_requests s) s)).

(** ** [execute_task] *)

Record TaskResult : Type := mkTaskResult {
  success : bool;
  result_task_id : json;
  result_files_modified : json;
  result_worker_id : string
}.

(** [task] is the dict passed in; [asyncio.sleep(5)] suspends the caller
    for five seconds whatever arrives. *)
Definition execute_task (task : list (string * json)) (arrivals : list (Q * string))
    : M TaskResult :=
  s0 ← get;
  let task_id :=
    default (JStr ("task_" +:+ pretty (message_id_counter s0)))
            (dict_lookup "task_id" task) in
  send_message EXECUTE_TASK (JDict [("task_id", task_id); ("task", JDict task)]);;
  run_reader_until (fun _ => false) (inject_Z 5) arrivals;;
  s ← get;
  ret {| success := true;
         result_task_id := task_id;
         result_files_modified := default (JList []) (dict_lookup "scope_touch" task);
         result_worker_id := worker_id s |}.

(** ** [start] *)

(** [spawned] tells whether [subprocess.Popen] succeeded. *)
Definition start (spawned : bool) : M unit :=
  if spawned then
    modify (set_process (Some []));;
    modify (set_running true);;
    modify (set_reader_alive true);;
    s ← get;
    send_message INITIALIZE
      (JDict [("worker_id", JStr (worker_id s));
              ("worker_type", JStr (MCPWorkerType_value (worker_kind s)));
              ("capabilities", JInt (max_concurrent_tasks s))])
  else
    ts ← now;
    modify (fun s => set_broadcaster
              (broadcast_error (broadcaster s) (worker_id s) start_failed ts) s);;
    raise (OSError "Failed to start worker").

(** ** Vocabulary of the statements *)

(** No entry equals ([==]) an earlier one. *)
Definition files_distinct (l : list json) : Prop :=
  forall (i j : nat) (x y : json),
    (i < j)%nat -> l !! i = Some x -> l !! j = Some y -> py_eq x y = false.

(** The entries that are paths, that is, strings. *)
Definition paths_of (l : list json) : list string :=
  omap (fun v => match v with JStr p => Some p | _ => None end) l.

(** Messages handled one after the other; an exception raised by one of
    them does not undo what it already changed. *)
Definition handle_all (msgs : list MCPMessage) (s : MCPServerStdio) : MCPServerStdio :=
  fold_left (fun s m => (handle_message m s).1) msgs s.



(** [isinstance(v, dict)]: the values that have a [get] method. *)
Definition is_dict (v : json) : bool :=
  match v with
  | JDict _ => true
  | _ => false
  end.

(** ** The first step of [MCPCapabilityDiscoverer.discover_worker_capabilities]
       ([mcp_capability_discovery.py]) *)


(** How a future may change while the reader runs: not at all, or from
    pending to resolved. *)
Definition advances (f f' : option Future) : Prop :=
  f' = f \/ (f = Some Pending /\ exists v : json, f' = Some (Resolved v)).

(** ** [WorkerPoolManager] *)

(** [MCPWorkerType(value)] *)
Definition MCPWorkerType_of_value (v : string) : Res MCPWorkerType :=
  if decide (v = "codex") then Ok CODEX
  else if decide (v = "cursor") then Ok CURSOR
  else if decide (v = "claude") then Ok CLAUDE
  else if decide (v = "gpt4") then Ok GPT4
  else if decide (v = "droid") then Ok DROID
  else Raise (ValueError "not a valid MCPWorkerType").

(** The pool.  The broadcaster is one object shared by the pool and all its
    supervisors, and there is one wall clock: the pool holds both, and a
    supervisor's own [broadcaster] and [clock_reads] fields are brought up to
    date when one of its methods is entered and copied back when it
    returns. *)
Record WorkerPoolManager : Type := mkPool {
  pool_workers_cfg : option (list Scheduler.WorkerEntry);
  pool_broadcaster : WebSocketBroadcaster;
  pool_clock_reads : nat;
  workers : list (string * MCPServerStdio)
}.

(** [WorkerPoolManager.__init__] *)
Definition new_pool (workers_cfg : option (list Scheduler.WorkerEntry))
    (b : WebSocketBroadcaster) : WorkerPoolManager :=
  {| pool_workers_cfg := workers_cfg; pool_broadcaster := b;
     pool_clock_reads := 0%nat; workers := [] |}.

(** [self.workers.get(k)] and [self.workers[k] = v] *)
Fixpoint worker_lookup (k : string) (d : list (string * MCPServerStdio))
    : option MCPServerStdio :=
  match d with
  | [] => None
  | (k', v) :: rest => if decide (k' = k) then Some v else worker_lookup k rest
  end.

Fixpoint worker_set (k : string) (v : MCPServerStdio)
    (d : list (string * MCPServerStdio)) : list (string * MCPServerStdio) :=
  match d with
  | [] => [(k, v)]
  | (k', v') :: rest =>
      if decide (k' = k) then (k', v) :: rest else (k', v') :: worker_set k v rest
  end.

Definition enter (pool : WorkerPoolManager) (server : MCPServerStdio) : MCPServerStdio :=
  set_clock_reads (pool_clock_reads pool) (set_broadcaster (pool_broadcaster pool) server).

Definition leave (server : MCPServerStdio) (ws : list (string * MCPServerStdio))
    (pool : WorkerPoolManager) : WorkerPoolManager :=
  {| pool_workers_cfg := pool_workers_cfg pool;
     pool_broadcaster := broadcaster server;
     pool_clock_reads := clock_reads server;
     workers := ws |}.

(** [worker_cfg.get('enabled', True)] *)
Definition pool_enabled (w : Scheduler.WorkerEntry) : bool :=
  default true (Scheduler.w_enabled w).

(** The command line and environment the entry's process is spawned with. *)
Definition spawn_command (w : Scheduler.WorkerEntry)
    : string * list string * list (string * string) :=
  let mcp_cfg := default (Scheduler.mkMcpConfig None None None) (Scheduler.w_mcp_config w) in
  (default "python" (Scheduler.mc_command mcp_cfg),
   default [] (Scheduler.mc_args mcp_cfg),
   default [] (Scheduler.mc_env mcp_cfg)).

(** The arguments of [MCPWorkerConfig(...)] that can raise, in the order
    they are evaluated. *)
Definition entry_identity (w : Scheduler.WorkerEntry) : Res (string * MCPWorkerType) :=
  wid ← Scheduler.item "id" (Scheduler.w_id w);
  v ← Scheduler.item "agent_type" (Scheduler.w_agent_type w);
  kind ← MCPWorkerType_of_value v;
  Ok (wid, kind).

Section Pool.
(** Whether [subprocess.Popen] succeeds for a command line and
    environment. *)
Variable popen : string * list string * list (string * string) -> bool.

(** The loop of [start_workers] over the remaining entries. *)
Fixpoint start_workers_from (entries : list Scheduler.WorkerEntry)
    (pool : WorkerPoolManager) : WorkerPoolManager * Res unit :=
  match entries with
  | [] => (pool, Ok tt)
  | worker_cfg :: rest =>
      if negb (pool_enabled worker_cfg) then start_workers_from rest pool
      else
        match entry_identity worker_cfg with
        | Raise e => (pool, Raise e)
        | Ok (wid, kind) =>
            let server :=
              enter pool
                (new_server wid kind
                   (default 1 (Scheduler.w_max_concurrent_tasks worker_cfg))
                   (pool_broadcaster pool)) in
            match start (popen (spawn_command worker_cfg)) server with
            | (server', Ok _) =>
                start_workers_from rest
                  (leave server' (worker_set wid server' (workers pool)) pool)
            | (server', Raise _) =>
                start_workers_from rest (leave server' (workers pool) pool)
            end
        end
  end.

Definition start_workers (pool : WorkerPoolManager) : WorkerPoolManager * Res unit :=
  start_workers_from (default [] (pool_workers_cfg pool)) pool.

End Pool.


(** An entry the pool can turn into a supervisor. *)
Definition startable (w : Scheduler.WorkerEntry) : Prop :=
  exists (wid : string) (kind : MCPWorkerType), entry_identity w = Ok (wid, kind).

End Protocol.
End Supervisor.

(** * Activity Broadcast Hub ([ap_studio_backend.py]) *)

Module Hub.
Import Json.

(** A WebSocket connection, known by its identity. *)
Definition WebSocket : Type := nat.

(** [delivered] is a ghost log of what [send_json] handed to which
    connection, oldest first. *)
Record ConnectionManager : Type := mkManager {
  active_connections : gmap string (list WebSocket);
  delivered : list (WebSocket * json)
}.

(** [ConnectionManager.__init__] *)
Definition new_manager : ConnectionManager :=
  {| active_connections :=
       <["brainstorm" := []]> (<["orchestration" := []]> (<["workers" := []]> ∅));
     delivered := [] |}.

(** [self.active_connections[channel]] *)
Definition channel_get (channel : string) (m : ConnectionManager) : Res (list WebSocket) :=
  match active_connections m !! channel with
  | Some conns => Ok conns
  | None => Raise (KeyError channel)
  end.

Definition set_channel (channel : string) (conns : list WebSocket)
    (m : ConnectionManager) : ConnectionManager :=
  {| active_connections := <[channel := conns]> (active_connections m);
     delivered := delivered m |}.

(** [connect], after the connection was accepted. *)
Definition connect (ws : WebSocket) (channel : string) (m : ConnectionManager)
    : Res ConnectionManager :=
  conns ← channel_get channel m;
  Ok (set_channel channel (conns ++ [ws]) m).

(** [list.remove(x)]: the first occurrence goes. *)
Fixpoint remove_first (x : WebSocket) (l : list WebSocket) : list WebSocket :=
  match l with
  | [] => []
  | y :: rest => if decide (y = x) then rest else y :: remove_first x rest
  end.

Definition disconnect (ws : WebSocket) (channel : string) (m : ConnectionManager)
    : Res ConnectionManager :=
  conns ← channel_get channel m;
  if bool_decide (ws ∈ conns)
  then Ok (set_channel channel (remove_first ws conns) m)
  else Ok m.

Section Broadcast.
(** Whether [send_json] on a connection succeeds at the time of the
    broadcast. *)
Variable healthy : WebSocket -> bool.

(** The first loop of [broadcast]: what was sent and who failed. *)
Definition send_all (message : json) (conns : list WebSocket)
    : list (WebSocket * json) * list WebSocket :=
  fold_left (fun acc c =>
               if healthy c then (acc.1 ++ [(c, message)], acc.2)
               else (acc.1, acc.2 ++ [c]))
            conns ([], []).

Definition broadcast (message : json) (channel : string) (m : ConnectionManager)
    : Res ConnectionManager :=
  conns ← channel_get channel m;
  let '(sent, disconnected) := send_all message conns in
  foldM (fun m' conn => disconnect conn channel m') disconnected
        {| active_connections := active_connections m;
           delivered := delivered m ++ sent |}.

End Broadcast.

(** The connections registered on a channel. *)
Definition registered (channel : string) (m : ConnectionManager) : list WebSocket :=
  default [] (active_connections m !! channel).

End Hub.

(** * Concrete objectives, supervisors and hubs used to instantiate the
      statements *)

Module Examples.
Import Json Scheduler Supervisor Hub.

Definition obj_core_a : Objective :=
  {| title := Some "Refactor core"; worker_type := Some "claude";
     scope_touch := Some ["src/core/"]; scope_forbid := Some ["tests/"];
     wave := Some 1 |}.




Definition obj_tests_early_w1 : Objective :=
  {| title := Some "Harden tests"; worker_type := Some "codex";
     scope_touch := Some ["tests/"]; scope_forbid := Some ["src/"];
     wave := Some 1 |}.

Definition obj_ui : Objective :=
  {| title := Some "Build UI"; worker_type := Some "cursor";
     scope_touch := Some ["src/ui/"]; scope_forbid := Some ["src/core/"];
     wave := Some 1 |}.

Definition obj_core_late : Objective :=
  {| title := Some "Integrate core"; worker_type := Some "claude";
     scope_touch := Some ["src/core/"]; scope_forbid := Some []; wave := Some 2 |}.

Definition obj_tests_early : Objective :=
  {| title := Some "Harden tests"; worker_type := Some "codex";
     scope_touch := Some ["tests/"]; scope_forbid := Some []; wave := Some 1 |}.

(** An objective whose dict has no ['title'] key. *)
Definition obj_untitled : Objective :=
  {| title := None; worker_type := Some "auto";
     scope_touch := Some ["src/core/"]; scope_forbid := Some [];
     wave := Some 1 |}.

Definition worker_claude : WorkerEntry :=
  {| w_id := Some "claude-main"; w_agent_type := Some "claude";
     w_capabilities := Some ["refactoring"; "architecture"];
     w_max_concurrent_tasks := Some 2; w_enabled := Some true;
     w_mcp_config := Some (mkMcpConfig (Some "npx") (Some ["claude-mcp"]) None) |}.

(** A disabled entry that lacks most keys. *)
Definition worker_draft : WorkerEntry :=
  {| w_id := None; w_agent_type := Some "codex"; w_capabilities := None;
     w_max_concurrent_tasks := None; w_enabled := Some false;
     w_mcp_config := None |}.

(** An entry without the ['enabled'] key. *)
Definition worker_implicit : WorkerEntry :=
  {| w_id := Some "codex-fast"; w_agent_type := Some "codex";
     w_capabilities := Some ["quick_fixes"];
     w_max_concurrent_tasks := Some 1; w_enabled := None;
     w_mcp_config := None |}.

(** An enabled entry whose agent type is not a member of [MCPWorkerType]. *)
Definition worker_unknown_type : WorkerEntry :=
  {| w_id := Some "llama-local"; w_agent_type := Some "llama";
     w_capabilities := Some []; w_max_concurrent_tasks := Some 1;
     w_enabled := Some true; w_mcp_config := None |}.

(** A machine on which every command but [npx] can be spawned. *)
Definition no_npx (cmd : string * list string * list (string * string)) : bool :=
  negb (bool_decide (cmd.1.1 = "npx")).

Definition tick_clock : Clock :=
  {| isoformat_now := fun n => "2025-10-09T12:00:" +:+ pretty n |}.

Definition idle_server : MCPServerStdio :=
  new_server "worker-1" CLAUDE 1 (mkBroadcaster [7%nat] []).

(** The supervisor after [start()] spawned its process. *)
Definition started_server : MCPServerStdio :=
  (start (lib := RefJson.lib) (clock := tick_clock) true idle_server).1.

Definition line_of (v : json) : string := RefJson.dumps v +:+ newline.

Definition task_complete_line (task : string) (files : list string) : string :=
  line_of (JDict [("type", JStr "task_complete"); ("id", JStr "m1");
                  ("timestamp", JStr "2025-10-09T12:00:00");
                  ("payload", JDict [("task_id", JStr task);
                                     ("files_modified", JList (JStr <$> files))])]).


Definition task_error_line (task : string) : string :=
  line_of (JDict [("type", JStr "task_error"); ("id", JStr "m3");
                  ("timestamp", JStr "2025-10-09T12:00:02");
                  ("payload", JDict [("task_id", JStr task);
                                     ("error", JStr "compilation failed")])]).

Definition tool_use_message : MCPMessage :=
  {| msg_type := JStr "tool_use"; msg_id := JStr "worker-1_4";
     msg_timestamp := JStr "2025-10-09T12:00:03";
     msg_payload := JDict [("tool", JStr "edit_file"); ("file", JStr "src/app.py");
                           ("description", JStr "Editing app"); ("lines", JInt 12)] |}.

Definition task_complete_message (task : string) (files : list string) : MCPMessage :=
  {| msg_type := JStr "task_complete"; msg_id := JStr "m1";
     msg_timestamp := JStr "2025-10-09T12:00:00";
     msg_payload := JDict [("task_id", JStr task);
                           ("files_modified", JList (JStr <$> files))] |}.



(** Connections 1, 2 and 3 on the channel ["workers"]; the second one
    is gone. *)
Definition three_workers : ConnectionManager :=
  set_channel "workers" [1%nat; 2%nat; 3%nat] new_manager.

Definition second_is_down (c : WebSocket) : bool := negb (Nat.eqb c 2).

End Examples.

(** * Theorems about the scheduler *)

Module SchedulerFacts.
Import Scheduler Examples.

(** ** The emitted plan *)

Lemma wave_exclusive_singleton (o : Objective) : wave_exclusive [o].
Proof.
  intros i j o1 o2 Hij Hi Hj.
  destruct i as [|i], j as [|j]; simplify_eq/=; try done.
Qed.

Lemma wave_exclusive_pair (o1 o2 : Objective) :
  touch_set o1 ∩ touch_set o2 = ∅ -> wave_exclusive [o1; o2].
Proof.
  intros Hd i j a b Hij Hi Hj.
  destruct i as [|[|i]], j as [|[|j]]; simplify_eq/=; try done.
  by rewrite (comm_L (∩)).
Qed.

(** An objective touching the single path [p] avoids a forbid list exactly
    when [p] is not on it. *)
Lemma touch_single_avoids (o : Objective) (p : string) (gf : list string) :
  get_scope_touch o = [p] ->
  touch_set o ∩ list_to_set gf = ∅ <-> p ∉ gf.
Proof.
  intros Hp. unfold touch_set. rewrite Hp. simpl.
  rewrite (right_id_L ∅ (∪)). split.
  - intros Hd Hin.
    assert (Hmem : p ∈ ({[p]} ∩ list_to_set gf : gset string)).
    { apply elem_of_intersection. split; [by apply elem_of_singleton|].
      by apply elem_of_list_to_set. }
    rewrite Hd in Hmem. by apply elem_of_empty in Hmem.
  - intros Hnin. apply elem_of_equiv_empty_L.
    intros x [->%elem_of_singleton Hx%elem_of_list_to_set]%elem_of_intersection.
    done.
Qed.

Lemma respects_single_wave (plan : CoordinationPlan) (o : Objective) (p : string) :
  waves plan = [[o]] -> get_scope_touch o = [p] ->
  respects_global_forbid plan <-> p ∉ global_forbid plan.
Proof.
  intros Hw Hp. unfold respects_global_forbid. rewrite Hw. split.
  - intros H. apply (touch_single_avoids o p _ Hp).
    apply (H [o]); constructor.
  - intros H w o' Hin Ho.
    apply list_elem_of_singleton in Hin as ->.
    apply list_elem_of_singleton in Ho as ->.
    by apply (touch_single_avoids o p).
Qed.

Lemma respects_pair_wave (plan : CoordinationPlan) (o1 o2 : Objective) (p1 p2 : string) :
  waves plan = [[o1; o2]] -> get_scope_touch o1 = [p1] -> get_scope_touch o2 = [p2] ->
  respects_global_forbid plan <-> (p1 ∉ global_forbid plan) /\ (p2 ∉ global_forbid plan).
Proof.
  intros Hw Hp1 Hp2. unfold respects_global_forbid. rewrite Hw. split.
  - intros H. split.
    + apply (touch_single_avoids o1 p1 _ Hp1). apply (H [o1; o2]); repeat constructor.
    + apply (touch_single_avoids o2 p2 _ Hp2). apply (H [o1; o2]); repeat constructor.
  - intros [H1 H2] w o' Hin Ho.
    apply list_elem_of_singleton in Hin as ->.
    apply elem_of_cons in Ho as [->|Ho].
    + by apply (touch_single_avoids o1 p1).
    + apply list_elem_of_singleton in Ho as ->.
      by apply (touch_single_avoids o2 p2).
Qed.

(** C1 (amended).  Every run of the planning phase emits a plan; in that
    plan no two objectives of one wave have intersecting [scope_touch] sets
    and the recorded validation is [valid].  The global-forbid list is copied
    from the team configuration and never compared with any [scope_touch]:
    the plan avoids it exactly when the configured list does not contain the
    touch paths the decomposition hands out (["src/core/"] and ["tests/"]
    for a RESET request, ["src/"] for every other task type). *)
Theorem C1_planned_waves_exclusive (cfg : TeamConfig) (analysis : AnalysisReport) :
  exists (events : list ProgressEvent) (plan : CoordinationPlan),
    run_planning_phase cfg analysis = (events, Ok plan) /\
    emitted_plan events = Some plan /\
    valid (scope_validation plan) = true /\
    waves_exclusive plan /\
    global_forbid plan = get_global_forbid cfg /\
    (respects_global_forbid plan <-> forbid_avoids_touch cfg (task_type analysis)).
Proof.
  destruct analysis as [rid req t].
  destruct t.
  all: eexists; eexists.
  all: split; [vm_compute; reflexivity|].
  all: split; [reflexivity|].
  all: split; [reflexivity|].
  all: split; [|split; [reflexivity|]].
  all: try (repeat constructor; apply wave_exclusive_singleton).
  all: try (by eapply respects_single_wave).
  - repeat constructor. apply wave_exclusive_pair. by vm_compute.
  - by eapply respects_pair_wave.
Qed.

(** C1 as stated fails: with ["src/"] on the configured global-forbid list
    a feature request yields a plan whose only objective touches ["src/"]. *)
Lemma C1_forbid_not_enforced :
  let cfg := {| cfg_global_forbid := Some ["src/"] |} in
  let analysis := {| report_id := "r1"; owner_request := "Add JWT authentication";
                     task_type := FEATURE |} in
  exists plan : CoordinationPlan,
    (run_planning_phase cfg analysis).2 = Ok plan /\
    ~ (waves_exclusive plan /\ respects_global_forbid plan).
Proof.
  simpl. eexists. split; [vm_compute; reflexivity|].
  intros [_ H].
  eapply respects_single_wave in H; [|reflexivity|reflexivity].
  apply H. simpl. left.
Qed.

Lemma valid_iff_no_conflicts (objs : list Objective) :
  valid (validate_scope_exclusivity objs) = true <->
  conflicts (validate_scope_exclusivity objs) = [].
Proof.
  unfold validate_scope_exclusivity. simpl.
  rewrite bool_decide_eq_true. split; [apply nil_length_inv|by intros ->].
Qed.

(** ** The validator decides wave exclusivity *)

Lemma group_by_wave_snoc (objs : list Objective) (o : Objective) :
  group_by_wave (objs ++ [o]) = setdefault_append (get_wave o) o (group_by_wave objs).
Proof. unfold group_by_wave. by rewrite fold_left_app. Qed.

Lemma setdefault_append_keys (k : Z) (o : Objective) (d : list (Z * list Objective)) :
  (setdefault_append k o d).*1 = if decide (k ∈ d.*1) then d.*1 else d.*1 ++ [k].
Proof.
  induction d as [|[k' os] d IH].
  - done.
  - cbn [setdefault_append fmap list_fmap fst].
    destruct (decide (k' = k)) as [->|Hne].
    + cbn [fmap list_fmap fst]. rewrite decide_True; [done|left].
    + cbn [fmap list_fmap fst]. rewrite IH.
      destruct (decide (k ∈ d.*1)) as [Hin|Hnin].
      * rewrite decide_True; [done|by right].
      * rewrite decide_False; [done|].
        intros [?|?]%elem_of_cons; [by subst|done].
Qed.

Lemma group_by_wave_keys_NoDup (objs : list Objective) :
  NoDup (group_by_wave objs).*1.
Proof.
  induction objs as [|o objs IH] using rev_ind; [constructor|].
  rewrite group_by_wave_snoc, setdefault_append_keys.
  case_decide; [done|].
  apply NoDup_app. split_and!; [done| |apply NoDup_singleton].
  intros k Hk ->%list_elem_of_singleton. done.
Qed.

Lemma dict_get_member (d : list (Z * list Objective)) (k : Z) (os : list Objective) :
  NoDup d.*1 -> (k, os) ∈ d -> dict_get k d = Some os.
Proof.
  induction d as [|[k' os'] d IH]; simpl; [by intros _ ?%elem_of_nil|].
  intros [Hk' Hnd]%NoDup_cons [Heq|Hin]%elem_of_cons.
  - simplify_eq. by rewrite decide_True.
  - rewrite decide_False; [by apply IH|].
    intros ->. apply Hk'. apply list_elem_of_fmap. by exists (k, os).
Qed.

(** Sorting the keys and looking each one up lists the groups, in some
    order. *)
Lemma assign_to_waves_groups (objs : list Objective) :
  assign_to_waves objs ≡ₚ (group_by_wave objs).*2.
Proof.
  unfold assign_to_waves.
  rewrite (merge_sort_Permutation Z.le ((group_by_wave objs).*1)).
  pose proof (group_by_wave_keys_NoDup objs) as Hnd.
  rewrite <- list_fmap_compose.
  assert ((fun i => default [] (dict_get i (group_by_wave objs))) ∘ fst
            <$> group_by_wave objs = (group_by_wave objs).*2) as ->; [|done].
  apply list_fmap_ext. intros i [k os] Hi. simpl.
  rewrite (dict_get_member _ k os); [done|done|].
  by eapply list_elem_of_lookup_2.
Qed.

Lemma conflicts_with_nil (n : Z) (o : Objective) (later : list Objective) :
  conflicts_with n o later = [] <->
  forall o' : Objective, o' ∈ later -> touch_set o ∩ touch_set o' = ∅.
Proof.
  unfold conflicts_with. induction later as [|a later IH]; simpl.
  - split; [|done]. by intros _ o' ?%elem_of_nil.
  - case_decide as Ha; simpl.
    + rewrite IH. split.
      * intros H o' [->|?]%elem_of_cons; auto.
      * intros H o' Ho'. apply H. by right.
    + split; [done|]. intros H. exfalso. apply Ha, H. left.
Qed.

Lemma wave_exclusive_cons (o : Objective) (w : list Objective) :
  wave_exclusive (o :: w) <->
  (forall o' : Objective, o' ∈ w -> touch_set o ∩ touch_set o' = ∅) /\
  wave_exclusive w.
Proof.
  split.
  - intros H. split.
    + intros o' [j Hj]%list_elem_of_lookup.
      by apply (H 0%nat (S j) o o').
    + intros i j o1 o2 Hij Hi Hj. apply (H (S i) (S j)); [lia|done|done].
  - intros [Ho Hw] i j o1 o2 Hij Hi Hj.
    destruct i as [|i], j as [|j]; simplify_eq/=; try done.
    + apply Ho. by eapply list_elem_of_lookup_2.
    + rewrite (comm_L (∩)). apply Ho. by eapply list_elem_of_lookup_2.
    + apply (Hw i j); [lia|done|done].
Qed.

Lemma wave_conflicts_nil (n : Z) (w : list Objective) :
  wave_conflicts n w = [] <-> wave_exclusive w.
Proof.
  induction w as [|o w IH]; simpl.
  - split; [|done]. by intros _ i j o1 o2 _ ?.
  - rewrite wave_exclusive_cons, <- IH, <- (conflicts_with_nil n).
    split; [by intros [? ?]%app_eq_nil|by intros [-> ->]].
Qed.

(** The validator answers [valid] exactly when every wave of the grouping
    is exclusive. *)
Theorem validate_decides_exclusivity (objs : list Objective) :
  valid (validate_scope_exclusivity objs) = true <->
  Forall wave_exclusive (assign_to_waves objs).
Proof.
  rewrite valid_iff_no_conflicts, assign_to_waves_groups.
  unfold validate_scope_exclusivity. simpl.
  induction (group_by_wave objs) as [|[k os] d IH]; simpl.
  - split; [constructor|done].
  - rewrite Forall_cons, <- IH, <- (wave_conflicts_nil k).
    split; [by intros [? ?]%app_eq_nil|by intros [-> ->]].
Qed.

(** Whatever the objectives handed to the planning phase, a plan whose
    recorded validation is [valid] has exclusive waves: the recorded
    validation and the waves are computed from the same list. *)
Theorem plan_objectives_valid_exclusive (cfg : TeamConfig) (analysis : AnalysisReport)
    (objs : list Objective) (plan : CoordinationPlan) :
  (plan_objectives cfg analysis objs).2 = Ok plan ->
  valid (scope_validation plan) = true ->
  waves_exclusive plan.
Proof.
  unfold plan_objectives, waves_exclusive.
  destruct (valid (validate_scope_exclusivity objs)) eqn:Hv; simpl.
  - destruct (define_integration_contracts objs) as [cs|e]; simpl; [|done].
    destruct (estimate_duration objs) as [d|e]; simpl; [|done].
    intros [= <-] _. simpl. by apply validate_decides_exclusivity.
  - destruct (resolve_scope_conflicts objs _) as [objs'|e]; simpl; [|done].
    destruct (define_integration_contracts objs') as [cs|e]; simpl; [|done].
    destruct (estimate_duration objs') as [d|e]; simpl; [|done].
    intros [= <-]. simpl. apply validate_decides_exclusivity.
Qed.

(** ** Conflict resolution *)

Lemma defer_title (o : Objective) : title (defer o) = title o.
Proof. reflexivity. Qed.









(** Without recorded conflicts the objectives are returned as they are,
    titled or not: the inner loop is never entered. *)
Lemma resolve_no_conflicts (objs : list Objective) (v : Validation) :
  conflicts v = [] -> resolve_scope_conflicts objs v = Ok objs.
Proof. unfold resolve_scope_conflicts. by intros ->. Qed.

(** ** Integration contracts *)

Lemma item_title_titled (o : Objective) : titled o -> item_title o = Ok (get_title o).
Proof. intros [t Ht]. unfold item_title, get_title. by rewrite Ht. Qed.

Lemma contracts_from_titled (obj1 : Objective) (later : list Objective) :
  titled obj1 -> Forall titled later ->
  contracts_from obj1 later = Ok (pure_contracts_from obj1 later).
Proof.
  intros H1. induction 1 as [|obj2 later H2 _ IH]; simpl; [done|].
  rewrite IH. case_decide; simpl; [|done].
  by rewrite !item_title_titled.
Qed.

Lemma define_contracts_titled (objs : list Objective) :
  Forall titled objs -> define_integration_contracts objs = Ok (pure_contracts objs).
Proof.
  induction 1 as [|o objs Ho Hobjs IH]; simpl; [done|].
  rewrite contracts_from_titled by done. simpl. by rewrite IH.
Qed.

Lemma elem_of_pure_contracts_from (c : Contract) (obj1 : Objective) (later : list Objective) :
  c ∈ pure_contracts_from obj1 later <->
  exists (j : nat) (oj : Objective),
    later !! j = Some oj /\ get_wave obj1 < get_wave oj /\
    c = contract_of (get_title obj1) (get_title oj).
Proof.
  unfold pure_contracts_from. rewrite list_elem_of_In, in_flat_map. split.
  - intros (oj & Hin & Hc). apply list_elem_of_In, list_elem_of_lookup in Hin as [j Hj].
    case_decide; apply list_elem_of_In in Hc; [|by apply elem_of_nil in Hc].
    apply list_elem_of_singleton in Hc. exists j, oj. split_and!; [done|lia|done].
  - intros (j & oj & Hj & Hw & ->). exists oj. split.
    + apply list_elem_of_In. by eapply list_elem_of_lookup_2.
    + rewrite decide_True by lia. by left.
Qed.

Lemma elem_of_pure_contracts (c : Contract) (objs : list Objective) :
  c ∈ pure_contracts objs <->
  exists (i j : nat) (oi oj : Objective),
    (i < j)%nat /\ objs !! i = Some oi /\ objs !! j = Some oj /\
    get_wave oi < get_wave oj /\
    c = contract_of (get_title oi) (get_title oj).
Proof.
  induction objs as [|o objs IH]; simpl.
  - split; [by intros ?%elem_of_nil|]. by intros (i & j & oi & oj & _ & ? & _).
  - rewrite elem_of_app, elem_of_pure_contracts_from, IH. split.
    + intros [(j & oj & Hj & Hw & Hc)|(i & j & oi & oj & Hij & Hi & Hj & Hw & Hc)].
      * exists 0%nat, (S j), o, oj. split_and!; try done. lia.
      * exists (S i), (S j), oi, oj. split_and!; try done. lia.
    + intros (i & j & oi & oj & Hij & Hi & Hj & Hw & Hc).
      destruct i as [|i], j as [|j]; try lia; simpl in *.
      * left. simplify_eq. by exists j, oj.
      * right. exists i, j, oi, oj. split_and!; try done. lia.
Qed.

Lemma contract_of_inj (f t f' t' : string) :
  contract_of f t = contract_of f' t' -> f = f' /\ t = t'.
Proof. unfold contract_of. by intros [= -> ->]. Qed.

Lemma NoDup_pure_contracts_from (obj1 : Objective) (later : list Objective) :
  NoDup (get_title <$> later) -> NoDup (pure_contracts_from obj1 later).
Proof.
  unfold pure_contracts_from. induction later as [|o later IH]; simpl.
  - intros _. constructor.
  - intros [Hnot Hnd]%NoDup_cons. case_decide; simpl; [|by apply IH].
    apply NoDup_cons. split; [|by apply IH].
    intros Hin. apply Hnot.
    change (flat_map _ later) with (pure_contracts_from obj1 later) in Hin.
    apply elem_of_pure_contracts_from in Hin as (j & oj & Hj & _ & Hc).
    apply contract_of_inj in Hc as [_ ->].
    apply list_elem_of_fmap. exists oj. split; [done|].
    by eapply list_elem_of_lookup_2.
Qed.

Lemma NoDup_pure_contracts (objs : list Objective) :
  NoDup (get_title <$> objs) -> NoDup (pure_contracts objs).
Proof.
  induction objs as [|o objs IH]; simpl; [constructor|].
  intros [Hnot Hnd]%NoDup_cons. apply NoDup_app. split_and!.
  - by apply NoDup_pure_contracts_from.
  - intros c (j & oj & Hj & _ & ->)%elem_of_pure_contracts_from
             (i' & j' & oi' & oj' & _ & Hi' & _ & _ & Hc)%elem_of_pure_contracts.
    apply contract_of_inj in Hc as [Hf _]. apply Hnot. rewrite Hf.
    apply list_elem_of_fmap. exists oi'. split; [done|].
    by eapply list_elem_of_lookup_2.
  - by apply IH.
Qed.

Lemma filter_none {A} (P : A -> Prop) `{!forall x, Decision (P x)} (l : list A) :
  (forall y, y ∈ l -> ~ P y) -> filter P l = [].
Proof.
  induction l as [|a l IH]; intros Hno; [done|].
  rewrite filter_cons_False by (apply Hno; left).
  apply IH. intros y Hy. apply Hno. by right.
Qed.

(** In a duplicate-free list the elements satisfying a property that
    singles out one member are exactly one. *)
Lemma length_filter_unique {A} (P : A -> Prop) `{!forall x, Decision (P x)}
    (l : list A) (x : A) :
  NoDup l -> x ∈ l -> (forall y, y ∈ l -> P y <-> y = x) ->
  length (filter P l) = 1%nat.
Proof.
  induction l as [|a l IH]; [by intros _ ?%elem_of_nil|].
  intros [Hnot Hnd]%NoDup_cons Hin HP. rewrite filter_cons.
  destruct (decide (P a)) as [HPa|HPa].
  - assert (a = x) as -> by (apply HP; [left|done]).
    simpl. f_equal.
    rewrite filter_none; [done|].
    intros y Hy HPy. apply HP in HPy; [|by right]. by subst.
  - apply IH; [done| |].
    + apply elem_of_cons in Hin as [->|?]; [|done].
      exfalso. apply HPa, HP; [left|done].
    + intros y Hy. apply HP. by right.
Qed.

Lemma NoDup_fmap_lookup_inj {A B} (f : A -> B) (l : list A) (i j : nat) (x y : A) :
  NoDup (f <$> l) -> l !! i = Some x -> l !! j = Some y -> f x = f y -> i = j.
Proof.
  intros Hnd Hi Hj Hf.
  eapply NoDup_lookup; [exact Hnd| |].
  - rewrite list_lookup_fmap, Hi. reflexivity.
  - rewrite list_lookup_fmap, Hj. simpl. by rewrite Hf.
Qed.

(** ** Resolution inside the planning phase *)








(** C7.  When the validator accepts a list of objectives it records no
    conflict, resolution on that result returns the list unchanged (so no
    wave is reassigned), and validating the returned list gives the same
    result again. *)
Theorem C7_valid_input_is_fixed (objs : list Objective) :
  valid (validate_scope_exclusivity objs) = true ->
  conflicts (validate_scope_exclusivity objs) = [] /\
  resolve_scope_conflicts objs (validate_scope_exclusivity objs) = Ok objs /\
  (forall objs' : list Objective,
      resolve_scope_conflicts objs (validate_scope_exclusivity objs) = Ok objs' ->
      get_wave <$> objs' = get_wave <$> objs /\
      validate_scope_exclusivity objs' = validate_scope_exclusivity objs).
Proof.
  intros Hv%valid_iff_no_conflicts.
  split; [done|].
  rewrite resolve_no_conflicts by done.
  split; [done|]. by intros objs' [= <-].
Qed.

Lemma C7_valid_input_is_fixed_witness :
  conflicts (validate_scope_exclusivity [obj_core_a; obj_tests_early_w1; obj_ui]) = [] /\
  resolve_scope_conflicts [obj_core_a; obj_tests_early_w1; obj_ui]
    (validate_scope_exclusivity [obj_core_a; obj_tests_early_w1; obj_ui])
    = Ok [obj_core_a; obj_tests_early_w1; obj_ui].
Proof.
  destruct (C7_valid_input_is_fixed [obj_core_a; obj_tests_early_w1; obj_ui])
    as (Hc & Hr & _).
  - by vm_compute.
  - by split.
Defined.

(** C8 (amended).  The builder walks the objectives in list order and only
    looks forward.  For objectives with pairwise distinct titles it records,
    for two positions [i < j], exactly one contract from the objective at
    [i] to the objective at [j] when the later-listed one has the strictly
    greater wave and none otherwise; it never records a contract from a
    later-listed objective to an earlier-listed one, whatever their waves.
    Every recorded contract arises this way and carries the description
    ["<to> uses interfaces from <from>"]. *)
Theorem C8_contracts_follow_list_order (objs : list Objective) :
  Forall titled objs ->
  NoDup (get_title <$> objs) ->
  exists cs : list Contract,
    define_integration_contracts objs = Ok cs /\
    (forall (i j : nat) (oi oj : Objective),
        (i < j)%nat -> objs !! i = Some oi -> objs !! j = Some oj ->
        contracts_between (get_title oi) (get_title oj) cs
          = (if decide (get_wave oi < get_wave oj) then 1%nat else 0%nat) /\
        contracts_between (get_title oj) (get_title oi) cs = 0%nat) /\
    (forall c : Contract, c ∈ cs ->
        exists (i j : nat) (oi oj : Objective),
          (i < j)%nat /\ objs !! i = Some oi /\ objs !! j = Some oj /\
          get_wave oi < get_wave oj /\
          c = contract_of (get_title oi) (get_title oj)).
Proof.
  intros Ht Hnd. exists (pure_contracts objs).
  split; [by apply define_contracts_titled|].
  split; [|by intros c ?%elem_of_pure_contracts].
  intros i j oi oj Hij Hi Hj.
  assert (Hown : forall c f t, c ∈ pure_contracts objs -> c_from c = f /\ c_to c = t ->
            exists i' j' oi' oj', (i' < j')%nat /\ objs !! i' = Some oi' /\
              objs !! j' = Some oj' /\ get_wave oi' < get_wave oj' /\
              get_title oi' = f /\ get_title oj' = t /\ c = contract_of f t).
  { intros c f t (i' & j' & oi' & oj' & ? & ? & ? & ? & ->)%elem_of_pure_contracts [<- <-].
    by exists i', j', oi', oj'. }
  split.
  - case_decide as Hw.
    + apply (length_filter_unique _ _ (contract_of (get_title oi) (get_title oj))).
      * by apply NoDup_pure_contracts.
      * apply elem_of_pure_contracts. by exists i, j, oi, oj.
      * intros c Hc. split; [|by intros ->].
        intros Hft. by destruct (Hown _ _ _ Hc Hft) as (?&?&?&?&?&?&?&?&?&?&?).
    + unfold contracts_between. rewrite filter_none; [done|].
      intros c Hc Hft.
      destruct (Hown _ _ _ Hc Hft) as (i' & j' & oi' & oj' & ? & Hi' & Hj' & Hw' & Hf & Hto & _).
      assert (i' = i) as -> by (by eapply (NoDup_fmap_lookup_inj get_title)).
      assert (j' = j) as -> by (by eapply (NoDup_fmap_lookup_inj get_title)).
      simplify_eq. lia.
  - unfold contracts_between. rewrite filter_none; [done|].
    intros c Hc Hft.
    destruct (Hown _ _ _ Hc Hft) as (i' & j' & oi' & oj' & ? & Hi' & Hj' & Hw' & Hf & Hto & _).
    assert (i' = j) as -> by (by eapply (NoDup_fmap_lookup_inj get_title)).
    assert (j' = i) as -> by (by eapply (NoDup_fmap_lookup_inj get_title)).
    lia.
Qed.

Lemma C8_contracts_follow_list_order_witness :
  exists cs : list Contract,
    define_integration_contracts [obj_tests_early; obj_core_late] = Ok cs /\
    contracts_between "Harden tests" "Integrate core" cs = 1%nat.
Proof.
  destruct (C8_contracts_follow_list_order [obj_tests_early; obj_core_late])
    as (cs & Hcs & Hpairs & _).
  - repeat constructor; by eexists.
  - apply (bool_decide_unpack _). by vm_compute.
  - exists cs. split; [exact Hcs|].
    exact (proj1 (Hpairs 0%nat 1%nat obj_tests_early obj_core_late
                    ltac:(lia) eq_refl eq_refl)).
Defined.

(** C8 as stated fails: when the objective with the greater wave comes
    first in the list, no contract is recorded for the pair. *)
Lemma C8_later_wave_listed_first :
  get_wave obj_core_late > get_wave obj_tests_early /\
  define_integration_contracts [obj_core_late; obj_tests_early] = Ok [].
Proof. split; [by vm_compute|reflexivity]. Qed.

(** * More about the validator and the wave scheduler *)

(** ** The grouping, read by key *)

Lemma dict_get_setdefault_append (k' k : Z) (o : Objective)
    (d : list (Z * list Objective)) :
  dict_get k' (setdefault_append k o d)
    = if decide (k' = k) then Some (default [] (dict_get k d) ++ [o])
      else dict_get k' d.
Proof.
  induction d as [|[k1 os] d IH]; simpl.
  - destruct (decide (k = k')) as [->|Hne].
    + by rewrite decide_True.
    + by rewrite decide_False by congruence.
  - destruct (decide (k1 = k)) as [->|Hne]; simpl.
    + destruct (decide (k = k')) as [<-|Hne'].
      * by rewrite decide_True.
      * by rewrite decide_False by congruence.
    + rewrite IH. destruct (decide (k1 = k')) as [->|Hne'].
      * by rewrite decide_False by congruence.
      * done.
Qed.

Lemma in_wave_snoc (k : Z) (objs : list Objective) (o : Objective) :
  in_wave k (objs ++ [o])
    = in_wave k objs ++ (if decide (k = get_wave o) then [o] else []).
Proof.
  unfold in_wave. rewrite filter_app. f_equal.
  rewrite filter_cons, filter_nil.
  destruct (decide (get_wave o = k)), (decide (k = get_wave o)); congruence.
Qed.

Lemma dict_get_group_by_wave (k : Z) (objs : list Objective) :
  dict_get k (group_by_wave objs)
    = match in_wave k objs with [] => None | w => Some w end.
Proof.
  induction objs as [|o objs IH] using rev_ind; [done|].
  rewrite group_by_wave_snoc, dict_get_setdefault_append, in_wave_snoc.
  destruct (decide (k = get_wave o)) as [->|Hne].
  - rewrite IH. by destruct (in_wave (get_wave o) objs).
  - by rewrite IH, app_nil_r.
Qed.

Lemma default_dict_get_group (k : Z) (objs : list Objective) :
  default [] (dict_get k (group_by_wave objs)) = in_wave k objs.
Proof. rewrite dict_get_group_by_wave. by destruct (in_wave k objs). Qed.

Lemma elem_of_keys_dict_get (k : Z) (d : list (Z * list Objective)) :
  k ∈ d.*1 <-> is_Some (dict_get k d).
Proof.
  induction d as [|[k1 os] d IH]; simpl.
  - split; [by intros ?%elem_of_nil|by intros [? ?]].
  - rewrite elem_of_cons, IH. destruct (decide (k1 = k)) as [->|Hne].
    + split; [by eexists|by left].
    + split; [by intros [->|?]|by right].
Qed.

Lemma elem_of_in_wave (o : Objective) (k : Z) (objs : list Objective) :
  o ∈ in_wave k objs <-> o ∈ objs /\ get_wave o = k.
Proof. unfold in_wave. rewrite list_elem_of_filter. tauto. Qed.

Lemma group_keys (k : Z) (objs : list Objective) :
  k ∈ (group_by_wave objs).*1 <-> exists o : Objective, o ∈ objs /\ get_wave o = k.
Proof.
  rewrite elem_of_keys_dict_get, dict_get_group_by_wave.
  destruct (in_wave k objs) as [|a l] eqn:Hf.
  - split; [by intros [? ?]|]. intros (o & Ho & Hw).
    assert (Hin : o ∈ in_wave k objs) by (by apply elem_of_in_wave).
    rewrite Hf in Hin. by apply elem_of_nil in Hin.
  - split; [|by eexists]. intros _. exists a.
    apply elem_of_in_wave. rewrite Hf. left.
Qed.


Lemma assign_to_waves_in_wave (objs : list Objective) :
  assign_to_waves objs
    = (fun k => in_wave k objs) <$> merge_sort Z.le ((group_by_wave objs).*1).
Proof.
  unfold assign_to_waves. apply list_fmap_ext.
  intros _ k _. apply default_dict_get_group.
Qed.

(** ** Exclusivity, by wave and on the list *)

Lemma same_wave_exclusive_cons (o : Objective) (l : list Objective) :
  same_wave_exclusive (o :: l) <->
  (forall o' : Objective, o' ∈ l -> get_wave o = get_wave o' ->
     touch_set o ∩ touch_set o' = ∅) /\
  same_wave_exclusive l.
Proof.
  split.
  - intros H. split.
    + intros o' [j Hj]%list_elem_of_lookup Hw.
      by apply (H 0%nat (S j) o o').
    + intros i j o1 o2 Hij Hi Hj. apply (H (S i) (S j)); [lia|done|done].
  - intros [Ho Hl] i j o1 o2 Hij Hi Hj Hw.
    destruct i as [|i], j as [|j]; simplify_eq/=; try done.
    + apply Ho; [by eapply list_elem_of_lookup_2|done].
    + rewrite (comm_L (∩)). apply Ho; [by eapply list_elem_of_lookup_2|done].
    + apply (Hl i j); [lia|done|done|done].
Qed.

Lemma in_wave_cons (k : Z) (o : Objective) (l : list Objective) :
  in_wave k (o :: l) = if decide (get_wave o = k) then o :: in_wave k l else in_wave k l.
Proof. unfold in_wave. by rewrite filter_cons. Qed.

Lemma waves_exclusive_iff (objs : list Objective) :
  (forall k : Z, wave_exclusive (in_wave k objs)) <-> same_wave_exclusive objs.
Proof.
  induction objs as [|o l IH].
  - split; [by intros _ i j oi oj _ ?|]. by intros _ k i j oi oj _ ?.
  - rewrite same_wave_exclusive_cons, <- IH. split.
    + intros H. split.
      * intros o' Ho' Hw. specialize (H (get_wave o)).
        rewrite in_wave_cons, decide_True in H by done.
        apply wave_exclusive_cons in H as [H _]. apply H.
        by apply elem_of_in_wave.
      * intros k. specialize (H k). rewrite in_wave_cons in H.
        case_decide; [|done]. by apply wave_exclusive_cons in H as [_ H].
    + intros [Ho Hl] k. rewrite in_wave_cons. case_decide as Hk; [|by apply Hl].
      apply wave_exclusive_cons. split; [|by apply Hl].
      intros o' [Ho' Hw]%elem_of_in_wave. apply Ho; [done|congruence].
Qed.

(** X1.  The validator answers [valid] exactly when no two objectives at
    different positions of the list that carry the same wave number (1 when
    the key is missing) share a path of their [scope_touch] lists (empty when
    the key is missing). *)
Theorem X1_validator_decides_pairwise (objs : list Objective) :
  valid (validate_scope_exclusivity objs) = true <-> same_wave_exclusive objs.
Proof.
  rewrite validate_decides_exclusivity, assign_to_waves_in_wave, <- waves_exclusive_iff.
  rewrite Forall_fmap, Forall_forall. split.
  - intros H k.
    destruct (decide (k ∈ (group_by_wave objs).*1)) as [Hk|Hk].
    + apply (H k). by rewrite merge_sort_Permutation.
    + assert (in_wave k objs = []) as ->; [|by intros i j ? ? _ ?].
      destruct (in_wave k objs) as [|a l] eqn:Hf; [done|].
      exfalso. apply Hk, group_keys. exists a.
      apply elem_of_in_wave. rewrite Hf. left.
  - intros H k _. apply H.
Qed.

(** ** The recorded conflicts *)






(** ** Waves *)

Lemma group_keys_waves (objs : list Objective) :
  (group_by_wave objs).*1 ≡ₚ remove_dups (get_wave <$> objs).
Proof.
  apply NoDup_Permutation.
  - apply group_by_wave_keys_NoDup.
  - apply NoDup_remove_dups.
  - intros k. rewrite group_keys, elem_of_remove_dups, list_elem_of_fmap.
    split; intros (o & ? & ?); by exists o.
Qed.

(** X3.  The validator's counters agree with the grouping into waves:
    [waves_checked] is the number of waves [_assign_to_waves] builds, which
    is the number of different wave numbers among the objectives, and
    [total_objectives] is the length of the list. *)
Theorem X3_validator_counts_waves (objs : list Objective) :
  waves_checked (validate_scope_exclusivity objs) = length (assign_to_waves objs) /\
  waves_checked (validate_scope_exclusivity objs)
    = length (remove_dups (get_wave <$> objs)) /\
  total_objectives (validate_scope_exclusivity objs) = length objs.
Proof.
  unfold validate_scope_exclusivity. simpl. split_and!; [| |done].
  - rewrite assign_to_waves_in_wave, length_fmap.
    rewrite (merge_sort_Permutation Z.le). by rewrite length_fmap.
  - rewrite <- (group_keys_waves objs). by rewrite length_fmap.
Qed.

Lemma sorted_le_lt (l : list Z) :
  NoDup l -> StronglySorted Z.le l -> StronglySorted Z.lt l.
Proof.
  induction l as [|x l IH]; [constructor|].
  intros [Hx Hnd]%NoDup_cons [Hs Hall]%StronglySorted_inv.
  constructor; [by apply IH|].
  rewrite Forall_forall in Hall |- *. intros y Hy.
  specialize (Hall y Hy). assert (x <> y) by (by intros ->). lia.
Qed.

(** X4.  [_assign_to_waves] returns one wave for every wave number that
    occurs among the objectives, in strictly increasing order of that
    number; each wave holds the objectives with its number, in the order of
    the list, and no wave is empty. *)
Theorem X4_waves_ascending_in_list_order (objs : list Objective) :
  exists keys : list Z,
    StronglySorted Z.lt keys /\
    (forall k : Z, k ∈ keys <-> exists o : Objective, o ∈ objs /\ get_wave o = k) /\
    assign_to_waves objs = (fun k => in_wave k objs) <$> keys /\
    Forall (fun w => w <> []) (assign_to_waves objs).
Proof.
  exists (merge_sort Z.le ((group_by_wave objs).*1)).
  assert (Hkeys : forall k : Z, k ∈ merge_sort Z.le ((group_by_wave objs).*1) <->
                    exists o : Objective, o ∈ objs /\ get_wave o = k).
  { intros k. by rewrite merge_sort_Permutation, group_keys. }
  split_and!.
  - apply sorted_le_lt.
    + rewrite merge_sort_Permutation. apply group_by_wave_keys_NoDup.
    + apply StronglySorted_merge_sort; apply _.
  - exact Hkeys.
  - apply assign_to_waves_in_wave.
  - rewrite assign_to_waves_in_wave, Forall_fmap, Forall_forall.
    intros k (o & Ho & Hw)%Hkeys. simpl. intros Hnil.
    assert (Hin : o ∈ in_wave k objs) by (by apply elem_of_in_wave).
    rewrite Hnil in Hin. by apply elem_of_nil in Hin.
Qed.

Lemma concat_in_wave (keys : list Z) (objs : list Objective) :
  NoDup keys ->
  concat ((fun k => in_wave k objs) <$> keys)
    ≡ₚ filter (fun o => get_wave o ∈ keys) objs.
Proof.
  induction keys as [|k keys IH]; intros Hnd; simpl.
  - induction objs as [|o objs IHo]; [done|].
    rewrite filter_cons_False; [done|]. by intros ?%elem_of_nil.
  - apply NoDup_cons in Hnd as [Hk Hnd]. rewrite (IH Hnd). clear IH.
    induction objs as [|o objs IHo]; [done|].
    rewrite in_wave_cons, !filter_cons.
    destruct (decide (get_wave o = k)) as [Hw|Hw].
    + rewrite decide_False by (by rewrite Hw).
      rewrite decide_True by (rewrite Hw; left). simpl. by rewrite IHo.
    + destruct (decide (get_wave o ∈ keys)) as [Hin|Hin].
      * rewrite decide_True by (by right).
        rewrite <- Permutation_middle. by rewrite IHo.
      * rewrite decide_False; [done|].
        intros [?|?]%elem_of_cons; done.
Qed.

(** X5.  [_assign_to_waves] neither drops nor duplicates an objective: the
    waves, laid end to end, are a rearrangement of the list it was given. *)
Theorem X5_waves_partition_the_objectives (objs : list Objective) :
  concat (assign_to_waves objs) ≡ₚ objs.
Proof.
  rewrite assign_to_waves_in_wave, concat_in_wave.
  - assert (filter (fun o => get_wave o ∈ merge_sort Z.le ((group_by_wave objs).*1)) objs
            = objs) as ->; [|done].
    assert (H : forall l : list Objective, (forall o, o ∈ l -> o ∈ objs) ->
              filter (fun o => get_wave o ∈ merge_sort Z.le ((group_by_wave objs).*1)) l = l).
    { induction l as [|o l IHl]; intros Hsub; [done|].
      rewrite filter_cons_True.
      - f_equal. apply IHl. intros o' Ho'. apply Hsub. by right.
      - rewrite merge_sort_Permutation. apply group_keys. exists o.
        split; [apply Hsub; left|done]. }
    by apply H.
  - rewrite merge_sort_Permutation. apply group_by_wave_keys_NoDup.
Qed.

(** ** Missing titles *)

Lemma defer_named_untitled (name : string) (objs : list Objective) :
  Exists (fun o => title o = None) objs ->
  defer_named name objs = Raise (KeyError "title").
Proof.
  induction 1 as [o l Ho|o l _ IH]; simpl; unfold item_title.
  - by rewrite Ho.
  - destruct (title o); simpl; [by rewrite IH|done].
Qed.

(** X6.  The validator names an objective without a title ['Unknown'], but
    the resolver reads [obj['title']] of every objective for every recorded
    conflict: as soon as one conflict is recorded and one objective of the
    list has no title (whether it takes part in a conflict or not),
    resolution raises [KeyError('title')], and the planning phase run on such
    objectives ends after its fourth event without emitting a plan. *)
Theorem X6_resolution_needs_titles (cfg : TeamConfig) (analysis : AnalysisReport)
    (objs : list Objective) :
  Exists (fun o => title o = None) objs ->
  valid (validate_scope_exclusivity objs) = false ->
  resolve_scope_conflicts objs (validate_scope_exclusivity objs)
    = Raise (KeyError "title") /\
  exists events : list ProgressEvent,
    plan_objectives cfg analysis objs = (events, Raise (KeyError "title")) /\
    length events = 4%nat /\
    emitted_plan events = None.
Proof.
  intros Hun Hv.
  assert (Hres : resolve_scope_conflicts objs (validate_scope_exclusivity objs)
                 = Raise (KeyError "title")).
  { unfold resolve_scope_conflicts.
    destruct (conflicts (validate_scope_exclusivity objs)) as [|c cs] eqn:Hc.
    - apply valid_iff_no_conflicts in Hc. congruence.
    - simpl. by rewrite defer_named_untitled. }
  split; [exact Hres|].
  unfold plan_objectives. rewrite Hv, Hres. simpl.
  eexists. split; [reflexivity|]. done.
Qed.

(** ** Contracts and titles *)

Lemma contracts_from_cases (obj1 : Objective) (later : list Objective) :
  (Forall (fun o2 => get_wave obj1 < get_wave o2 -> titled obj1 /\ titled o2) later ->
   contracts_from obj1 later = Ok (pure_contracts_from obj1 later)) /\
  (Exists (fun o2 => get_wave obj1 < get_wave o2 /\
                     (title obj1 = None \/ title o2 = None)) later ->
   contracts_from obj1 later = Raise (KeyError "title")).
Proof.
  induction later as [|o2 rest [IHok IHbad]]; simpl.
  - split; [done|]. by intros ?%Exists_nil.
  - split.
    + intros [Ho Hrest]%Forall_cons. rewrite (IHok Hrest).
      unfold pure_contracts_from. simpl. case_decide as Hw; simpl; [|done].
      destruct Ho as [H1 H2]; [lia|]. by rewrite !item_title_titled.
    + intros Hex.
      assert (Hhere : forall r : Res (list Contract),
                r = Raise (KeyError "title") ->
                (here ← (if decide (get_wave o2 > get_wave obj1)
                         then f ← item_title obj1; t ← item_title o2;
                              Ok [mkContract f t (t +:+ " uses interfaces from " +:+ f)]
                         else Ok []);
                 more ← r; Ok (here ++ more)) = Raise (KeyError "title")).
      { intros r ->. case_decide; simpl; [|done].
        unfold item_title. by destruct (title obj1), (title o2). }
      apply Exists_cons in Hex as [(Hw & Hun)|Hex].
      * rewrite decide_True by lia. unfold item_title.
        destruct Hun as [->| ->]; simpl; [done|]. by destruct (title obj1).
      * by apply Hhere, IHbad.
Qed.

Lemma contracts_from_raises (o : Objective) (later : list Objective) :
  contracts_from o later = Ok (pure_contracts_from o later) \/
  contracts_from o later = Raise (KeyError "title").
Proof.
  induction later as [|o2 rest IHr]; simpl; [by left|].
  unfold pure_contracts_from in *. simpl.
  destruct IHr as [-> | ->].
  - case_decide; simpl; [|by left].
    unfold item_title, get_title.
    destruct (title o), (title o2); simpl; by (left + right).
  - case_decide; simpl; [|by right].
    unfold item_title. destruct (title o), (title o2); simpl; by right.
Qed.

(** X7.  [_define_integration_contracts] reads a title only when it records
    a contract.  It succeeds whenever both objectives of every pair it links
    (the first listed before the second and of strictly smaller wave) have a
    title, however many other objectives lack one; and it raises
    [KeyError('title')] as soon as one such pair has an objective without
    title. *)
Theorem X7_contracts_need_titles_of_linked_pairs (objs : list Objective) :
  ((forall (i j : nat) (oi oj : Objective),
      (i < j)%nat -> objs !! i = Some oi -> objs !! j = Some oj ->
      get_wave oi < get_wave oj -> titled oi /\ titled oj) ->
   define_integration_contracts objs = Ok (pure_contracts objs)) /\
  ((exists (i j : nat) (oi oj : Objective),
      (i < j)%nat /\ objs !! i = Some oi /\ objs !! j = Some oj /\
      get_wave oi < get_wave oj /\ (title oi = None \/ title oj = None)) ->
   define_integration_contracts objs = Raise (KeyError "title")).
Proof.
  induction objs as [|o objs [IHok IHbad]]; simpl.
  - split; [done|]. by intros (i & j & ? & ? & _ & ? & _).
  - split.
    + intros H.
      rewrite (proj1 (contracts_from_cases o objs)).
      * simpl. rewrite IHok; [done|].
        intros i j oi oj Hij Hi Hj. apply (H (S i) (S j)); [lia|done|done].
      * apply Forall_forall. intros o2 [j Hj]%list_elem_of_lookup.
        by apply (H 0%nat (S j)); [lia|..].
    + intros (i & j & oi & oj & Hij & Hi & Hj & Hw & Hun).
      destruct i as [|i], j as [|j]; try lia; simpl in *.
      * simplify_eq. rewrite (proj2 (contracts_from_cases oi objs)); [done|].
        apply Exists_exists. exists oj.
        split; [by eapply list_elem_of_lookup_2|done].
      * assert (Hrest : define_integration_contracts objs = Raise (KeyError "title")).
        { apply IHbad. exists i, j, oi, oj. split_and!; try done. lia. }
        rewrite Hrest.
        pose proof (contracts_from_raises o objs) as Hfrom.
        by destruct Hfrom as [-> | ->].
Qed.

(** ** The duration estimate *)

Lemma fold_max_spec (l : list Z) (x : Z) :
  fold_left Z.max l x ∈ x :: l /\
  Forall (fun y => y <= fold_left Z.max l x) (x :: l).
Proof.
  revert x. induction l as [|y l IH]; intros x; simpl.
  - split; [left|]. repeat constructor. lia.
  - destruct (IH (Z.max x y)) as [Hin Hall].
    apply Forall_cons in Hall as [Hm Hall]. split.
    + apply elem_of_cons in Hin as [Heq|Hin].
      * rewrite Heq. destruct (Z.max_spec x y) as [[_ ->]|[_ ->]];
          [right; left|left].
      * right. by right.
    + repeat constructor; [lia|lia|done].
Qed.

(** X8.  [_estimate_duration] raises [ValueError] on an empty list of
    objectives; on a non-empty one it answers ten minutes per wave for the
    highest wave number any objective carries (1 for an objective without
    the key), whatever the number of waves actually present. *)
Theorem X8_estimate_uses_highest_wave :
  estimate_duration [] = Raise (ValueError "max() arg is an empty sequence") /\
  forall (o : Objective) (objs : list Objective),
    exists m : Z,
      estimate_duration (o :: objs)
        = Ok ("~" +:+ pretty (m * 10) +:+ " minutes (" +:+ pretty m +:+ " waves)") /\
      m ∈ get_wave <$> o :: objs /\
      forall o' : Objective, o' ∈ o :: objs -> get_wave o' <= m.
Proof.
  split; [done|]. intros o objs.
  exists (fold_left Z.max (get_wave <$> objs) (get_wave o)).
  destruct (fold_max_spec (get_wave <$> objs) (get_wave o)) as [Hin Hall].
  split_and!; [done|done|].
  intros o' Ho'. rewrite Forall_forall in Hall. apply Hall.
  change (get_wave o :: (get_wave <$> objs)) with (get_wave <$> o :: objs).
  apply list_elem_of_fmap. by exists o'.
Qed.

(** ** The planning phase as a whole *)

(** X9.  Whatever the team configuration and the analysis report, the
    planning phase yields the same five events in the same order and a plan
    of exactly one wave holding the objectives of the decomposition (two for
    a RESET request, one otherwise), without any integration contract, with
    a valid scope validation free of conflicts, and with the estimate
    ["~10 minutes (1 waves)"]. *)
Theorem X9_planning_always_one_wave (cfg : TeamConfig) (analysis : AnalysisReport) :
  exists plan : CoordinationPlan,
    run_planning_phase cfg analysis =
      ([ phase_start "planning" (mkStatus PLANNING 5 "Starting coordination planning...");
         objectives_created (length (decompose_into_objectives cfg analysis))
           (mkStatus PLANNING 20 "Decomposing into objectives...");
         waves_created 1 (mkStatus PLANNING 40 "Assigning objectives to waves...");
         scope_validated true [] (mkStatus VALIDATION 60 "Validating scope exclusivity...");
         phase_complete "planning" plan (mkStatus IDLE 100 "Planning complete") ],
       Ok plan) /\
    waves plan = [decompose_into_objectives cfg analysis] /\
    length (decompose_into_objectives cfg analysis)
      = (match task_type analysis with RESET => 2%nat | _ => 1%nat end) /\
    integration_contracts plan = [] /\
    scope_validation plan
      = mkValidation true [] 1 (length (decompose_into_objectives cfg analysis)) /\
    estimated_duration plan = "~10 minutes (1 waves)" /\
    plan_type plan = task_type analysis.
Proof.
  destruct analysis as [rid req t]. destruct t.
  all: eexists; split; [vm_compute; reflexivity|].
  all: by split_and!.
Qed.

(** ** Listing the team *)

(** X10.  [list_workers] looks only at the entries whose ['enabled'] flag
    is present and true.  A missing ['workers'] key gives the empty listing.
    When every enabled entry has the keys ['id'], ['agent_type'],
    ['capabilities'] and ['max_concurrent_tasks'], the call succeeds whatever
    the disabled entries look like, and the listing has one row per enabled
    entry, in the order of the configuration, each marked enabled.  When
    some enabled entry lacks one of these keys the call raises [KeyError]
    for one of them. *)
Theorem X10_list_workers_reads_enabled_entries_only :
  list_workers None = Ok [] /\
  (forall workers : list WorkerEntry,
     Forall (fun w => is_enabled w = true -> complete_entry w) workers ->
     exists rows : list WorkerRow,
       list_workers (Some workers) = Ok rows /\
       Some <$> (row_id <$> rows)
         = w_id <$> filter (fun w => is_enabled w = true) workers /\
       Forall (fun r => row_enabled r = true) rows) /\
  (forall workers : list WorkerEntry,
     Exists (fun w => is_enabled w = true /\ ~ complete_entry w) workers ->
     exists k : string,
       list_workers (Some workers) = Raise (KeyError k) /\
       k ∈ ["id"; "agent_type"; "capabilities"; "max_concurrent_tasks"]).
Proof.
  unfold list_workers. simpl. split_and!; [done| |].
  - induction 1 as [|w workers Hw _ (rows & Hrows & Hids & Hen)]; simpl.
    + by exists [].
    + rewrite filter_cons. destruct (is_enabled w) eqn:He.
      * destruct (Hw eq_refl) as ([i Hi] & [t Ht] & [c Hc] & [m Hm]).
        unfold is_enabled in He. destruct (w_enabled w) as [e|] eqn:Hwe; [|done].
        simpl in He. subst e. rewrite Hi, Ht, Hc, Hm, Hrows. simpl.
        eexists. split; [reflexivity|]. simpl.
        split; [rewrite Hi; f_equal; exact Hids|by constructor].
      * by exists rows.
  - induction workers as [|w workers IH]; [by intros ?%Exists_nil|].
    intros Hex. simpl.
    destruct (is_enabled w) eqn:He.
    + destruct (w_id w) as [i|] eqn:Hi; simpl; [|eexists; split; [done|set_solver]].
      destruct (w_agent_type w) as [t|] eqn:Ht; simpl; [|eexists; split; [done|set_solver]].
      destruct (w_capabilities w) as [c|] eqn:Hc; simpl; [|eexists; split; [done|set_solver]].
      destruct (w_max_concurrent_tasks w) as [m|] eqn:Hm; simpl;
        [|eexists; split; [done|set_solver]].
      unfold is_enabled in He. destruct (w_enabled w) as [e|] eqn:Hwe; [|done].
      simpl.
      apply Exists_cons in Hex as [[_ Hn]|Hex].
      * exfalso. apply Hn. unfold complete_entry. rewrite Hi, Ht, Hc, Hm. by split_and!.
      * destruct (IH Hex) as (k & -> & Hk). simpl. by exists k.
    + apply Exists_cons in Hex as [[He' _]|Hex]; [congruence|]. by apply IH.
Qed.

(** ** Instances *)

Lemma X6_resolution_needs_titles_witness :
  resolve_scope_conflicts [obj_core_a; obj_untitled]
    (validate_scope_exclusivity [obj_core_a; obj_untitled])
    = Raise (KeyError "title").
Proof.
  refine (proj1 (X6_resolution_needs_titles (mkTeamConfig None)
                   (mkAnalysisReport "r1" "extend" FEATURE)
                   [obj_core_a; obj_untitled] _ _)).
  - right. left. reflexivity.
  - by vm_compute.
Defined.

Lemma X7_contracts_need_titles_of_linked_pairs_witness :
  define_integration_contracts [obj_untitled; obj_core_a] = Ok [] /\
  define_integration_contracts [obj_untitled; obj_core_late] = Raise (KeyError "title").
Proof.
  split.
  - refine (proj1 (X7_contracts_need_titles_of_linked_pairs [obj_untitled; obj_core_a]) _).
    intros i j oi oj Hij Hi Hj Hw.
    destruct i as [|[|i]], j as [|[|j]]; simplify_eq/=; vm_compute in Hw; done.
  - refine (proj2 (X7_contracts_need_titles_of_linked_pairs [obj_untitled; obj_core_late]) _).
    exists 0%nat, 1%nat, obj_untitled, obj_core_late.
    split_and!; [lia|reflexivity|reflexivity|by vm_compute|by left].
Defined.

Lemma X10_list_workers_reads_enabled_entries_only_witness :
  exists rows : list WorkerRow,
    list_workers (Some [worker_draft; worker_claude]) = Ok rows /\
    Some <$> (row_id <$> rows) = [Some "claude-main"] /\
    Forall (fun r => row_enabled r = true) rows.
Proof.
  refine (proj1 (proj2 X10_list_workers_reads_enabled_entries_only)
            [worker_draft; worker_claude] _).
  repeat constructor; vm_compute; try done.
  all: by eexists.
Defined.

End SchedulerFacts.

(** * Theorems about the reference [json] implementation *)

Module RefJsonFacts.
Import Json RefJson.

(** ** Strings *)

Lemma append_nil_l (b : string) : "" +:+ b = b.
Proof. reflexivity. Qed.

Lemma append_cons (x : ascii) (a b : string) : String x a +:+ b = String x (a +:+ b).
Proof. reflexivity. Qed.

Ltac str_simpl := rewrite ?append_cons, ?append_nil_l in *.

Lemma append_assoc (a b c : string) : (a +:+ b) +:+ c = a +:+ (b +:+ c).
Proof. induction a as [|x a IH]; str_simpl; [done|by f_equal]. Qed.

Lemma append_nil_r (a : string) : a +:+ "" = a.
Proof. induction a as [|x a IH]; str_simpl; [done|by f_equal]. Qed.

Lemma length_append (a b : string) :
  String.length (a +:+ b) = (String.length a + String.length b)%nat.
Proof. induction a as [|x a IH]; str_simpl; simpl; [done|by f_equal]. Qed.

(** Reading back one escaped character. *)
Lemma parse_escape_char (c : ascii) (s : string) :
  parse_string_body (escape_char c +:+ s)
    = match parse_string_body s with
      | Some (t, rest) => Some (String c t, rest)
      | None => None
      end.
Proof.
  destruct c as [[] [] [] [] [] [] [] []]; reflexivity.
Qed.

Lemma parse_escape (s rest : string) :
  parse_string_body (escape s +:+ String dquote rest) = Some (s, rest).
Proof.
  induction s as [|c s IH]; simpl.
  - reflexivity.
  - by rewrite append_assoc, parse_escape_char, IH.
Qed.

Lemma parse_dump_str (s rest : string) :
  exists body : string,
    dump_str s +:+ rest = String dquote body /\
    parse_string_body body = Some (s, rest).
Proof.
  unfold dump_str. eexists. split; [reflexivity|].
  rewrite append_assoc. apply parse_escape.
Qed.

(** ** Integers *)

Lemma is_digit_pretty_char (d : N) :
  (d < 10)%N ->
  is_digit (pretty_N_char d) = true /\
  (N_of_ascii (pretty_N_char d) - 48 = d)%N.
Proof.
  intros Hd.
  assert (d = 0 \/ d = 1 \/ d = 2 \/ d = 3 \/ d = 4 \/ d = 5 \/ d = 6 \/ d = 7
          \/ d = 8 \/ d = 9)%N as Hcases by lia.
  by destruct Hcases as [->|[->|[->|[->|[->|[->|[->|[->|[->| ->]]]]]]]]].
Qed.

Lemma parse_digits_pretty_go (x : N) (s : string) :
  parse_digits (pretty_N_go x s) 0 = parse_digits s x.
Proof.
  revert s. induction (N.lt_wf_0 x) as [x _ IH]; intros s.
  destruct (decide (x = 0)%N) as [->|Hx]; [by rewrite pretty_N_go_0|].
  rewrite pretty_N_go_step by lia.
  rewrite IH by (apply N.div_lt; lia).
  simpl.
  destruct (is_digit_pretty_char (x `mod` 10)) as [-> ->];
    [by apply N.mod_lt|].
  f_equal. pose proof (N.div_mod x 10). lia.
Qed.

Lemma parse_digits_stop (rest : string) (n : N) :
  ends_number rest -> parse_digits rest n = (n, rest).
Proof.
  destruct rest as [|c r]; simpl; [done|]. by intros [_ ->].
Qed.

Lemma pretty_go_append (x : N) (s rest : string) :
  pretty_N_go x s +:+ rest = pretty_N_go x (s +:+ rest).
Proof.
  revert s. induction (N.lt_wf_0 x) as [x _ IH]; intros s.
  destruct (decide (x = 0)%N) as [->|Hx]; [by rewrite !pretty_N_go_0|].
  rewrite (pretty_N_go_step x s), (pretty_N_go_step x (s +:+ rest)) by lia.
  rewrite IH by (apply N.div_lt; lia). reflexivity.
Qed.

(** A positive number prints with a leading digit other than zero. *)
Lemma pretty_go_head (x : N) (s : string) :
  (0 < x)%N ->
  exists (c : ascii) (r : string),
    pretty_N_go x s = String c r /\ is_digit c = true /\ c <> "0"%char.
Proof.
  revert s. induction (N.lt_wf_0 x) as [x _ IH]; intros s Hx.
  rewrite pretty_N_go_step by done.
  destruct (decide (x `div` 10 = 0)%N) as [Hz|Hnz].
  - rewrite Hz, pretty_N_go_0.
    assert (x `mod` 10 = x)%N as Hm by (apply N.mod_small; apply N.div_small_iff in Hz; lia).
    rewrite Hm.
    assert (x = 1 \/ x = 2 \/ x = 3 \/ x = 4 \/ x = 5 \/ x = 6 \/ x = 7
            \/ x = 8 \/ x = 9)%N as Hcases.
    { apply N.div_small_iff in Hz; lia. }
    eexists _, _. split; [reflexivity|].
    by destruct Hcases as [->|[->|[->|[->|[->|[->|[->|[->| ->]]]]]]]].
  - apply IH; [apply N.div_lt; lia|by apply N.neq_0_lt_0].
Qed.

Lemma digit_facts (c : ascii) :
  is_digit c = true ->
  Ascii.eqb c "-" = false /\ is_ws c = false /\ Ascii.eqb c "[" = false /\
  Ascii.eqb c "{" = false /\ Ascii.eqb c dquote = false /\
  Ascii.eqb "n" c = false /\ Ascii.eqb "t" c = false /\ Ascii.eqb "f" c = false /\
  Ascii.eqb c "]" = false /\ Ascii.eqb c "}" = false.
Proof. destruct c as [[] [] [] [] [] [] [] []]; by vm_compute. Qed.

Lemma parse_number_pretty (n : Z) (rest : string) :
  ends_number rest ->
  parse_number (pretty n +:+ rest) = Some (JInt n, rest).
Proof.
  intros Hrest.
  assert (Hpos : forall p : positive,
    exists (c : ascii) (r : string),
      pretty p +:+ rest = String c r /\ is_digit c = true /\
      Ascii.eqb c "0" = false /\
      parse_digits (String c r) 0 = (N.pos p, rest)).
  { intros p. unfold pretty, pretty_positive, pretty, pretty_N.
    rewrite decide_False by done. rewrite pretty_go_append. str_simpl.
    destruct (pretty_go_head (N.pos p) rest) as (c & r & Heq & Hd & Hne); [lia|].
    assert (Hp : parse_digits (String c r) 0 = (N.pos p, rest)).
    { rewrite <- Heq, parse_digits_pretty_go. by apply parse_digits_stop. }
    exists c, r. split; [done|split; [done|split; [|exact Hp]]].
    by apply Ascii.eqb_neq. }
  destruct Hrest as [Hfrac _].
  destruct n as [|p|p].
  - change (pretty 0 +:+ rest) with (String "0" rest).
    unfold parse_number. cbn. by rewrite Hfrac.
  - destruct (Hpos p) as (c & r & Heq & Hd & Hne & Hp).
    change (pretty (Z.pos p) +:+ rest) with (pretty p +:+ rest).
    rewrite Heq. unfold parse_number.
    destruct (digit_facts c Hd) as (-> & _).
    rewrite Hd, Hne, Hp, Hfrac. reflexivity.
  - destruct (Hpos p) as (c & r & Heq & Hd & Hne & Hp).
    change (pretty (Z.neg p) +:+ rest) with (String "-" (pretty p +:+ rest)).
    rewrite Heq. unfold parse_number.
    change (Ascii.eqb "-" "-") with true. cbv iota beta.
    rewrite Hd, Hne, Hp, Hfrac. reflexivity.
Qed.

(** ** Structure *)

Lemma json_ind' (P : json -> Prop) :
  P JNull -> (forall b, P (JBool b)) -> (forall n, P (JInt n)) ->
  (forall s, P (JStr s)) ->
  (forall xs, Forall P xs -> P (JList xs)) ->
  (forall kvs, Forall (fun kv => P kv.2) kvs -> P (JDict kvs)) ->
  forall v, P v.
Proof.
  intros Hnull Hbool Hint Hstr Hlist Hdict.
  fix IH 1. intros [| b | n | s | xs | kvs].
  - exact Hnull.
  - apply Hbool.
  - apply Hint.
  - apply Hstr.
  - apply Hlist. induction xs as [|x xs IHxs]; constructor; [apply IH|exact IHxs].
  - apply Hdict. induction kvs as [|[k x] kvs IHkvs]; constructor;
      [apply IH|exact IHkvs].
Qed.

Lemma dumps_list (xs : list json) :
  dumps (JList xs) = "[" +:+ dump_items xs +:+ "]".
Proof. reflexivity. Qed.

Lemma dumps_dict (kvs : list (string * json)) :
  dumps (JDict kvs) = "{" +:+ dump_members kvs +:+ "}".
Proof. reflexivity. Qed.

Lemma need_list (xs : list json) : need (JList xs) = S (need_elements xs).
Proof. reflexivity. Qed.

Lemma need_dict (kvs : list (string * json)) : need (JDict kvs) = S (need_members kvs).
Proof. reflexivity. Qed.

Lemma keys_unique_list (xs : list json) :
  keys_unique (JList xs) <-> Forall keys_unique xs.
Proof.
  induction xs as [|x xs IH]; simpl.
  - split; [constructor|done].
  - rewrite Forall_cons. simpl in IH. by rewrite IH.
Qed.

Lemma keys_unique_dict (kvs : list (string * json)) :
  keys_unique (JDict kvs) <->
  NoDup kvs.*1 /\ Forall (fun kv => keys_unique kv.2) kvs.
Proof.
  simpl. apply and_iff_compat_l.
  induction kvs as [|[k x] kvs IH]; simpl.
  - split; [constructor|done].
  - rewrite Forall_cons. simpl. by rewrite IH.
Qed.

(** ** First characters *)

Lemma value_start_facts (c : ascii) :
  value_start c = true ->
  is_ws c = false /\ Ascii.eqb c "]" = false /\ Ascii.eqb c "}" = false /\
  Ascii.eqb c "," = false.
Proof. destruct c as [[] [] [] [] [] [] [] []]; by vm_compute. Qed.

Lemma number_start_facts (c : ascii) :
  number_start c = true ->
  value_start c = true /\ Ascii.eqb c "[" = false /\ Ascii.eqb c "{" = false /\
  Ascii.eqb c dquote = false /\ Ascii.eqb "n" c = false /\
  Ascii.eqb "t" c = false /\ Ascii.eqb "f" c = false.
Proof. destruct c as [[] [] [] [] [] [] [] []]; by vm_compute. Qed.

Lemma pretty_head (n : Z) :
  exists (c : ascii) (r : string), pretty n = String c r /\ number_start c = true.
Proof.
  destruct n as [|p|p]; try (by eexists _, _).
  change (pretty (Z.pos p)) with (pretty p).
  unfold pretty, pretty_positive, pretty, pretty_N. rewrite decide_False by done.
  destruct (pretty_go_head (N.pos p) "") as (c & r & -> & Hd & _); [lia|].
  exists c, r. split; [done|]. unfold number_start. by rewrite Hd.
Qed.

Lemma dumps_head (v : json) :
  exists (c : ascii) (r : string), dumps v = String c r /\ value_start c = true.
Proof.
  destruct v as [|[]|n|s|xs|kvs]; try (by eexists _, _).
  destruct (pretty_head n) as (c & r & Heq & Hc).
  exists c, r. split; [exact Heq|]. by apply number_start_facts.
Qed.

Lemma skip_ws_head (c : ascii) (r : string) :
  is_ws c = false -> skip_ws (String c r) = String c r.
Proof. intros Hc. simpl. by rewrite Hc. Qed.

Lemma skip_ws_dumps (v : json) (rest : string) :
  skip_ws (dumps v +:+ rest) = dumps v +:+ rest.
Proof.
  destruct (dumps_head v) as (c & r & -> & Hc). str_simpl.
  apply skip_ws_head. by apply value_start_facts.
Qed.

Lemma next_is_miss (c0 c : ascii) (r : string) :
  is_ws c = false -> Ascii.eqb c c0 = false -> next_is c0 (String c r) = None.
Proof. intros Hw Hc. unfold next_is. rewrite skip_ws_head by done. by rewrite Hc. Qed.

Lemma next_is_hit (c : ascii) (r : string) :
  is_ws c = false -> next_is c (String c r) = Some r.
Proof.
  intros Hw. unfold next_is. rewrite skip_ws_head by done.
  by rewrite Ascii.eqb_refl.
Qed.

(** ** One step of each parser *)

Lemma parse_value_literal (fuel : nat) (s : string) (c : ascii) (r : string) :
  skip_ws s = String c r ->
  Ascii.eqb c "[" = false -> Ascii.eqb c "{" = false -> Ascii.eqb c dquote = false ->
  parse_value (S fuel) s = parse_literal (String c r).
Proof. intros Hs H1 H2 H3. simpl. by rewrite Hs, H1, H2, H3. Qed.

Lemma parse_value_string (fuel : nat) (s r : string) :
  skip_ws s = String dquote r ->
  parse_value (S fuel) s
    = match parse_string_body r with
      | Some (t, rest) => Some (JStr t, rest)
      | None => None
      end.
Proof. intros Hs. simpl. by rewrite Hs. Qed.

Lemma parse_value_list (fuel : nat) (s r : string) :
  skip_ws s = String "[" r ->
  parse_value (S fuel) s
    = match next_is "]" r with
      | Some r' => Some (JList [], r')
      | None =>
          match parse_elements fuel r with
          | Some (xs, rest) => Some (JList xs, rest)
          | None => None
          end
      end.
Proof. intros Hs. simpl. by rewrite Hs. Qed.

Lemma parse_value_dict (fuel : nat) (s r : string) :
  skip_ws s = String "{" r ->
  parse_value (S fuel) s
    = match next_is "}" r with
      | Some r' => Some (JDict [], r')
      | None =>
          match parse_members fuel r with
          | Some (kvs, rest) =>
              Some (JDict (fold_left (fun d kv => dict_set kv.1 kv.2 d) kvs []), rest)
          | None => None
          end
      end.
Proof. intros Hs. simpl. by rewrite Hs. Qed.

Lemma strip_prefix_miss (a : ascii) (p : string) (c : ascii) (r : string) :
  Ascii.eqb a c = false -> strip_prefix (String a p) (String c r) = None.
Proof. intros Hc. cbn [strip_prefix]. by rewrite Hc. Qed.

Lemma parse_literal_number (c : ascii) (r : string) :
  number_start c = true ->
  parse_literal (String c r) = parse_number (String c r).
Proof.
  intros Hc. destruct (number_start_facts c Hc) as (_ & _ & _ & _ & Hn & Ht & Hf).
  unfold parse_literal.
  rewrite (strip_prefix_miss "n" "ull" c r Hn).
  rewrite (strip_prefix_miss "t" "rue" c r Ht).
  by rewrite (strip_prefix_miss "f" "alse" c r Hf).
Qed.

(** ** Values *)

Lemma reads_back_atoms :
  reads_back JNull /\ (forall b, reads_back (JBool b)) /\
  (forall n, reads_back (JInt n)) /\ (forall t, reads_back (JStr t)).
Proof.
  split_and!.
  - intros _ [|fuel] s rest Hf Hs Hr; [simpl in Hf; lia|].
    by rewrite (parse_value_literal fuel s "n" ("ull" +:+ rest)).
  - intros b _ [|fuel] s rest Hf Hs Hr; [simpl in Hf; lia|]. destruct b.
    + by rewrite (parse_value_literal fuel s "t" ("rue" +:+ rest)).
    + by rewrite (parse_value_literal fuel s "f" ("alse" +:+ rest)).
  - intros n _ [|fuel] s rest Hf Hs Hr; [simpl in Hf; lia|].
    change (dumps (JInt n)) with (pretty n) in Hs.
    destruct (pretty_head n) as (c & r & Heq & Hc).
    pose proof (parse_number_pretty n rest Hr) as Hnum.
    rewrite Heq in Hs, Hnum. str_simpl.
    destruct (number_start_facts c Hc) as (_ & H1 & H2 & H3 & _).
    rewrite (parse_value_literal fuel s c (r +:+ rest)) by done.
    by rewrite parse_literal_number.
  - intros t _ [|fuel] s rest Hf Hs Hr; [simpl in Hf; lia|].
    change (dumps (JStr t)) with (dump_str t) in Hs.
    destruct (parse_dump_str t rest) as (body & Heq & Hbody).
    rewrite Heq in Hs. rewrite (parse_value_string fuel s body Hs).
    by rewrite Hbody.
Qed.

(** ** Lists and dicts *)

Lemma dump_items_head (x : json) (xs : list json) :
  exists (c : ascii) (r : string),
    dump_items (x :: xs) = String c r /\ value_start c = true.
Proof.
  destruct (dumps_head x) as (c & r & Heq & Hc).
  exists c. eexists. split; [|exact Hc].
  cbn [dump_items]. rewrite Heq. by str_simpl.
Qed.

Lemma skip_ws_space (s : string) : skip_ws (String " " s) = skip_ws s.
Proof. reflexivity. Qed.

Lemma reads_back_elements (x : json) (xs : list json) :
  Forall reads_back (x :: xs) -> Forall keys_unique (x :: xs) ->
  forall (fuel : nat) (s rest : string),
    (need_elements (x :: xs) <= fuel)%nat ->
    skip_ws s = dump_items (x :: xs) +:+ String "]" rest ->
    parse_elements fuel s = Some (x :: xs, rest).
Proof.
  revert x. induction xs as [|y ys IH]; intros x Hrb Hku fuel s rest Hf Hs.
  - apply Forall_cons in Hrb as [Hx _]. apply Forall_cons in Hku as [Hkx _].
    destruct fuel as [|fuel]; [simpl in Hf; lia|].
    cbn [need_elements] in Hf. cbn [dump_items] in Hs. rewrite append_nil_r in Hs.
    cbn [parse_elements].
    rewrite (Hx Hkx fuel s (String "]" rest)); [|lia|exact Hs|by split].
    by rewrite next_is_hit.
  - apply Forall_cons in Hrb as [Hx Hrb]. apply Forall_cons in Hku as [Hkx Hku].
    destruct fuel as [|fuel]; [simpl in Hf; lia|].
    change (need_elements (x :: y :: ys))
      with (S (Nat.max (need x) (need_elements (y :: ys)))) in Hf.
    change (dump_items (x :: y :: ys))
      with (dumps x +:+ ", " +:+ dump_items (y :: ys)) in Hs.
    rewrite !append_assoc in Hs. str_simpl.
    cbn [parse_elements].
    rewrite (Hx Hkx fuel s _ ltac:(lia) Hs ltac:(by split)).
    rewrite next_is_miss by done. rewrite next_is_hit by done.
    rewrite (IH y Hrb Hku fuel _ rest); [done|lia|].
    rewrite skip_ws_space.
    destruct (dump_items_head y ys) as (c & r & -> & Hc). str_simpl.
    apply skip_ws_head. by apply value_start_facts.
Qed.

Lemma dump_members_head (k : string) (x : json) (kvs : list (string * json)) :
  exists r : string, dump_members ((k, x) :: kvs) = String dquote r.
Proof. eexists. cbn [dump_members]. unfold dump_str. by str_simpl. Qed.

Lemma reads_back_members (k : string) (x : json) (kvs : list (string * json)) :
  Forall (fun kv => reads_back kv.2) ((k, x) :: kvs) ->
  Forall (fun kv => keys_unique kv.2) ((k, x) :: kvs) ->
  forall (fuel : nat) (s rest : string),
    (need_members ((k, x) :: kvs) <= fuel)%nat ->
    skip_ws s = dump_members ((k, x) :: kvs) +:+ String "}" rest ->
    parse_members fuel s = Some ((k, x) :: kvs, rest).
Proof.
  revert k x. induction kvs as [|[k' y] kvs IH]; intros k x Hrb Hku fuel s rest Hf Hs.
  - apply Forall_cons in Hrb as [Hx _]. apply Forall_cons in Hku as [Hkx _].
    simpl in Hx, Hkx.
    destruct fuel as [|fuel]; [simpl in Hf; lia|].
    cbn [need_members] in Hf. cbn [dump_members] in Hs.
    rewrite append_nil_r, !append_assoc in Hs.
    destruct (parse_dump_str k (": " +:+ dumps x +:+ String "}" rest))
      as (body & Hbody & Hparse).
    rewrite Hbody in Hs.
    cbn [parse_members]. unfold next_is at 1. rewrite Hs, Ascii.eqb_refl, Hparse.
    str_simpl. rewrite next_is_hit by done.
    rewrite (Hx Hkx fuel _ (String "}" rest)); [|lia| |by split].
    + by rewrite next_is_hit.
    + rewrite skip_ws_space. apply skip_ws_dumps.
  - apply Forall_cons in Hrb as [Hx Hrb]. apply Forall_cons in Hku as [Hkx Hku].
    simpl in Hx, Hkx.
    destruct fuel as [|fuel]; [simpl in Hf; lia|].
    change (need_members ((k, x) :: (k', y) :: kvs))
      with (S (Nat.max (need x) (need_members ((k', y) :: kvs)))) in Hf.
    change (dump_members ((k, x) :: (k', y) :: kvs))
      with (dump_str k +:+ ": " +:+ dumps x +:+ ", " +:+
            dump_members ((k', y) :: kvs)) in Hs.
    rewrite !append_assoc in Hs.
    destruct (parse_dump_str k
                (": " +:+ dumps x +:+ ", " +:+
                 dump_members ((k', y) :: kvs) +:+ String "}" rest))
      as (body & Hbody & Hparse).
    rewrite Hbody in Hs.
    cbn [parse_members]. unfold next_is at 1. rewrite Hs, Ascii.eqb_refl, Hparse.
    str_simpl. rewrite next_is_hit by done.
    rewrite (Hx Hkx fuel _
               (String "," (String " "
                  (dump_members ((k', y) :: kvs) +:+ String "}" rest))));
      [|lia| |by split].
    + rewrite next_is_miss by done. rewrite next_is_hit by done.
      rewrite (IH k' y Hrb Hku fuel _ rest); [done|lia|].
      rewrite skip_ws_space.
      destruct (dump_members_head k' y kvs) as (r & ->). by str_simpl.
    + rewrite skip_ws_space. apply skip_ws_dumps.
Qed.

Lemma dict_set_fresh (k : string) (v : json) (kvs : list (string * json)) :
  k ∉ kvs.*1 -> dict_set k v kvs = kvs ++ [(k, v)].
Proof.
  induction kvs as [|[k' v'] kvs IH]; intros Hk; [done|].
  cbn [dict_set]. apply not_elem_of_cons in Hk as [Hne Hk].
  rewrite decide_False by (simpl in Hne; congruence).
  by rewrite IH.
Qed.

Lemma dict_rebuild (kvs acc : list (string * json)) :
  NoDup (acc ++ kvs).*1 ->
  fold_left (fun d kv => dict_set kv.1 kv.2 d) kvs acc = acc ++ kvs.
Proof.
  revert acc. induction kvs as [|[k v] kvs IH]; intros acc Hnd.
  - by rewrite app_nil_r.
  - cbn [fold_left]. simpl fst. simpl snd.
    assert (Hk : k ∉ acc.*1).
    { rewrite fmap_app in Hnd. apply NoDup_app in Hnd as (_ & Hdis & _).
      intros Hin. apply (Hdis k Hin). simpl. left. }
    rewrite dict_set_fresh by done.
    rewrite IH; rewrite <- app_assoc; done.
Qed.

(** The parser reads every printed value back. *)
Lemma reads_back_all (v : json) : reads_back v.
Proof.
  induction v as [|b|n|t|xs IH|kvs IH] using json_ind'.
  - apply reads_back_atoms.
  - apply reads_back_atoms.
  - apply reads_back_atoms.
  - apply reads_back_atoms.
  - intros Hku fuel s rest Hf Hs Hr.
    apply keys_unique_list in Hku. rewrite need_list in Hf.
    destruct fuel as [|fuel]; [lia|].
    rewrite dumps_list in Hs. rewrite !append_assoc in Hs. str_simpl.
    rewrite (parse_value_list fuel s _ Hs).
    destruct xs as [|x xs].
    + cbn [dump_items]. str_simpl. by rewrite next_is_hit.
    + destruct (dump_items_head x xs) as (c & r & Heq & Hc).
      destruct (value_start_facts c Hc) as (Hw & Hb & _).
      rewrite Heq at 1. str_simpl. rewrite next_is_miss by done.
      rewrite (reads_back_elements x xs IH Hku fuel _ rest); [done|lia|].
      rewrite Heq. str_simpl. by apply skip_ws_head.
  - intros Hku fuel s rest Hf Hs Hr.
    apply keys_unique_dict in Hku as [Hnd Hku]. rewrite need_dict in Hf.
    destruct fuel as [|fuel]; [lia|].
    rewrite dumps_dict in Hs. rewrite !append_assoc in Hs. str_simpl.
    rewrite (parse_value_dict fuel s _ Hs).
    destruct kvs as [|[k x] kvs].
    + cbn [dump_members]. str_simpl. by rewrite next_is_hit.
    + destruct (dump_members_head k x kvs) as (r & Heq).
      rewrite Heq at 1. str_simpl. rewrite next_is_miss by done.
      rewrite (reads_back_members k x kvs IH Hku fuel _ rest); [|lia|].
      * by rewrite (dict_rebuild _ []).
      * rewrite Heq. by str_simpl.
Qed.

(** ** Fuel *)

Lemma need_le_length (v : json) : (need v <= String.length (dumps v))%nat.
Proof.
  induction v as [|b|n|t|xs IH|kvs IH] using json_ind'.
  - simpl. lia.
  - destruct b; simpl; lia.
  - destruct (dumps_head (JInt n)) as (c & r & -> & _). simpl. lia.
  - simpl. lia.
  - rewrite need_list, dumps_list. str_simpl. cbn [String.length].
    rewrite length_append. cbn [String.length].
    enough (need_elements xs <= String.length (dump_items xs) + 1)%nat by lia.
    induction IH as [|x xs Hx _ IHxs]; [simpl; lia|].
    destruct xs as [|y ys].
    + cbn [need_elements dump_items]. rewrite append_nil_r. lia.
    + change (need_elements (x :: y :: ys))
        with (S (Nat.max (need x) (need_elements (y :: ys)))).
      change (dump_items (x :: y :: ys))
        with (dumps x +:+ ", " +:+ dump_items (y :: ys)).
      rewrite !length_append. cbn [String.length]. lia.
  - rewrite need_dict, dumps_dict. str_simpl. cbn [String.length].
    rewrite length_append. cbn [String.length].
    enough (need_members kvs <= String.length (dump_members kvs) + 1)%nat by lia.
    induction IH as [|[k x] kvs Hx _ IHkvs]; [simpl; lia|]. simpl in Hx.
    destruct kvs as [|[k' y] kvs].
    + cbn [need_members dump_members]. rewrite append_nil_r.
      rewrite !length_append. lia.
    + change (need_members ((k, x) :: (k', y) :: kvs))
        with (S (Nat.max (need x) (need_members ((k', y) :: kvs)))).
      change (dump_members ((k, x) :: (k', y) :: kvs))
        with (dump_str k +:+ ": " +:+ dumps x +:+ ", " +:+
              dump_members ((k', y) :: kvs)).
      rewrite !length_append. cbn [String.length]. lia.
Qed.

(** ** The round trip *)

(** Reading a printed value gives the value back, for every value whose
    dicts have unique keys. *)
Lemma loads_dumps (v : json) : keys_unique v -> loads (dumps v) = Some v.
Proof.
  intros Hku. unfold loads.
  rewrite (reads_back_all v Hku _ (dumps v) "").
  - reflexivity.
  - pose proof (need_le_length v). lia.
  - pose proof (skip_ws_dumps v "") as Hskip.
    by rewrite append_nil_r in Hskip |- *.
  - by split.
Qed.

(** Text after the value other than white space is refused. *)
Lemma loads_trailing (v : json) (c : ascii) (rest : string) :
  keys_unique v -> ends_number (String c rest) -> is_ws c = false ->
  loads (dumps v +:+ String c rest) = None.
Proof.
  intros Hku Hend Hc. unfold loads.
  rewrite (reads_back_all v Hku _ _ (String c rest)).
  - by rewrite skip_ws_head.
  - pose proof (need_le_length v). rewrite length_append. lia.
  - apply skip_ws_dumps.
  - exact Hend.
Qed.

End RefJsonFacts.

(** * Theorems about the helpers of the analytic phase *)

Module AnalyticFacts.
Import Scheduler RefJsonFacts.

Lemma lower_app (a b : string) : lower (a +:+ b) = lower a +:+ lower b.
Proof. induction a as [|c a IH]; str_simpl; simpl; str_simpl; [done|by f_equal]. Qed.

Lemma prefix_app (w b : string) : String.prefix w (w +:+ b) = true.
Proof.
  induction w as [|c w IH]; str_simpl; [by destruct b|]. simpl.
  by destruct (Ascii.ascii_dec c c).
Qed.

Lemma contains_unfold (w h : string) :
  contains w h
    = String.prefix w h ||
      match h with String _ r => contains w r | EmptyString => false end.
Proof. by destruct h. Qed.

Lemma contains_middle (w a b : string) : contains w (a +:+ w +:+ b) = true.
Proof.
  induction a as [|c a IH]; str_simpl.
  - by rewrite contains_unfold, prefix_app.
  - rewrite contains_unfold, IH. apply orb_true_r.
Qed.

(** X11.  [_determine_task_type] gives the RESET keywords precedence and
    ignores letter case: a request that contains ["reset"], ["refactor all"],
    ["clean up"] or ["restructure"] anywhere, in any mix of upper and lower
    case, is a RESET whatever else it mentions (a bug, a fix, ...); and no
    request is ever classified as ENHANCEMENT. *)
Theorem X11_reset_keywords_take_precedence :
  (forall pre w post : string,
     lower w ∈ ["reset"; "refactor all"; "clean up"; "restructure"] ->
     determine_task_type (pre +:+ w +:+ post) = RESET) /\
  (forall request : string, determine_task_type request <> ENHANCEMENT).
Proof.
  split.
  - intros pre w post Hw. unfold determine_task_type.
    rewrite !lower_app.
    assert (Hany : any_in ["reset"; "refactor all"; "clean up"; "restructure"]
                     (lower pre +:+ lower w +:+ lower post) = true); [|by rewrite Hany].
    unfold any_in. apply existsb_exists. exists (lower w). split.
    + by apply list_elem_of_In.
    + apply contains_middle.
  - intros request. unfold determine_task_type.
    by repeat case_match.
Qed.

Lemma X11_reset_keywords_take_precedence_witness :
  determine_task_type "Fix the login bug, then RESET the core" = RESET.
Proof.
  refine (proj1 X11_reset_keywords_take_precedence
            "Fix the login bug, then " "RESET" " the core" _).
  vm_compute. left.
Defined.

(** X12.  The scope strategy the analytic phase records is the multi-wave
    one exactly when the request is not classified as a RESET and mentions
    ["auth"] (in any letter case): only that keyword contributes more than
    two coordination points. *)
Theorem X12_multi_wave_strategy_needs_auth (request : string) :
  scope_strategy_for request
    = "Multi-wave: independent modules in Wave 1, integration in Wave 2" <->
  determine_task_type request <> RESET /\ contains "auth" (lower request) = true.
Proof.
  unfold scope_strategy_for, develop_scope_strategy, identify_coordination_points.
  destruct (determine_task_type request);
    destruct (contains "auth" (lower request)), (contains "test" (lower request));
    simpl; split; try done; by intros [? ?].
Qed.

(** ** The commit message *)

Lemma first_line_app (a b : string) :
  first_line a = a -> first_line (a +:+ b) = a +:+ first_line b.
Proof.
  induction a as [|c a IH]; str_simpl; [done|]. simpl.
  destruct (Ascii.eqb c line_feed); [done|].
  intros [= Ha]. by rewrite IH.
Qed.

Lemma first_line_idem (s : string) : first_line (first_line s) = first_line s.
Proof.
  induction s as [|c s IH]; simpl; [done|].
  destruct (Ascii.eqb c line_feed) eqn:Hc; simpl; [done|]. by rewrite Hc, IH.
Qed.

Lemma first_line_substring (n : nat) (s : string) :
  first_line s = s -> first_line (String.substring 0 n s) = String.substring 0 n s.
Proof.
  revert n. induction s as [|c s IH]; intros [|n]; simpl; try done.
  destruct (Ascii.eqb c line_feed); [done|].
  intros [= Hs]. by rewrite IH.
Qed.

Lemma length_substring (n : nat) (s : string) :
  (String.length (String.substring 0 n s) <= n)%nat.
Proof.
  revert n. induction s as [|c s IH]; intros [|n]; simpl; try lia.
  specialize (IH n). lia.
Qed.

(** X24.  The first line of the generated commit message is the subject
    [<prefix>: <summary>], where the prefix is ["feat"], ["fix"] or
    ["refactor"] (never the fall-back ["chore"]) and the summary is cut at
    its first line break and at fifty characters: the subject is a single
    line of at most sixty characters, whatever the accomplishment says. *)
Theorem X24_commit_subject_is_one_short_line (accomplishment : Accomplishment)
    (t : TaskType) :
  first_line (generate_commit_message accomplishment t)
    = commit_subject accomplishment t /\
  (String.length (commit_subject accomplishment t) <= 60)%nat /\
  type_prefix t ∈ ["feat"; "fix"; "refactor"].
Proof.
  assert (Hsub : first_line (commit_subject accomplishment t)
                 = commit_subject accomplishment t).
  { unfold commit_subject.
    rewrite first_line_app by (by destruct t).
    rewrite first_line_app by done.
    by rewrite first_line_substring by apply first_line_idem. }
  split_and!.
  - unfold generate_commit_message. rewrite first_line_app by done.
    simpl. by rewrite append_nil_r.
  - unfold commit_subject. rewrite !length_append.
    pose proof (length_substring 50 (first_line (summary accomplishment))).
    destruct t; simpl; lia.
  - destruct t; simpl; set_solver.
Qed.

End AnalyticFacts.

(** * Theorems about the supervisor *)

Module SupervisorFacts.
Import Json Supervisor Examples.

Section Facts.
Context {lib : JsonLib} {clock : Clock}.

(** ** The list of modified files *)

Lemma py_in_false (x : json) (l : list json) :
  py_in x l = false <-> forall y, y ∈ l -> py_eq y x = false.
Proof.
  unfold py_in. induction l as [|a l IH]; simpl.
  - split; [|done]. by intros _ y ?%elem_of_nil.
  - rewrite orb_false_iff, IH. split.
    + intros [Ha Hl] y [->|Hy]%elem_of_cons; auto.
    + intros H. split; [apply H; left|]. intros y Hy. apply H. by right.
Qed.

Lemma files_distinct_snoc (l : list json) (x : json) :
  files_distinct l -> py_in x l = false -> files_distinct (l ++ [x]).
Proof.
  intros Hd Hx i j a b Hij Hi Hj.
  destruct (decide (j < length l)%nat) as [Hlt|Hge].
  - rewrite lookup_app_l in Hi by lia. rewrite lookup_app_l in Hj by lia.
    exact (Hd i j a b Hij Hi Hj).
  - assert (j = length l) as ->.
    { apply lookup_lt_Some in Hj. rewrite length_app in Hj. simpl in Hj. lia. }
    rewrite lookup_app_l in Hi by lia.
    rewrite list_lookup_middle in Hj by done. simplify_eq.
    apply (proj1 (py_in_false b l) Hx). by eapply list_elem_of_lookup_2.
Qed.

Lemma add_files_spec (items l : list json) :
  exists added : list json,
    add_files items l = l ++ added /\
    Forall (fun x => py_in x l = false) added /\
    (files_distinct l -> files_distinct (l ++ added)).
Proof.
  unfold add_files. revert l. induction items as [|x items IH]; intros l; simpl.
  - exists []. rewrite app_nil_r. by split_and!.
  - destruct (py_in x l) eqn:Hx.
    + apply IH.
    + destruct (IH (l ++ [x])) as (added & Heq & Hnew & Hd).
      exists (x :: added). rewrite Heq, <- app_assoc. split_and!; [done| |].
      * constructor; [done|].
        eapply Forall_impl; [exact Hnew|]. intros y Hy. simpl in Hy.
        apply py_in_false. intros z Hz.
        apply (proj1 (py_in_false y (l ++ [x])) Hy). apply elem_of_app. by left.
      * intros Hl. change (x :: added) with ([x] ++ added).
        rewrite app_assoc. apply Hd.
        by apply files_distinct_snoc.
Qed.

Lemma py_eq_str (p : string) : py_eq (JStr p) (JStr p) = true.
Proof. simpl. by apply bool_decide_eq_true. Qed.

Lemma files_distinct_paths (l : list json) :
  files_distinct l -> NoDup (paths_of l).
Proof.
  unfold paths_of. induction l as [|a l IH]; intros Hd; simpl; [constructor|].
  assert (Hl : files_distinct l).
  { intros i j x y Hij Hi Hj. apply (Hd (S i) (S j) x y); [lia|done|done]. }
  destruct a; simpl; try (by apply IH).
  apply NoDup_cons. split; [|by apply IH].
  intros Hin. apply list_elem_of_omap in Hin as (v & Hv & Hs).
  destruct v; simplify_eq.
  apply list_elem_of_lookup in Hv as [j Hj].
  specialize (Hd 0%nat (S j) (JStr s) (JStr s) ltac:(lia) eq_refl Hj).
  by rewrite py_eq_str in Hd.
Qed.

Ltac run_M :=
  unfold mbind, M_bind, mret, M_ret, bind, ret, raise, lift, modify, get, now in *;
  simpl in *.

Lemma handle_message_files (msg : MCPMessage) (s : MCPServerStdio) :
  exists items : list json,
    files_modified (metrics (handle_message msg s).1)
      = add_files items (files_modified (metrics s)).
Proof.
  unfold handle_message, on_activity. run_M.
  repeat (case_match; simpl in *; simplify_eq; try (by exists [])).
  by eexists.
Qed.

Lemma handle_message_extends (msg : MCPMessage) (s : MCPServerStdio) :
  exists added : list json,
    files_modified (metrics (handle_message msg s).1)
      = files_modified (metrics s) ++ added /\
    Forall (fun x => py_in x (files_modified (metrics s)) = false) added /\
    (files_distinct (files_modified (metrics s)) ->
     files_distinct (files_modified (metrics (handle_message msg s).1))).
Proof.
  destruct (handle_message_files msg s) as [items ->].
  destruct (add_files_spec items (files_modified (metrics s))) as (added & -> & Hn & Hd).
  by exists added.
Qed.

Lemma handle_all_distinct (msgs : list MCPMessage) (s : MCPServerStdio) :
  files_distinct (files_modified (metrics s)) ->
  files_distinct (files_modified (metrics (handle_all msgs s))).
Proof.
  unfold handle_all. revert s. induction msgs as [|m msgs IH]; intros s Hs; simpl; [done|].
  apply IH. destruct (handle_message_extends m s) as (? & _ & _ & Hd). by apply Hd.
Qed.

(** C10.  Starting from an empty [files_modified] list and handling any
    sequence of inbound messages, no entry of the list equals an earlier one
    and no path occurs twice; each message only appends, and only entries
    that were not already present. *)
Theorem C10_files_modified_no_duplicates (s0 : MCPServerStdio) (msgs : list MCPMessage) :
  files_modified (metrics s0) = [] ->
  files_distinct (files_modified (metrics (handle_all msgs s0))) /\
  NoDup (paths_of (files_modified (metrics (handle_all msgs s0)))) /\
  (forall (s : MCPServerStdio) (m : MCPMessage),
      exists added : list json,
        files_modified (metrics (handle_message m s).1)
          = files_modified (metrics s) ++ added /\
        Forall (fun x => py_in x (files_modified (metrics s)) = false) added).
Proof.
  intros H0.
  assert (Hd : files_distinct (files_modified (metrics (handle_all msgs s0)))).
  { apply handle_all_distinct. rewrite H0. by intros i j x y _ ?. }
  split_and!; [done|by apply files_distinct_paths|].
  intros s m. destruct (handle_message_extends m s) as (added & ? & ? & _).
  by exists added.
Qed.

(** ** The codec *)

(** C9.  Whenever the [json] library reads back the dict that [to_json]
    hands to [json.dumps] (which is what it means for the message, and so
    for its payload, to be JSON-representable), decoding the encoded form
    returns the message itself: type, id, timestamp and payload. *)
Theorem C9_codec_roundtrip (m : MCPMessage) :
  json_loads (json_dumps (message_dict m)) = Some (message_dict m) ->
  from_json (to_json m) = Ok m.
Proof.
  intros Hrt. unfold from_json, to_json. rewrite Hrt.
  by destruct m.
Qed.

(** ** The read loop *)

Lemma read_stdout_line_never_raises (line : string) (s : MCPServerStdio) :
  (read_stdout_line line s).2 = Ok tt.
Proof.
  unfold read_stdout_line, on_activity. run_M.
  repeat (case_match; simpl in *; simplify_eq; try done).
Qed.

Lemma read_stdout_never_raises (lines : list string) (s : MCPServerStdio) :
  (read_stdout lines s).2 = Ok tt.
Proof.
  revert s. induction lines as [|l lines IH]; intros s; simpl; [done|].
  run_M. pose proof (read_stdout_line_never_raises l s) as Hl.
  destruct (read_stdout_line l s) as [s' r]. simpl in Hl. subst r. apply IH.
Qed.


(** A line that is JSON but not a message (so that [from_json] raises
    something other than [JSONDecodeError]) ends the loop; nothing is
    surfaced. *)
Lemma read_stdout_line_not_message (line : string) (s : MCPServerStdio) (e : PyError) :
  reader_alive s = true -> running s = true -> line <> "" ->
  from_json (strip line) = Raise e -> e <> JSONDecodeError ->
  read_stdout_line line s = (set_reader_alive false s, Ok tt).
Proof.
  intros Ha Hr Hne Hj He. unfold read_stdout_line.
  rewrite Ha, Hr, bool_decide_eq_false_2 by done. run_M. rewrite Hj. simpl.
  by destruct e.
Qed.

(** ** Pending requests *)


Lemma on_activity_pending (a : WorkerActivity) (s : MCPServerStdio) :
  pending_requests (on_activity a s).1 = pending_requests s.
Proof. unfold on_activity. run_M. by case_match. Qed.





(** ** Task execution *)

Lemma run_reader_never_raises (stop : MCPServerStdio -> bool) (deadline : Q)
    (arrivals : list (Q * string)) (s : MCPServerStdio) :
  (run_reader_until stop deadline arrivals s).2 = Ok tt.
Proof.
  revert s. induction arrivals as [|[t line] arrivals IH]; intros s; simpl; [done|].
  destruct (stop s); simpl; [done|].
  destruct (Qlt_le_dec t deadline); simpl; [|done].
  run_M. pose proof (read_stdout_line_never_raises line s) as Hok.
  destruct (read_stdout_line line s) as [s' r]. simpl in *. subst r. apply IH.
Qed.

(** [execute_task] on a started worker always reports success, with the
    task id it sent, whatever the worker writes in the meantime. *)
Lemma execute_task_always_succeeds (task : list (string * json))
    (arrivals : list (Q * string)) (s : MCPServerStdio) :
  is_Some (process s) ->
  exists (s' : MCPServerStdio) (r : TaskResult),
    execute_task task arrivals s = (s', Ok r) /\
    success r = true /\
    result_task_id r
      = default (JStr ("task_" +:+ pretty (message_id_counter s)))
                (dict_lookup "task_id" task).
Proof.
  intros [written Hproc]. unfold execute_task, send_message. run_M.
  rewrite Hproc. simpl.
  match goal with
  | |- context [run_reader_until ?stop ?d arrivals ?st] =>
      pose proof (run_reader_never_raises stop d arrivals st) as Hok;
      destruct (run_reader_until stop d arrivals st) as [s3 r]
  end.
  simpl in *. subst r. by eexists _, _.
Qed.

(** ** What a handler may change *)

Lemma has_type_exclusive (m : MCPMessage) (t1 t2 : MCPMessageType) :
  has_type m t1 = true -> has_type m t2 = true -> t1 = t2.
Proof.
  unfold has_type. destruct (msg_type m); try done.
  intros ->%bool_decide_eq_true H2%bool_decide_eq_true.
  by destruct t1, t2.
Qed.

(** X13.  Handling an inbound message never writes to the worker and never
    touches the message counter, the running flag or the worker's identity;
    and each part of the bookkeeping belongs to one message type: only
    [tool_use] changes the tool counters, only [task_complete] the completed
    count and the list of modified files, only [task_error] the failed
    count, and only [tools_response] the pending requests.  A message of any
    other type, known or unknown, leaves all of them as they are. *)
Theorem X13_handlers_change_only_their_own_state (m : MCPMessage) (s : MCPServerStdio) :
  let s' := (handle_message m s).1 in
  process s' = process s /\
  message_id_counter s' = message_id_counter s /\
  running s' = running s /\
  reader_alive s' = reader_alive s /\
  worker_id s' = worker_id s /\
  (has_type m TOOL_USE = false -> tools_used (metrics s') = tools_used (metrics s)) /\
  (has_type m TASK_COMPLETE = false ->
     tasks_completed (metrics s') = tasks_completed (metrics s) /\
     files_modified (metrics s') = files_modified (metrics s)) /\
  (has_type m TASK_ERROR = false -> tasks_failed (metrics s') = tasks_failed (metrics s)) /\
  (has_type m TOOLS_RESPONSE = false -> pending_requests s' = pending_requests s).
Proof.
  unfold handle_message, on_activity. run_M.
  repeat (case_match; simpl in *; simplify_eq; try done).
Qed.

Ltac two_types :=
  match goal with
  | H1 : has_type ?m ?a = true, H2 : has_type ?m ?b = true |- _ =>
      by pose proof (has_type_exclusive m a b H1 H2)
  end.

(** X14.  The task counters count messages, not outcomes: handling a
    message raises [tasks_completed] by one exactly when it is a
    [task_complete] whose payload is a dict, and [tasks_failed] by one
    exactly when it is a [task_error] whose payload is a dict; this holds
    also when the handler goes on to raise (a [files_modified] entry that
    cannot be iterated, say), and no message changes either counter in any
    other way. *)
Theorem X14_task_counters_count_messages (m : MCPMessage) (s : MCPServerStdio) :
  let s' := (handle_message m s).1 in
  tasks_completed (metrics s')
    = tasks_completed (metrics s)
      + (if has_type m TASK_COMPLETE && is_dict (msg_payload m) then 1 else 0) /\
  tasks_failed (metrics s')
    = tasks_failed (metrics s)
      + (if has_type m TASK_ERROR && is_dict (msg_payload m) then 1 else 0).
Proof.
  unfold handle_message, on_activity.
  destruct (has_type m TASK_COMPLETE) eqn:Hc, (has_type m TASK_ERROR) eqn:He;
    try two_types.
  all: destruct (msg_payload m) eqn:Hp; run_M.
  all: repeat (case_match; simpl in *; simplify_eq; try two_types; try (split; lia)).
  all: simpl; split; lia.
Qed.

(** ** Futures *)

Lemma handle_message_resolves (m : MCPMessage) (s : MCPServerStdio) :
  pending_requests (handle_message m s).1 = pending_requests s \/
  exists (k : string) (v : json) (pending : gmap string Future),
    pending_requests s = Some pending /\ pending !! k = Some Pending /\
    pending_requests (handle_message m s).1 = Some (<[k := Resolved v]> pending).
Proof.
  unfold handle_message, on_activity, pending_key. run_M.
  repeat (case_match; simpl in *; simplify_eq; try (by left)).
  all: right; by eexists _, _, _.
Qed.

Lemma advances_refl (f : option Future) : advances f f.
Proof. by left. Qed.

Lemma advances_trans (f g h : option Future) :
  advances f g -> advances g h -> advances f h.
Proof.
  intros [->|[-> [v ->]]] [->|[Hg [w ->]]]; try (by left); try done.
  - right. split; [done|by exists w].
  - right. split; [done|by exists v].
Qed.

Lemma handle_message_advances (k : string) (m : MCPMessage) (s : MCPServerStdio) :
  advances (future_of k s) (future_of k (handle_message m s).1).
Proof.
  unfold future_of.
  destruct (handle_message_resolves m s) as [->|(k0 & v & pending & -> & Hk & ->)];
    [by left|]. simpl.
  destruct (decide (k0 = k)) as [->|Hne].
  - right. split; [done|]. exists v. apply lookup_insert_eq.
  - left. by apply lookup_insert_ne.
Qed.

Lemma read_stdout_line_advances (k line : string) (s : MCPServerStdio) :
  advances (future_of k s) (future_of k (read_stdout_line line s).1).
Proof.
  unfold read_stdout_line.
  destruct (reader_alive s); simpl; [|by left].
  destruct (running s); simpl; [|by left].
  case_bool_decide; simpl; [by left|].
  run_M.
  destruct (from_json (strip line)) as [m|e] eqn:Hfj; simpl.
  - pose proof (handle_message_advances k m s) as Hm.
    destruct (handle_message m s) as [s' r] eqn:Hh. simpl in Hm.
    destruct r as [[]|e]; simpl; [done|].
    destruct e; simpl; try done.
    unfold future_of in *. by rewrite on_activity_pending.
  - destruct e; simpl; try (by left).
    unfold future_of. rewrite on_activity_pending. by left.
Qed.

Lemma read_stdout_advances (k : string) (lines : list string) (s : MCPServerStdio) :
  advances (future_of k s) (future_of k (read_stdout lines s).1).
Proof.
  revert s. induction lines as [|l lines IH]; intros s; simpl; [by left|].
  run_M. pose proof (read_stdout_line_advances k l s) as Hl.
  pose proof (read_stdout_line_never_raises l s) as Hok.
  destruct (read_stdout_line l s) as [s' r]. simpl in *. subst r.
  eapply advances_trans; [exact Hl|apply IH].
Qed.

(** X15.  Whatever the worker writes, the read loop never creates a pending
    request and never removes one, and the first [tools_response] for a
    request wins: a request that is not registered stays unregistered, one
    that is waiting is still registered afterwards (waiting or answered),
    and an answer once stored is never replaced by a later response. *)
Theorem X15_first_tools_response_wins (k : string) (lines : list string)
    (s : MCPServerStdio) :
  let s' := (read_stdout lines s).1 in
  (future_of k s = None -> future_of k s' = None) /\
  (future_of k s = Some Pending -> is_Some (future_of k s')) /\
  (forall v : json, future_of k s = Some (Resolved v) ->
     future_of k s' = Some (Resolved v)).
Proof.
  simpl. destruct (read_stdout_advances k lines s) as [->|[-> [v ->]]].
  - split_and!; [done|by eexists|done].
  - split_and!; [done|by eexists|done].
Qed.

(** ** [list_tools], answered *)




(** X17.  Once the request has been written to a started worker,
    [list_tools] leaves no trace of it in the pending requests, whether it
    returns the tools, times out, or fails while reading the answer. *)
Theorem X17_list_tools_always_unregisters (timeout : Q) (arrivals : list (Q * string))
    (s : MCPServerStdio) :
  is_Some (process s) ->
  future_of ("list_tools_" +:+ pretty (message_id_counter s))
            (list_tools timeout arrivals s).1 = None.
Proof.
  intros [written Hproc].
  unfold list_tools, send_message, try_finally. run_M. rewrite Hproc. simpl.
  match goal with
  | |- context [run_reader_until ?stop timeout arrivals ?st] =>
      destruct (run_reader_until stop timeout arrivals st) as [s3 r]
  end.
  assert (Hdel : forall st : MCPServerStdio,
            future_of ("list_tools_" +:+ pretty (message_id_counter s))
              (set_pending (delete ("list_tools_" +:+ pretty (message_id_counter s))
                              <$> pending_requests st) st) = None).
  { intros st. unfold future_of. simpl.
    destruct (pending_requests st); simpl; [apply lookup_delete_eq|done]. }
  destruct r as [[]|e]; simpl; [|apply Hdel].
  repeat (case_match; simpl in *; simplify_eq; try apply Hdel).
Qed.

(** ** A worker that did not start *)

(** X18.  When spawning the process fails, [start] hands one [worker_error]
    to the broadcaster (whether or not a client is connected), raises, and
    leaves the supervisor without a process and with its running flag
    untouched; a task given to that supervisor is then refused with
    [RuntimeError] before anything is written or counted. *)
Theorem X18_failed_start_refuses_tasks (s : MCPServerStdio)
    (task : list (string * json)) (arrivals : list (Q * string)) :
  process s = None ->
  exists s' : MCPServerStdio,
    start false s = (s', Raise (OSError "Failed to start worker")) /\
    process s' = None /\ running s' = running s /\
    message_id_counter s' = message_id_counter s /\
    sent (broadcaster s')
      = sent (broadcaster s)
        ++ [worker_error (worker_id s) start_failed (isoformat_now (clock_reads s))] /\
    execute_task task arrivals s'
      = (s', Raise (RuntimeError "Worker process not started")).
Proof.
  intros Hproc. unfold start, execute_task, send_message. run_M.
  eexists. split; [reflexivity|]. simpl. rewrite Hproc. by split_and!.
Qed.

(** ** Counting tool uses *)

Ltac eqb_facts :=
  repeat match goal with
  | H : Z.eqb _ _ = true |- _ => apply Z.eqb_eq in H
  | H : Bool.eqb _ _ = true |- _ => apply Bool.eqb_prop in H
  | H : bool_decide _ = true |- _ => apply bool_decide_eq_true in H
  end; subst.

Lemma py_eq_refl_hashable (k : json) : hashable k = true -> py_eq k k = true.
Proof.
  destruct k; simpl; try done; intros _.
  - by destruct b.
  - apply Z.eqb_refl.
  - by apply bool_decide_eq_true.
Qed.

Lemma py_eq_euclidean (a b c : json) :
  hashable a = true -> hashable b = true -> hashable c = true ->
  py_eq a b = true -> py_eq a c = true -> py_eq b c = true.
Proof.
  destruct a, b, c; simpl; try done; intros _ _ _ H1 H2; eqb_facts.
  all: try (by destruct b0).
  all: try (by destruct b).
  all: try apply Z.eqb_refl.
  all: try (by apply bool_decide_eq_true).
  all: try (destruct b, b0; simpl in *; done).
  all: try apply Bool.eqb_reflx.
Qed.

Lemma count_lookup_set_same (k : json) (n : Z) (d : list (json * Z)) :
  hashable k = true -> count_lookup k (count_set k n d) = n.
Proof.
  intros Hk. induction d as [|[k' n'] d IH]; simpl.
  - by rewrite py_eq_refl_hashable.
  - destruct (py_eq k' k) eqn:He; simpl; by rewrite He.
Qed.

Lemma count_lookup_set_other (k other : json) (n : Z) (d : list (json * Z)) :
  hashable k = true -> hashable other = true ->
  Forall (fun kv => hashable kv.1 = true) d ->
  py_eq k other = false ->
  count_lookup other (count_set k n d) = count_lookup other d.
Proof.
  intros Hk Ho Hd Hne. induction Hd as [|[k' n'] d Hk' _ IH]; simpl.
  - by rewrite Hne.
  - simpl in Hk'. destruct (py_eq k' k) eqn:He; simpl.
    + destruct (py_eq k' other) eqn:He'; [|done].
      by rewrite (py_eq_euclidean k' k other) in Hne.
    + by rewrite IH.
Qed.

Lemma count_set_hashable (k : json) (n : Z) (d : list (json * Z)) :
  hashable k = true ->
  Forall (fun kv => hashable kv.1 = true) d ->
  Forall (fun kv => hashable kv.1 = true) (count_set k n d).
Proof.
  intros Hk. induction 1 as [|[k' n'] d Hk' Hd IH]; simpl.
  - constructor; [exact Hk|constructor].
  - destruct (py_eq k' k); by constructor.
Qed.

(** X19.  A [tool_use] message whose payload is a dict and whose tool name
    can be a dict key (a missing name counting as [None]) raises the count
    of that tool by exactly one and leaves the count of every other tool as
    it was, where two names are the same tool when Python's [==] says so;
    the keys of the table stay usable as dict keys. *)
Theorem X19_tool_use_counts_one_tool (m : MCPMessage) (s : MCPServerStdio)
    (kvs : list (string * json)) (tool : json) :
  has_type m TOOL_USE = true ->
  msg_payload m = JDict kvs ->
  default JNull (dict_lookup "tool" kvs) = tool ->
  hashable tool = true ->
  Forall (fun kv => hashable kv.1 = true) (tools_used (metrics s)) ->
  let s' := (handle_message m s).1 in
  (handle_message m s).2 = Ok tt /\
  count_lookup tool (tools_used (metrics s'))
    = count_lookup tool (tools_used (metrics s)) + 1 /\
  (forall other : json, hashable other = true -> py_eq tool other = false ->
     count_lookup other (tools_used (metrics s'))
       = count_lookup other (tools_used (metrics s))) /\
  Forall (fun kv => hashable kv.1 = true) (tools_used (metrics s')).
Proof.
  intros Ht Hp Htool Hh Hkeys.
  assert (Hother : forall t, t <> TOOL_USE -> has_type m t = false).
  { intros t Hne. destruct (has_type m t) eqn:E; [|done].
    by pose proof (has_type_exclusive m t TOOL_USE E Ht). }
  unfold handle_message, on_activity.
  rewrite !Hother by done. rewrite Ht, Hp. run_M. rewrite Htool, Hh. simpl.
  assert (Hgoal :
    count_lookup tool
      (count_set tool (count_lookup tool (tools_used (metrics s)) + 1)
         (tools_used (metrics s)))
      = count_lookup tool (tools_used (metrics s)) + 1 /\
    (forall other : json, hashable other = true -> py_eq tool other = false ->
       count_lookup other
         (count_set tool (count_lookup tool (tools_used (metrics s)) + 1)
            (tools_used (metrics s)))
         = count_lookup other (tools_used (metrics s))) /\
    Forall (fun kv => hashable kv.1 = true)
      (count_set tool (count_lookup tool (tools_used (metrics s)) + 1)
         (tools_used (metrics s)))).
  { split_and!.
    - by apply count_lookup_set_same.
    - intros other Ho Hne. by apply count_lookup_set_other.
    - by apply count_set_hashable. }
  by case_match.
Qed.

(** ** The caller in the capability discovery *)



(** ** Message ids *)

Lemma handle_message_frame (m : MCPMessage) (s : MCPServerStdio) :
  process (handle_message m s).1 = process s /\
  message_id_counter (handle_message m s).1 = message_id_counter s /\
  worker_id (handle_message m s).1 = worker_id s.
Proof.
  unfold handle_message, on_activity. run_M.
  repeat (case_match; simpl in *; simplify_eq; try done).
Qed.

Lemma read_stdout_line_frame (line : string) (s : MCPServerStdio) :
  process (read_stdout_line line s).1 = process s /\
  message_id_counter (read_stdout_line line s).1 = message_id_counter s /\
  worker_id (read_stdout_line line s).1 = worker_id s.
Proof.
  unfold read_stdout_line.
  destruct (reader_alive s); simpl; [|done].
  destruct (running s); simpl; [|done].
  case_bool_decide; simpl; [done|].
  run_M. destruct (from_json (strip line)) as [m|e]; simpl.
  - pose proof (handle_message_frame m s) as Hm.
    destruct (handle_message m s) as [s' r]. simpl in Hm.
    destruct r as [[]|e]; simpl; [done|].
    unfold on_activity. run_M.
    destruct e; simpl; try done. by case_match.
  - unfold on_activity. run_M. destruct e; simpl; try done. by case_match.
Qed.

Lemma read_stdout_frame (lines : list string) (s : MCPServerStdio) :
  process (read_stdout lines s).1 = process s /\
  message_id_counter (read_stdout lines s).1 = message_id_counter s /\
  worker_id (read_stdout lines s).1 = worker_id s.
Proof.
  revert s. induction lines as [|l lines IH]; intros s; simpl; [done|].
  run_M. pose proof (read_stdout_line_frame l s) as (Hp & Hc & Hw).
  pose proof (read_stdout_line_never_raises l s) as Hok.
  destruct (read_stdout_line l s) as [s' r]. simpl in *. subst r.
  destruct (IH s') as (-> & -> & ->). done.
Qed.

Lemma string_app_inv_head (a b c : string) : a +:+ b = a +:+ c -> b = c.
Proof.
  induction a as [|x a IH]; rewrite ?RefJsonFacts.append_cons, ?RefJsonFacts.append_nil_l.
  - done.
  - intros [= H]. by apply IH.
Qed.

(** X21.  Every message written to a started worker gets the id
    [<worker id>_<n>], where [n] is the message counter after it was raised
    by one; nothing the worker writes back changes the counter, so two
    messages of one supervisor never carry the same id, whatever was read in
    between.  Both are appended to the worker's input as one line each, in
    the order sent, with the type and payload given.  On a supervisor
    without a process the send raises [RuntimeError] and changes nothing. *)
Theorem X21_message_ids_never_repeat (t1 t2 : MCPMessageType) (p1 p2 : json)
    (lines : list string) (s : MCPServerStdio) :
  (forall written : list string,
     process s = Some written ->
     exists (s1 s3 : MCPServerStdio) (m1 m2 : MCPMessage),
       send_message t1 p1 s = (s1, Ok tt) /\
       send_message t2 p2 (read_stdout lines s1).1 = (s3, Ok tt) /\
       process s3 = Some (written ++ [to_json m1 +:+ newline; to_json m2 +:+ newline]) /\
       msg_type m1 = JStr (MCPMessageType_value t1) /\ msg_payload m1 = p1 /\
       msg_type m2 = JStr (MCPMessageType_value t2) /\ msg_payload m2 = p2 /\
       msg_id m1 = JStr (worker_id s +:+ "_" +:+ pretty (message_id_counter s + 1)) /\
       msg_id m2 = JStr (worker_id s +:+ "_" +:+ pretty (message_id_counter s + 2)) /\
       msg_id m1 <> msg_id m2) /\
  (process s = None ->
   send_message t1 p1 s = (s, Raise (RuntimeError "Worker process not started"))).
Proof.
  split.
  - intros written Hproc.
    assert (Hsend : forall t p st w,
              process st = Some w ->
              send_message t p st
                = (set_process
                     (Some (w ++ [to_json
                        {| msg_type := JStr (MCPMessageType_value t);
                           msg_id := JStr (worker_id st +:+ "_"
                                           +:+ pretty (message_id_counter st + 1));
                           msg_timestamp := JStr (isoformat_now (clock_reads st));
                           msg_payload := p |} +:+ newline]))
                     (set_clock_reads (S (clock_reads st))
                        (set_counter (message_id_counter st + 1) st)), Ok tt)).
    { intros t p st w Hw. unfold send_message. run_M. by rewrite Hw. }
    pose proof (Hsend t1 p1 s written Hproc) as H1.
    match type of H1 with
    | _ = (?st1, Ok tt) => set (s1 := st1) in *
    end.
    destruct (read_stdout_frame lines s1) as (Hp & Hc & Hw).
    pose proof (Hsend t2 p2 (read_stdout lines s1).1 _ Hp) as H2.
    rewrite Hc, Hw in H2. simpl in H2.
    replace (message_id_counter s + 1 + 1) with (message_id_counter s + 2) in H2 by lia.
    exists s1. eexists.
    exists {| msg_type := JStr (MCPMessageType_value t1);
              msg_id := JStr (worker_id s +:+ "_" +:+ pretty (message_id_counter s + 1));
              msg_timestamp := JStr (isoformat_now (clock_reads s));
              msg_payload := p1 |}.
    exists {| msg_type := JStr (MCPMessageType_value t2);
              msg_id := JStr (worker_id s +:+ "_" +:+ pretty (message_id_counter s + 2));
              msg_timestamp :=
                JStr (isoformat_now (clock_reads (read_stdout lines s1).1));
              msg_payload := p2 |}.
    split; [exact H1|]. split; [exact H2|]. simpl.
    split_and!; try done.
    + by rewrite <- app_assoc.
    + intros [= Heq]. apply string_app_inv_head, string_app_inv_head in Heq.
      apply (inj pretty) in Heq. lia.
  - intros Hproc. unfold send_message. run_M. by rewrite Hproc.
Qed.

(** ** The end of the read loop *)

Lemma handle_message_not_decode_error (m : MCPMessage) (s : MCPServerStdio) :
  (handle_message m s).2 <> Raise JSONDecodeError.
Proof.
  unfold handle_message, on_activity, py_get, py_iter, py_len, log_activity_type,
    pending_key. run_M.
  repeat (case_match; simpl in *; simplify_eq; try done).
Qed.

Lemma read_stdout_dead (lines : list string) (s : MCPServerStdio) :
  reader_alive s = false -> read_stdout lines s = (s, Ok tt).
Proof.
  intros Hd. induction lines as [|l lines IH]; simpl; [done|].
  run_M. unfold read_stdout_line at 1. rewrite Hd. simpl. exact IH.
Qed.

(** X22.  The read loop does not survive a line it cannot treat as a
    message or as plain text.  When decoding a line raises anything but
    [JSONDecodeError] (valid JSON that lacks a key of the message, or is not
    an object), or when the handler of the decoded message raises, the loop
    ends: the supervisor keeps what the handler had changed up to the
    exception, and every line the worker writes afterwards is left unread.
    The same holds after the end of the stream. *)
Theorem X22_reader_stops_for_good (line : string) (rest : list string)
    (s : MCPServerStdio) :
  reader_alive s = true -> running s = true -> line <> "" ->
  (forall e : PyError,
     from_json (strip line) = Raise e -> e <> JSONDecodeError ->
     read_stdout (line :: rest) s = (set_reader_alive false s, Ok tt)) /\
  (forall (m : MCPMessage) (e : PyError),
     from_json (strip line) = Ok m -> (handle_message m s).2 = Raise e ->
     read_stdout (line :: rest) s
       = (set_reader_alive false (handle_message m s).1, Ok tt)) /\
  read_stdout ("" :: rest) s = (set_reader_alive false s, Ok tt).
Proof.
  intros Ha Hr Hne. split_and!.
  - intros e Hfj He. simpl. run_M.
    rewrite (read_stdout_line_not_message line s e Ha Hr Hne Hfj He).
    by apply read_stdout_dead.
  - intros m e Hfj Hh. simpl. run_M.
    unfold read_stdout_line at 1. rewrite Ha, Hr. simpl.
    rewrite bool_decide_eq_false_2 by done. run_M. rewrite Hfj. simpl.
    pose proof (handle_message_not_decode_error m s) as Hnd.
    destruct (handle_message m s) as [s' r]. simpl in *. subst r.
    destruct e; try done; by apply read_stdout_dead.
  - simpl. run_M. unfold read_stdout_line at 1. rewrite Ha, Hr. simpl.
    by apply read_stdout_dead.
Qed.


(** ** The worker pool *)

Lemma start_spawned (s : MCPServerStdio) :
  exists s' : MCPServerStdio,
    start true s = (s', Ok tt) /\ is_Some (process s') /\ running s' = true /\
    worker_id s' = worker_id s.
Proof.
  unfold start, send_message. run_M. eexists. split; [reflexivity|].
  simpl. by split_and!; [eexists|..].
Qed.

Lemma start_not_spawned (s : MCPServerStdio) :
  exists (s' : MCPServerStdio) (e : PyError), start false s = (s', Raise e).
Proof. unfold start. run_M. by eexists _, _. Qed.

Lemma worker_lookup_set (k' k : string) (v : MCPServerStdio)
    (d : list (string * MCPServerStdio)) :
  worker_lookup k' (worker_set k v d)
    = if decide (k' = k) then Some v else worker_lookup k' d.
Proof.
  induction d as [|[k1 v1] d IH]; simpl.
  - destruct (decide (k = k')) as [->|Hne].
    + by rewrite decide_True.
    + by rewrite decide_False by congruence.
  - destruct (decide (k1 = k)) as [->|Hne]; simpl.
    + destruct (decide (k = k')) as [<-|Hne'].
      * by rewrite decide_True.
      * by rewrite decide_False by congruence.
    + rewrite IH. destruct (decide (k1 = k')) as [->|Hne'].
      * by rewrite decide_False by congruence.
      * done.
Qed.

Lemma worker_set_Forall (P : string * MCPServerStdio -> Prop) (k : string)
    (v : MCPServerStdio) (d : list (string * MCPServerStdio)) :
  P (k, v) -> (forall v', P (k, v') -> P (k, v)) ->
  Forall P d -> Forall P (worker_set k v d).
Proof.
  intros Hv _. induction 1 as [|[k1 v1] d H1 Hd IH]; simpl.
  - by repeat constructor.
  - destruct (decide (k1 = k)) as [->|Hne]; by constructor.
Qed.

Section PoolFacts.
Variable popen : string * list string * list (string * string) -> bool.

Lemma start_workers_from_spec (entries : list Scheduler.WorkerEntry)
    (pool : WorkerPoolManager) :
  Forall (fun w => pool_enabled w = true -> startable w) entries ->
  exists pool' : WorkerPoolManager,
    start_workers_from popen entries pool = (pool', Ok tt) /\
    (forall wid : string,
       is_Some (worker_lookup wid (workers pool')) <->
       is_Some (worker_lookup wid (workers pool)) \/
       exists (w : Scheduler.WorkerEntry) (kind : MCPWorkerType),
         w ∈ entries /\ pool_enabled w = true /\
         entry_identity w = Ok (wid, kind) /\ popen (spawn_command w) = true) /\
    (Forall (fun kv => is_Some (process kv.2) /\ running kv.2 = true /\
                       worker_id kv.2 = kv.1) (workers pool) ->
     Forall (fun kv => is_Some (process kv.2) /\ running kv.2 = true /\
                       worker_id kv.2 = kv.1) (workers pool')).
Proof.
  intros Hall. revert pool.
  induction Hall as [|w entries Hw _ IH]; intros pool; simpl.
  - exists pool. split_and!; [done| |done].
    intros wid. split; [by left|]. intros [?|(w & ? & ?%elem_of_nil & _)]; done.
  - destruct (pool_enabled w) eqn:He; simpl.
    + destruct (Hw eq_refl) as (wid0 & kind0 & Hid). rewrite Hid.
      destruct (popen (spawn_command w)) eqn:Hp.
      * match goal with
        | |- context [start true ?sv] =>
            destruct (start_spawned sv) as (s1 & -> & Hproc & Hrun & Hwid)
        end.
        match goal with
        | |- context [start_workers_from popen entries ?p1] =>
            destruct (IH p1) as (pool' & -> & Hkeys & Hinv)
        end.
        exists pool'. split; [done|]. simpl in *. split.
        -- intros wid. rewrite Hkeys, worker_lookup_set. split.
           ++ intros [Hl|(w' & kind & Hin & ? & ? & ?)].
              ** destruct (decide (wid = wid0)) as [->|Hne]; [|by left].
                 right. exists w, kind0. by split_and!; [left|..].
              ** right. exists w', kind. by split_and!; [right|..].
           ++ intros [Hl|(w' & kind & [->|Hin]%elem_of_cons & ? & Hid' & ?)].
              ** left. destruct (decide (wid = wid0)); [by eexists|done].
              ** left. rewrite Hid in Hid'. simplify_eq.
                 rewrite decide_True by done. by eexists.
              ** right. by exists w', kind.
        -- intros Hpool. apply Hinv.
           apply worker_set_Forall; [|done|done].
           simpl. by split_and!.
      * match goal with
        | |- context [start false ?sv] =>
            destruct (start_not_spawned sv) as (s1 & e & ->)
        end.
        match goal with
        | |- context [start_workers_from popen entries ?p1] =>
            destruct (IH p1) as (pool' & -> & Hkeys & Hinv)
        end.
        exists pool'. split; [done|]. simpl in *. split; [|done].
        intros wid. rewrite Hkeys. split.
        -- intros [Hl|(w' & kind & Hin & ? & ? & ?)]; [by left|].
           right. exists w', kind. by split_and!; [right|..].
        -- intros [Hl|(w' & kind & [->|Hin]%elem_of_cons & ? & Hid' & ?)];
             [by left|congruence|].
           right. by exists w', kind.
    + destruct (IH pool) as (pool' & -> & Hkeys & Hinv).
      exists pool'. split; [done|]. split; [|done].
      intros wid. rewrite Hkeys. split.
      * intros [Hl|(w' & kind & Hin & ? & ? & ?)]; [by left|].
        right. exists w', kind. by split_and!; [right|..].
      * intros [Hl|(w' & kind & [->|Hin]%elem_of_cons & ? & Hid' & ?)];
          [by left|congruence|].
        right. by exists w', kind.
Qed.

Lemma start_workers_registers (entries : list Scheduler.WorkerEntry)
    (b : WebSocketBroadcaster) :
  Forall (fun w => pool_enabled w = true -> startable w) entries ->
  exists pool' : WorkerPoolManager,
    start_workers popen (new_pool (Some entries) b) = (pool', Ok tt) /\
    (forall wid : string,
       is_Some (worker_lookup wid (workers pool')) <->
       exists (w : Scheduler.WorkerEntry) (kind : MCPWorkerType),
         w ∈ entries /\ pool_enabled w = true /\
         entry_identity w = Ok (wid, kind) /\ popen (spawn_command w) = true) /\
    Forall (fun kv => is_Some (process kv.2) /\ running kv.2 = true /\
                      worker_id kv.2 = kv.1) (workers pool').
Proof.
  intros Hall. unfold start_workers. simpl.
  destruct (start_workers_from_spec entries (new_pool (Some entries) b) Hall)
    as (pool' & Hrun & Hkeys & Hinv).
  exists pool'. split; [done|]. split; [|by apply Hinv; constructor].
  intros wid. rewrite Hkeys. simpl. split; [|by right].
  intros [[? ?]|?]; done.
Qed.

(** X27.  [start_workers] on a fresh pool whose enabled entries (an entry
    without the ['enabled'] key counting as enabled) all have an ['id'] and
    an ['agent_type'] that names a member of [MCPWorkerType]: the call
    returns; a worker id is registered afterwards exactly when some enabled
    entry with that id could be spawned, so an entry whose process cannot be
    spawned is skipped without stopping the others; and every registered
    supervisor has a process, is running and is filed under its own id. *)
Theorem X27_pool_registers_the_spawned_workers (entries : list Scheduler.WorkerEntry)
    (b : WebSocketBroadcaster) :
  Forall (fun w => pool_enabled w = true -> startable w) entries ->
  exists pool' : WorkerPoolManager,
    start_workers popen (new_pool (Some entries) b) = (pool', Ok tt) /\
    (forall wid : string,
       is_Some (worker_lookup wid (workers pool')) <->
       exists (w : Scheduler.WorkerEntry) (kind : MCPWorkerType),
         w ∈ entries /\ pool_enabled w = true /\
         entry_identity w = Ok (wid, kind) /\ popen (spawn_command w) = true) /\
    Forall (fun kv => is_Some (process kv.2) /\ running kv.2 = true /\
                      worker_id kv.2 = kv.1) (workers pool').
Proof. apply start_workers_registers. Qed.

Lemma start_workers_from_app (pre rest : list Scheduler.WorkerEntry)
    (pool pool1 : WorkerPoolManager) :
  start_workers_from popen pre pool = (pool1, Ok tt) ->
  start_workers_from popen (pre ++ rest) pool = start_workers_from popen rest pool1.
Proof.
  revert pool. induction pre as [|w pre IH]; intros pool; simpl.
  - by intros [= ->].
  - destruct (pool_enabled w); simpl; [|apply IH].
    destruct (entry_identity w) as [[wid kind]|e]; [|done].
    destruct (start _ _) as [s1 [[]|e]]; apply IH.
Qed.

(** X28.  The arguments of [MCPWorkerConfig] are evaluated outside the
    [try]: an enabled entry without ['id'] or ['agent_type'], or with an
    agent type that is no member of [MCPWorkerType], ends [start_workers]
    with that [KeyError] or [ValueError].  The workers listed before it have
    been started and stay registered; the entries after it are never
    reached, so the outcome does not depend on them. *)
Theorem X28_pool_stops_at_a_malformed_entry (pre post : list Scheduler.WorkerEntry)
    (w : Scheduler.WorkerEntry) (b : WebSocketBroadcaster) :
  Forall (fun w' => pool_enabled w' = true -> startable w') pre ->
  pool_enabled w = true ->
  ~ startable w ->
  exists e : PyError,
    start_workers popen (new_pool (Some (pre ++ w :: post)) b)
      = ((start_workers_from popen pre (new_pool (Some (pre ++ w :: post)) b)).1,
         Raise e) /\
    (start_workers_from popen pre (new_pool (Some (pre ++ w :: post)) b)).2 = Ok tt /\
    ((Scheduler.w_id w = None /\ e = KeyError "id") \/
     (is_Some (Scheduler.w_id w) /\ Scheduler.w_agent_type w = None /\
      e = KeyError "agent_type") \/
     (is_Some (Scheduler.w_id w) /\
      exists v msg : string,
        Scheduler.w_agent_type w = Some v /\
        (v ∉ ["codex"; "cursor"; "claude"; "gpt4"; "droid"]) /\ e = ValueError msg)).
Proof.
  intros Hpre He Hbad. unfold start_workers. simpl.
  set (pool := new_pool (Some (pre ++ w :: post)) b).
  destruct (start_workers_from_spec pre pool Hpre) as (pool1 & Hrun & _).
  rewrite (start_workers_from_app pre (w :: post) pool pool1 Hrun), Hrun. simpl.
  rewrite He. simpl.
  destruct (entry_identity w) as [[wid kind]|e] eqn:Hid.
  { destruct Hbad. by exists wid, kind. }
  exists e. split_and!; [done|done|].
  revert Hid. unfold entry_identity, Scheduler.item, MCPWorkerType_of_value.
  destruct (Scheduler.w_id w); simpl; [|intros [= <-]; by left].
  destruct (Scheduler.w_agent_type w) as [v|]; simpl;
    [|intros [= <-]; right; left; by split_and!; [eexists|..]].
  repeat case_decide; simpl; try done. intros [= <-].
  right; right. split; [by eexists|]. eexists v, _. split_and!; [done| |done].
  rewrite !elem_of_cons, elem_of_nil. tauto.
Qed.





(** X30.  The two readers of the team file disagree on entries without an
    ['enabled'] key: [list_workers] treats them as disabled and lists none
    of them, while [start_workers] treats them as enabled and registers
    every one whose process can be spawned. *)
Theorem X30_missing_enabled_key_is_read_both_ways
    (entries : list Scheduler.WorkerEntry) (b : WebSocketBroadcaster) :
  Forall (fun w => Scheduler.w_enabled w = None) entries ->
  Forall startable entries ->
  Scheduler.list_workers (Some entries) = Ok [] /\
  (start_workers popen (new_pool (Some entries) b)).2 = Ok tt /\
  forall w : Scheduler.WorkerEntry,
    w ∈ entries -> popen (spawn_command w) = true ->
    exists wid : string,
      Scheduler.w_id w = Some wid /\
      is_Some (worker_lookup wid
                 (workers (start_workers popen (new_pool (Some entries) b)).1)).
Proof.
  intros Hnone Hstart. split; [|].
  - unfold Scheduler.list_workers. simpl.
    induction Hnone as [|w entries Hw _ IH]; simpl; [done|].
    apply Forall_cons in Hstart as [_ Hstart].
    unfold Scheduler.is_enabled. rewrite Hw. simpl. by apply IH.
  - assert (Hall : Forall (fun w => pool_enabled w = true -> startable w) entries).
    { eapply Forall_impl; [exact Hstart|]. by intros w Hw _. }
    destruct (start_workers_registers entries b Hall)
      as (pool' & Hrun & Hkeys & _).
    rewrite Hrun. simpl. split; [done|].
    intros w Hin Hp.
    rewrite Forall_forall in Hnone, Hstart.
    destruct (Hstart w Hin) as (wid & kind & Hid).
    exists wid. split.
    + revert Hid. unfold entry_identity, Scheduler.item.
      destruct (Scheduler.w_id w); simpl; [|done].
      destruct (Scheduler.w_agent_type w); simpl; [|done].
      destruct (MCPWorkerType_of_value _); simpl; [|done]. by intros [= -> _].
    + apply Hkeys. exists w, kind. split_and!; [done| |done|done].
      unfold pool_enabled. by rewrite (Hnone w Hin).
Qed.

End PoolFacts.

End Facts.

(** ** Concrete runs *)

(** With the reference [json] library the codec reads back every message
    whose four fields hold values with unique dict keys. *)
Lemma reference_codec_roundtrip (m : MCPMessage) :
  RefJson.keys_unique (message_dict m) ->
  from_json (lib := RefJson.lib) (to_json (lib := RefJson.lib) m) = Ok m.
Proof.
  intros Hku. unfold from_json, to_json. cbn [json_loads json_dumps RefJson.lib].
  rewrite (RefJsonFacts.loads_dumps _ Hku). by destruct m.
Qed.

Lemma C9_codec_roundtrip_witness :
  RefJson.loads (RefJson.dumps (message_dict tool_use_message))
    = Some (message_dict tool_use_message) /\
  from_json (lib := RefJson.lib) (to_json (lib := RefJson.lib) tool_use_message)
    = Ok tool_use_message.
Proof.
  assert (H : RefJson.loads (RefJson.dumps (message_dict tool_use_message))
              = Some (message_dict tool_use_message)) by (by vm_compute).
  split; [exact H|].
  exact (C9_codec_roundtrip (lib := RefJson.lib) tool_use_message H).
Defined.

Lemma C10_files_modified_no_duplicates_witness :
  files_modified (metrics started_server) = [] /\
  NoDup (paths_of (files_modified (metrics
    (handle_all (clock := tick_clock)
       [task_complete_message "t1" ["a.py"; "a.py"; "b.py"];
        task_complete_message "t2" ["b.py"; "c.py"]] started_server)))).
Proof.
  assert (H : files_modified (metrics started_server) = []) by reflexivity.
  split; [exact H|].
  exact (proj1 (proj2 (C10_files_modified_no_duplicates (clock := tick_clock)
                         started_server _ H))).
Defined.


(** The failing input of C5: a line that is JSON but not a message ends the
    read loop instead of being logged.  After the line [{}] the reader has
    left its loop, nothing has been surfaced, and the chatter that follows
    is never read; without that line the chatter is surfaced as a [log]
    activity. *)
Lemma C5_json_non_message_stops_reader :
  let run := fun lines =>
    (read_stdout (lib := RefJson.lib) (clock := tick_clock) lines started_server).1 in
  reader_alive started_server = true /\
  from_json (lib := RefJson.lib) (strip ("{}" +:+ newline)) = Raise (KeyError "type") /\
  reader_alive (run ["{}" +:+ newline; "worker chatter" +:+ newline]) = false /\
  surfaced (run ["{}" +:+ newline; "worker chatter" +:+ newline]) = [] /\
  reader_alive (run ["worker chatter" +:+ newline]) = true /\
  description <$> surfaced (run ["worker chatter" +:+ newline])
    = [JStr "worker chatter"].
Proof. by vm_compute. Qed.

(** The failing input of C3: [execute_task] reports success although the
    worker stays silent (no [task_complete] was ever handled), and even when
    the worker reports [task_error] for that very task during the wait. *)
Lemma C3_execute_task_does_not_wait :
  let run := fun arrivals =>
    execute_task (lib := RefJson.lib) (clock := tick_clock)
      [("task_id", JStr "t1"); ("scope_touch", JList [JStr "src/"])]
      arrivals started_server in
  (run []).2 = Ok (mkTaskResult true (JStr "t1") (JList [JStr "src/"]) "worker-1") /\
  tasks_completed (metrics (run []).1) = 0 /\
  tasks_failed (metrics (run []).1) = 0 /\
  (run [(inject_Z 1, task_error_line "t1")]).2
    = Ok (mkTaskResult true (JStr "t1") (JList [JStr "src/"]) "worker-1") /\
  tasks_failed (metrics (run [(inject_Z 1, task_error_line "t1")]).1) = 1.
Proof. by vm_compute. Qed.


Lemma X17_list_tools_always_unregisters_witness :
  future_of "list_tools_1"
    (list_tools (lib := RefJson.lib) (clock := tick_clock) (inject_Z 1)
       [((1 # 2)%Q, "{}" +:+ newline)] started_server).1 = None.
Proof.
  apply (X17_list_tools_always_unregisters (lib := RefJson.lib) (clock := tick_clock)
           (inject_Z 1) [((1 # 2)%Q, "{}" +:+ newline)] started_server).
  by eexists.
Defined.

Lemma X18_failed_start_refuses_tasks_witness :
  exists s' : MCPServerStdio,
    start (lib := RefJson.lib) (clock := tick_clock) false idle_server
      = (s', Raise (OSError "Failed to start worker")) /\
    execute_task (lib := RefJson.lib) (clock := tick_clock)
      [("task_id", JStr "t1")] [] s'
      = (s', Raise (RuntimeError "Worker process not started")).
Proof.
  destruct (X18_failed_start_refuses_tasks (lib := RefJson.lib) (clock := tick_clock)
              idle_server [("task_id", JStr "t1")] [] eq_refl)
    as (s' & Hs & _ & _ & _ & _ & He).
  by exists s'.
Defined.

Lemma X19_tool_use_counts_one_tool_witness :
  count_lookup (JStr "edit_file")
    (tools_used (metrics (handle_message (clock := tick_clock)
                            tool_use_message started_server).1)) = 1.
Proof.
  refine (proj1 (proj2 (X19_tool_use_counts_one_tool
            (clock := tick_clock) tool_use_message started_server
            [("tool", JStr "edit_file"); ("file", JStr "src/app.py");
             ("description", JStr "Editing app"); ("lines", JInt 12)]
            (JStr "edit_file") _ _ _ _ _))).
  - by vm_compute.
  - reflexivity.
  - reflexivity.
  - reflexivity.
  - constructor.
Defined.


Lemma X21_message_ids_never_repeat_witness :
  exists (s1 s3 : MCPServerStdio) (m1 m2 : MCPMessage),
    send_message (lib := RefJson.lib) (clock := tick_clock) EXECUTE_TASK
      (JDict [("task_id", JStr "t1")]) started_server = (s1, Ok tt) /\
    send_message (lib := RefJson.lib) (clock := tick_clock) SHUTDOWN (JDict [])
      (read_stdout (lib := RefJson.lib) (clock := tick_clock)
         ["working" +:+ newline] s1).1 = (s3, Ok tt) /\
    msg_id m1 = JStr "worker-1_2" /\ msg_id m2 = JStr "worker-1_3" /\
    msg_id m1 <> msg_id m2.
Proof.
  destruct (proj1 (X21_message_ids_never_repeat (lib := RefJson.lib)
                     (clock := tick_clock) EXECUTE_TASK SHUTDOWN
                     (JDict [("task_id", JStr "t1")]) (JDict [])
                     ["working" +:+ newline] started_server) _ eq_refl)
    as (s1 & s3 & m1 & m2 & H1 & H2 & _ & _ & _ & _ & _ & Hi1 & Hi2 & Hne).
  exists s1, s3, m1, m2. split_and!; [exact H1|exact H2|exact Hi1|exact Hi2|exact Hne].
Defined.

Lemma X22_reader_stops_for_good_witness :
  read_stdout (lib := RefJson.lib) (clock := tick_clock)
    ["{}" +:+ newline; "worker chatter" +:+ newline] started_server
    = (set_reader_alive false started_server, Ok tt).
Proof.
  refine (proj1 (X22_reader_stops_for_good (lib := RefJson.lib) (clock := tick_clock)
                   ("{}" +:+ newline) ["worker chatter" +:+ newline] started_server
                   _ _ _) (KeyError "type") _ _).
  - reflexivity.
  - reflexivity.
  - by vm_compute.
  - by vm_compute.
  - done.
Defined.


Lemma X27_pool_registers_the_spawned_workers_witness :
  exists pool' : WorkerPoolManager,
    start_workers (lib := RefJson.lib) (clock := tick_clock) no_npx
      (new_pool (Some [worker_draft; worker_claude; worker_implicit])
                (mkBroadcaster [7%nat] []))
      = (pool', Ok tt) /\
    worker_id <$> worker_lookup "codex-fast" (workers pool') = Some "codex-fast" /\
    worker_lookup "claude-main" (workers pool') = None.
Proof.
  destruct (X27_pool_registers_the_spawned_workers
              (lib := RefJson.lib) (clock := tick_clock) no_npx
              [worker_draft; worker_claude; worker_implicit]
              (mkBroadcaster [7%nat] []))
    as (pool' & Hrun & _ & _).
  - repeat constructor; try discriminate.
    + intros _. by exists "claude-main", CLAUDE.
    + intros _. by exists "codex-fast", CODEX.
  - exists pool'. split; [exact Hrun|].
    vm_compute in Hrun. injection Hrun as <-. by vm_compute.
Defined.

Lemma X28_pool_stops_at_a_malformed_entry_witness :
  let outcome :=
    start_workers (lib := RefJson.lib) (clock := tick_clock) no_npx
      (new_pool (Some ([worker_implicit] ++ [worker_unknown_type; worker_claude]))
                (mkBroadcaster [7%nat] [])) in
  outcome.2 = Raise (ValueError "not a valid MCPWorkerType") /\
  fst <$> workers outcome.1 = ["codex-fast"].
Proof.
  destruct (X28_pool_stops_at_a_malformed_entry
              (lib := RefJson.lib) (clock := tick_clock) no_npx
              [worker_implicit] [worker_claude] worker_unknown_type
              (mkBroadcaster [7%nat] []))
    as (e & Hrun & _ & _).
  - repeat constructor. intros _. by exists "codex-fast", CODEX.
  - reflexivity.
  - intros (wid & kind & Hid). by vm_compute in Hid.
  - cbv zeta. rewrite Hrun. split; [|by vm_compute].
    vm_compute in Hrun. by injection Hrun as <-.
Defined.


Lemma X30_missing_enabled_key_is_read_both_ways_witness :
  Scheduler.list_workers (Some [worker_implicit]) = Ok [] /\
  is_Some (worker_lookup "codex-fast"
             (workers (start_workers (lib := RefJson.lib) (clock := tick_clock) no_npx
                         (new_pool (Some [worker_implicit])
                                   (mkBroadcaster [7%nat] []))).1)).
Proof.
  destruct (X30_missing_enabled_key_is_read_both_ways
              (lib := RefJson.lib) (clock := tick_clock) no_npx
              [worker_implicit] (mkBroadcaster [7%nat] []))
    as (Hlist & _ & Hstarted).
  - by repeat constructor.
  - repeat constructor. by exists "codex-fast", CODEX.
  - split; [exact Hlist|].
    destruct (Hstarted worker_implicit) as (wid & Hid & Hl).
    + set_solver.
    + reflexivity.
    + by injection Hid as <-.
Defined.

End SupervisorFacts.

(** * Theorems about the broadcast hub *)

Module HubFacts.
Import Json Hub Examples.

Section Facts.
Variable healthy : WebSocket -> bool.

Lemma send_all_spec (message : json) (conns : list WebSocket) :
  send_all healthy message conns
    = ((fun c => (c, message)) <$> filter (fun c => healthy c = true) conns,
       filter (fun c => healthy c = false) conns).
Proof.
  unfold send_all.
  assert (H : forall sent failed,
    fold_left (fun acc c =>
                 if healthy c then (acc.1 ++ [(c, message)], acc.2)
                 else (acc.1, acc.2 ++ [c])) conns (sent, failed)
    = (sent ++ ((fun c => (c, message)) <$> filter (fun c => healthy c = true) conns),
       failed ++ filter (fun c => healthy c = false) conns)).
  { induction conns as [|c conns IH]; intros sent failed; simpl.
    - by rewrite !app_nil_r.
    - rewrite !filter_cons. destruct (healthy c) eqn:Hc; simpl; rewrite IH; simpl.
      + by rewrite <- app_assoc.
      + by rewrite <- app_assoc. }
  apply H.
Qed.

Lemma remove_first_app_absent (x : WebSocket) (pre l : list WebSocket) :
  x ∉ pre -> remove_first x (pre ++ x :: l) = pre ++ l.
Proof.
  induction pre as [|y pre IH]; intros Hx; simpl.
  - by rewrite decide_True.
  - rewrite decide_False by (intros ->; apply Hx; left).
    f_equal. apply IH. intros ?. apply Hx. by right.
Qed.

Lemma disconnect_present (c : WebSocket) (channel : string) (m : ConnectionManager)
    (conns : list WebSocket) :
  active_connections m !! channel = Some conns -> c ∈ conns ->
  disconnect c channel m = Ok (set_channel channel (remove_first c conns) m).
Proof.
  intros Hm Hc. unfold disconnect, channel_get. rewrite Hm. simpl.
  by rewrite bool_decide_eq_true_2.
Qed.

(** Removing, one after the other, the failed connections of [l] from a
    channel that holds healthy connections followed by [l] leaves the
    healthy ones, in their order. *)
Lemma disconnect_failed (channel : string) (l pre : list WebSocket)
    (m : ConnectionManager) :
  active_connections m !! channel = Some (pre ++ l) ->
  Forall (fun c => healthy c = true) pre ->
  exists m' : ConnectionManager,
    foldM (fun m' conn => disconnect conn channel m')
          (filter (fun c => healthy c = false) l) m = Ok m' /\
    delivered m' = delivered m /\
    active_connections m' !! channel
      = Some (pre ++ filter (fun c => healthy c = true) l) /\
    (forall ch : string, ch <> channel ->
       active_connections m' !! ch = active_connections m !! ch).
Proof.
  revert pre m. induction l as [|c l IH]; intros pre m Hm Hpre; simpl.
  - exists m. by rewrite filter_nil.
  - rewrite !filter_cons. destruct (healthy c) eqn:Hc.
    + rewrite decide_False, decide_True by done.
      destruct (IH (pre ++ [c]) m) as (m' & Hf & Hd & Ha & Ho).
      * by rewrite <- app_assoc.
      * apply Forall_app. split; [done|]. by constructor.
      * exists m'. rewrite <- app_assoc in Ha. by split_and!.
    + rewrite decide_True, decide_False by done. simpl.
      rewrite (disconnect_present c channel m (pre ++ c :: l) Hm)
        by (apply elem_of_app; right; left).
      simpl.
      assert (Hc' : c ∉ pre).
      { intros Hin. rewrite Forall_forall in Hpre. specialize (Hpre c Hin). congruence. }
      rewrite remove_first_app_absent by done. simpl.
      destruct (IH pre (set_channel channel (pre ++ l) m)) as (m' & Hf & Hd & Ha & Ho).
      * simpl. apply lookup_insert_eq.
      * done.
      * exists m'. split_and!; try done.
        intros ch Hch. rewrite Ho by done. simpl. by rewrite lookup_insert_ne.
Qed.

(** A channel that was never set up has no registration list: publishing
    to it raises [KeyError]. *)
Lemma broadcast_unknown_channel (message : json) (channel : string)
    (m : ConnectionManager) :
  active_connections m !! channel = None ->
  broadcast healthy message channel m = Raise (KeyError channel).
Proof. intros Hm. unfold broadcast, channel_get. by rewrite Hm. Qed.

(** C6.  Publishing to a channel, whichever connections fail: the call
    succeeds, the event is handed to every registered connection whose send
    succeeds (once per registration, in registration order), the channel
    afterwards holds exactly those connections, so every failing one is
    gone and every healthy one is still registered, and the other channels
    are untouched. *)
Theorem C6_broadcast_reaches_healthy (message : json) (channel : string)
    (m : ConnectionManager) (conns : list WebSocket) :
  active_connections m !! channel = Some conns ->
  exists m' : ConnectionManager,
    broadcast healthy message channel m = Ok m' /\
    delivered m' = delivered m ++
      ((fun c => (c, message)) <$> filter (fun c => healthy c = true) conns) /\
    registered channel m' = filter (fun c => healthy c = true) conns /\
    (forall c : WebSocket, c ∈ conns -> healthy c = true ->
       (c, message) ∈ delivered m' /\ c ∈ registered channel m') /\
    (forall c : WebSocket, healthy c = false -> c ∉ registered channel m') /\
    (forall ch : string, ch <> channel ->
       active_connections m' !! ch = active_connections m !! ch).
Proof.
  intros Hm. unfold broadcast, channel_get. rewrite Hm. simpl.
  rewrite send_all_spec.
  destruct (disconnect_failed channel conns []
              {| active_connections := active_connections m;
                 delivered := delivered m ++
                   ((fun c => (c, message)) <$> filter (fun c => healthy c = true) conns) |})
    as (m' & Hf & Hd & Ha & Ho); [done|done|].
  simpl in *. exists m'.
  assert (Hreg : registered channel m' = filter (fun c => healthy c = true) conns)
    by (unfold registered; by rewrite Ha).
  split_and!; try done.
  - intros c Hc Hh. split.
    + rewrite Hd. apply elem_of_app. right.
      apply list_elem_of_fmap. exists c. split; [done|].
      by apply list_elem_of_filter.
    + rewrite Hreg. by apply list_elem_of_filter.
  - intros c Hh. rewrite Hreg. intros [Hh' _]%list_elem_of_filter. congruence.
Qed.

(** ** Registering and unregistering *)

Lemma remove_first_snoc (ws : WebSocket) (conns : list WebSocket) :
  remove_first ws (conns ++ [ws])
    = if decide (ws ∈ conns) then remove_first ws conns ++ [ws] else conns.
Proof.
  induction conns as [|c conns IH]; simpl.
  - by rewrite decide_True.
  - destruct (decide (c = ws)) as [->|Hne].
    + rewrite decide_True; [done|left].
    + rewrite IH. destruct (decide (ws ∈ conns)) as [Hin|Hnin].
      * rewrite decide_True; [done|by right].
      * rewrite decide_False; [done|].
        intros [?|?]%elem_of_cons; [congruence|done].
Qed.

(** X25.  On a channel that exists, [connect] appends the connection to
    the channel's list and a following [disconnect] of the same connection
    takes one registration away again, the earliest one: a connection that
    was not registered before is gone and the list is as it was; one that
    was already registered is still registered, once less than after the
    connect.  Other channels and the log of deliveries are untouched. *)
Theorem X25_disconnect_undoes_connect (ws : WebSocket) (channel : string)
    (m : ConnectionManager) (conns : list WebSocket) :
  active_connections m !! channel = Some conns ->
  exists m1 m2 : ConnectionManager,
    connect ws channel m = Ok m1 /\
    registered channel m1 = conns ++ [ws] /\
    disconnect ws channel m1 = Ok m2 /\
    registered channel m2 = remove_first ws (conns ++ [ws]) /\
    (ws ∉ conns -> registered channel m2 = conns) /\
    (ws ∈ conns -> registered channel m2 = remove_first ws conns ++ [ws]) /\
    delivered m2 = delivered m /\
    (forall ch : string, ch <> channel ->
       active_connections m2 !! ch = active_connections m !! ch).
Proof.
  intros Hm. unfold connect, channel_get. rewrite Hm. simpl.
  eexists _, _. split; [reflexivity|].
  unfold registered. simpl. rewrite lookup_insert_eq. simpl.
  split; [done|].
  rewrite (disconnect_present ws channel _ (conns ++ [ws]));
    [|simpl; apply lookup_insert_eq|apply elem_of_app; right; left].
  split; [reflexivity|]. simpl. rewrite lookup_insert_eq. simpl.
  rewrite remove_first_snoc. split_and!; try done.
  - intros Hnin. by rewrite decide_False.
  - intros Hin. by rewrite decide_True.
  - intros ch Hch. by rewrite !lookup_insert_ne.
Qed.

(** ** The set of channels *)

Lemma disconnect_channels (c : WebSocket) (channel : string)
    (m m' : ConnectionManager) :
  disconnect c channel m = Ok m' ->
  forall ch : string,
    is_Some (active_connections m' !! ch) <-> is_Some (active_connections m !! ch).
Proof.
  unfold disconnect, channel_get.
  destruct (active_connections m !! channel) as [conns|] eqn:Hm; simpl; [|done].
  case_bool_decide; intros [= <-] ch; [|done]. simpl.
  destruct (decide (ch = channel)) as [->|Hne].
  - rewrite lookup_insert_eq, Hm. split; by eexists.
  - by rewrite lookup_insert_ne.
Qed.

Lemma disconnect_all_channels (channel : string) (l : list WebSocket)
    (m m' : ConnectionManager) :
  foldM (fun m' conn => disconnect conn channel m') l m = Ok m' ->
  forall ch : string,
    is_Some (active_connections m' !! ch) <-> is_Some (active_connections m !! ch).
Proof.
  revert m. induction l as [|c l IH]; intros m; simpl.
  - by intros [= <-].
  - destruct (disconnect c channel m) as [m1|e] eqn:Hd; simpl; [|done].
    intros Hf ch. rewrite (IH m1 Hf ch). by apply (disconnect_channels c channel).
Qed.

(** X26.  The channels are fixed when the manager is created:
    ['brainstorm'], ['orchestration'] and ['workers'].  No call of
    [connect], [disconnect] or [broadcast] that returns adds or removes a
    channel, and each of them raises [KeyError] for a channel that does not
    exist, leaving the manager as it was. *)
Theorem X26_channels_are_fixed :
  (forall ch : string,
     is_Some (active_connections new_manager !! ch) <->
     ch ∈ ["brainstorm"; "orchestration"; "workers"]) /\
  (forall (ws : WebSocket) (message : json) (channel : string)
          (m m' : ConnectionManager),
     connect ws channel m = Ok m' \/ disconnect ws channel m = Ok m' \/
     broadcast healthy message channel m = Ok m' ->
     forall ch : string,
       is_Some (active_connections m' !! ch) <-> is_Some (active_connections m !! ch)) /\
  (forall (ws : WebSocket) (message : json) (channel : string) (m : ConnectionManager),
     active_connections m !! channel = None ->
     connect ws channel m = Raise (KeyError channel) /\
     disconnect ws channel m = Raise (KeyError channel) /\
     broadcast healthy message channel m = Raise (KeyError channel)).
Proof.
  split_and!.
  - intros ch. unfold new_manager. simpl.
    rewrite !elem_of_cons, elem_of_nil.
    destruct (decide (ch = "brainstorm")) as [->|H1];
      [rewrite lookup_insert_eq; split; [by left|by eexists]|].
    rewrite lookup_insert_ne by done.
    destruct (decide (ch = "orchestration")) as [->|H2];
      [rewrite lookup_insert_eq; split; [by right; left|by eexists]|].
    rewrite lookup_insert_ne by done.
    destruct (decide (ch = "workers")) as [->|H3];
      [rewrite lookup_insert_eq; split; [by right; right; left|by eexists]|].
    rewrite lookup_insert_ne by done. rewrite lookup_empty.
    split; [by intros [? ?]|]. intros [?|[?|[?|[]]]]; done.
  - intros ws message channel m m' [Hc|[Hd|Hb]] ch.
    + revert Hc. unfold connect, channel_get.
      destruct (active_connections m !! channel) as [conns|] eqn:Hm; simpl; [|done].
      intros [= <-]. simpl.
      destruct (decide (ch = channel)) as [->|Hne].
      * rewrite lookup_insert_eq, Hm. split; by eexists.
      * by rewrite lookup_insert_ne.
    + by apply (disconnect_channels ws channel).
    + revert Hb. unfold broadcast, channel_get.
      destruct (active_connections m !! channel) as [conns|] eqn:Hm; simpl; [|done].
      destruct (send_all healthy message conns) as [sent failed].
      intros Hf. by rewrite (disconnect_all_channels channel failed _ m' Hf ch).
  - intros ws message channel m Hm.
    unfold connect, disconnect, broadcast, channel_get. by rewrite Hm.
Qed.

End Facts.

Lemma C6_broadcast_reaches_healthy_witness :
  exists m' : ConnectionManager,
    broadcast second_is_down (JStr "tick") "workers" three_workers = Ok m' /\
    delivered m' = [(1%nat, JStr "tick"); (3%nat, JStr "tick")] /\
    registered "workers" m' = [1%nat; 3%nat].
Proof.
  destruct (C6_broadcast_reaches_healthy second_is_down (JStr "tick") "workers"
              three_workers [1%nat; 2%nat; 3%nat])
    as (m' & Hb & Hd & Hr & _).
  - reflexivity.
  - exists m'. split_and!; [exact Hb|exact Hd|exact Hr].
Defined.

Lemma X25_disconnect_undoes_connect_witness :
  exists m1 m2 : ConnectionManager,
    connect 4%nat "workers" three_workers = Ok m1 /\
    registered "workers" m1 = [1%nat; 2%nat; 3%nat; 4%nat] /\
    disconnect 4%nat "workers" m1 = Ok m2 /\
    registered "workers" m2 = [1%nat; 2%nat; 3%nat].
Proof.
  destruct (X25_disconnect_undoes_connect 4%nat "workers" three_workers
              [1%nat; 2%nat; 3%nat] eq_refl)
    as (m1 & m2 & Hc & Hr1 & Hd & Hr2 & _).
  exists m1, m2. split_and!; [exact Hc|exact Hr1|exact Hd|exact Hr2].
Defined.

Lemma X26_channels_are_fixed_witness :
  connect 1%nat "metrics" new_manager = Raise (KeyError "metrics").
Proof.
  refine (proj1 (proj2 (proj2 (X26_channels_are_fixed second_is_down))
                   1%nat JNull "metrics" new_manager _)).
  reflexivity.
Defined.

End HubFacts.
